(** * AirQualityFetcher: the city catalog and its first population, the
      fuzzy matcher, the daily-AQI reconciler, the retrying client and the
      HTTP handlers of [app.py], embedded in Rocq.

    Conventions of the embedding.
    - A Python [str] is a [string]: the sequence of its UTF-8 bytes.  The
      byte-wise lexicographic order, prefix test and substring test used
      below coincide with Python's on [str]; [str.lower] and [len] are taken
      from the class [Unicode].
    - A Python [int] is a [Z].  A key that a JSON object may lack is an
      [option], [None] when it is missing; a value that may be [null] is an
      [option] too, as the records say field by field.
    - A finite Python [float] is the rational of [Q] it stands for, and an
      operation on floats ([sum / count], [2.0 * M / T], [1.0 + ratio])
      returns the float nearest to the exact result, as IEEE 754 binary64
      arithmetic does.  The lengths of strings are far below [2^1024], so
      that only the quotient of two [int] can leave the range of the floats.
    - A Python [dict] is an insertion-ordered association list with unique
      keys.
    - An exception is a value of [exn]; code that can raise returns a
      [result].  What the program prints is left out. *)

From Stdlib Require Import List String Ascii Bool ZArith QArith Qpower Qabs Lia Lqa.
From Stdlib Require Import Sorted Permutation OrderedTypeEx DecimalString.
Import ListNotations.

Local Open Scope string_scope.
Local Open Scope Z_scope.

(* ===================================================================== *)
(** * Python values and builtins used by the program *)
(* ===================================================================== *)

Module Py.

(** ** Exceptions *)

Inductive exn : Type :=
| HTTPError (status_code : Z) (msg : string)
| RequestException (msg : string)
| KeyError (key : string)
| TypeError (msg : string)
| AttributeError (msg : string)
| ValueError (msg : string)
| ZeroDivisionError (msg : string)
| OverflowError (msg : string).

(** [str(e)] *)
Definition str_exn (e : exn) : string :=
  match e with
  | HTTPError _ m => m
  | RequestException m => m
  | KeyError k => "'" ++ k ++ "'"
  | TypeError m => m
  | AttributeError m => m
  | ValueError m => m
  | ZeroDivisionError m => m
  | OverflowError m => m
  end.

Inductive result (A : Type) : Type :=
| Ok (a : A)
| Raise (e : exn).
Arguments Ok {A} a.
Arguments Raise {A} e.

Definition bind {A B : Type} (m : result A) (k : A -> result B) : result B :=
  match m with
  | Ok a => k a
  | Raise e => Raise e
  end.

Declare Scope py_scope.
Delimit Scope py_scope with py.
Notation "x <- m ;; k" := (bind m (fun x => k))
  (at level 61, m at next level, right associativity) : py_scope.
Notation "' pat <- m ;; k" := (bind m (fun x => match x with pat => k end))
  (at level 61, pat pattern, m at next level, right associativity) : py_scope.

(** ** Strings *)

(** [s.startswith(p)] *)
Fixpoint startswith (s p : string) : bool :=
  match p, s with
  | EmptyString, _ => true
  | String _ _, EmptyString => false
  | String b p', String a s' => Ascii.eqb a b && startswith s' p'
  end.

(** [p in s] *)
Fixpoint contains (s p : string) : bool :=
  startswith s p ||
  match s with
  | EmptyString => false
  | String _ s' => contains s' p
  end.

(** [s.split("T")[0]] : the part of [s] before its first ["T"], all of [s]
    when it has none. *)
Fixpoint split_T_0 (s : string) : string :=
  match s with
  | EmptyString => EmptyString
  | String c s' => if Ascii.eqb c "T"%char then EmptyString
                   else String c (split_T_0 s')
  end.

(** [a < b] on [str] *)
Definition str_lt (a b : string) : bool :=
  match String.compare a b with Lt => true | _ => false end.

(** [str(n)] for an [int] *)
Definition str_int (n : Z) : string := NilZero.string_of_int (Z.to_int n).

(** ** Lists *)

(** [zip(xs, ys)] : stops at the end of the shorter list. *)
Fixpoint zip {A B : Type} (xs : list A) (ys : list B) : list (A * B) :=
  match xs, ys with
  | x :: xs', y :: ys' => (x, y) :: zip xs' ys'
  | _, _ => []
  end.

(** [xs[:n]] : the first [n] elements, and for a negative [n] all but the
    last [-n]. *)
Definition slice_to {A : Type} (xs : list A) (n : Z) : list A :=
  if 0 <=? n then firstn (Z.to_nat n) xs
  else firstn (Z.to_nat (Z.of_nat (List.length xs) + n)) xs.

(** [sorted(xs, key=key)] for a [str]-valued key.  Python's sort is stable
    and compares keys with [<] only; a stable sort is determined by its
    input, so the insertion sort below returns the list Python returns. *)
Section Sorted.
Context {A : Type} (key : A -> string).

Fixpoint insert_asc (x : A) (l : list A) : list A :=
  match l with
  | [] => [x]
  | y :: l' => if str_lt (key y) (key x) then y :: insert_asc x l'
               else x :: l
  end.

Definition sorted (l : list A) : list A := fold_right insert_asc [] l.
End Sorted.

(** [xs.sort(key=key, reverse=True)] for a [float]-valued key: descending,
    and elements with equal keys keep their original order.  [Qltb] is [<]
    on two floats. *)
Definition Qltb (a b : Q) : bool := negb (Qle_bool b a).

Section SortReverse.
Context {A : Type} (key : A -> Q).

Fixpoint insert_desc (x : A) (l : list A) : list A :=
  match l with
  | [] => [x]
  | y :: l' => if Qltb (key x) (key y) then y :: insert_desc x l'
               else x :: l
  end.

Definition sort_reverse (l : list A) : list A := fold_right insert_desc [] l.
End SortReverse.

(** ** Numbers *)

(** The integer nearest to the quotient of [s] by [c], the even one of
    the two when the quotient lies half-way. *)
Definition round_half_even (s c : Z) : Z :=
  let '(s, c) := if c <? 0 then (- s, - c) else (s, c) in
  let q := s / c in
  let r := s mod c in
  match 2 * r ?= c with
  | Lt => q
  | Gt => q + 1
  | Eq => if Z.even q then q else q + 1
  end.

(** ** Floats

    A finite [float] is the rational it stands for: a number of the form
    [m * 2^k] with [|m| <= 2^53] and [k >= -1074].  The operations below
    round as IEEE 754 binary64 arithmetic does, to the nearest float and to
    the one of even mantissa on a tie. *)

(** The [e] with [2^e <= q < 2^(e+1)], for a positive [q]. *)
Definition exponent (q : Q) : Z :=
  let e := Z.log2 (Qnum q) - Z.log2 (Zpos (Qden q)) in
  if Qle_bool (2 ^ e) q then e else e - 1.

(** The distance between the floats around [q]: 53 bits of mantissa, and
    [2^-1074] for the subnormal numbers. *)
Definition ulp (q : Q) : Q := (2 ^ Z.max (exponent (Qabs q) - 52) (-1074))%Q.

(** [round(x)] for a [float] *)
Definition round_float (x : Q) : Z := round_half_even (Qnum x) (Zpos (Qden x)).

(** The float nearest to [q], when no float is too small for it. *)
Definition nearest_float (q : Q) : Q :=
  if Qeq_bool q 0 then 0%Q
  else (inject_Z (round_float (q / ulp q)) * ulp q)%Q.

(** [x + y], [x * y] and [x / y] on two floats whose result is in range, and
    [float(n)] for an [int] in range. *)
Definition float_add (x y : Q) : Q := nearest_float (x + y).
Definition float_mul (x y : Q) : Q := nearest_float (x * y).
Definition float_div (x y : Q) : Q := nearest_float (x / y).
Definition float_of_int (n : Z) : Q := nearest_float (inject_Z n).

(** [a / b] on two [int]: the float nearest to the quotient. *)
Definition true_divide (a b : Z) : result Q :=
  if b =? 0 then Raise (ZeroDivisionError "division by zero")
  else
    let x := nearest_float (inject_Z a / inject_Z b) in
    if Qle_bool (2 ^ 1024) (Qabs x)
    then Raise (OverflowError "integer division result too large for a float")
    else Ok x.

(** ** Dictionaries with [str] keys *)

Definition dict (V : Type) : Type := list (string * V).

Section Dict.
Context {V : Type}.

(** [d.get(k)] *)
Fixpoint get (d : dict V) (k : string) : option V :=
  match d with
  | [] => None
  | (k', v) :: d' => if String.eqb k' k then Some v else get d' k
  end.

(** [d.get(k, default)] *)
Definition get_default (d : dict V) (k : string) (default : V) : V :=
  match get d k with Some v => v | None => default end.

(** [d[k]] *)
Definition item (d : dict V) (k : string) : result V :=
  match get d k with Some v => Ok v | None => Raise (KeyError k) end.

(** [k in d] *)
Definition mem (d : dict V) (k : string) : bool :=
  match get d k with Some _ => true | None => false end.

(** [d[k] = v] : a present key keeps its position, a new one goes last. *)
Fixpoint set (d : dict V) (k : string) (v : V) : dict V :=
  match d with
  | [] => [(k, v)]
  | (k', v') :: d' => if String.eqb k' k then (k', v) :: d'
                      else (k', v') :: set d' k v
  end.

Definition keys (d : dict V) : list string := map fst d.
Definition values (d : dict V) : list V := map snd d.
End Dict.

End Py.

Import Py.
Local Open Scope py_scope.

(* ===================================================================== *)
(** * The daily-AQI reconciler *)
(* ===================================================================== *)

(** One entry of [daily_aqi_summary]. *)
Record DailyAqiEntry : Type := mkEntry {
  date : string;
  label : string;
  aqi : option Z
}.

(** [city_data["history"]["pollution"]]: the parallel arrays [ts] and
    [aqius]; [hp_ts] is [None] when ["ts" not in pollution], [hp_aqius] when
    ["aqius"] is missing or [null].  A reading may be [null]. *)
Record HistoryPollution : Type := mkHistoryPollution {
  hp_ts : option (list string);
  hp_aqius : option (list (option Z))
}.

(** [city_data["history"]]: an object whose ["pollution"] may be missing. *)
Record History : Type := mkHistory {
  h_pollution : option HistoryPollution
}.

(** The loop body of [calculate_daily_history_averages]: one
    (timestamp, reading) pair updates the two dictionaries. *)
Definition history_step (acc : dict Z * dict Z) (p : string * option Z)
  : result (dict Z * dict Z) :=
  let '(daily_aqi_sums, daily_aqi_counts) := acc in
  let '(timestamp_str, aqi) := p in
  let date_part := split_T_0 timestamp_str in
  match aqi with
  | None => Raise (TypeError "unsupported operand type(s) for +: 'int' and 'NoneType'")
  | Some a =>
      Ok (set daily_aqi_sums date_part (get_default daily_aqi_sums date_part 0 + a),
          set daily_aqi_counts date_part (get_default daily_aqi_counts date_part 0 + 1))
  end.

Fixpoint history_loop (acc : dict Z * dict Z) (ps : list (string * option Z))
  : result (dict Z * dict Z) :=
  match ps with
  | [] => Ok acc
  | p :: ps' => acc' <- history_step acc p ;; history_loop acc' ps'
  end.

Fixpoint history_entries (sums counts : dict Z) (dates : list string)
  : result (list DailyAqiEntry) :=
  match dates with
  | [] => Ok []
  | date_part :: dates' =>
      s <- item sums date_part ;;
      c <- item counts date_part ;;
      quotient <- true_divide s c ;;
      let avg_aqi := round_float quotient in
      rest <- history_entries sums counts dates' ;;
      Ok (mkEntry date_part ("Avg. AQI (" ++ date_part ++ ")") (Some avg_aqi) :: rest)
  end.

Definition calculate_daily_history_averages (history_data : option History)
  : result (list DailyAqiEntry) :=
  match history_data with
  | None => Ok []
  | Some h =>
      match h_pollution h with
      | None => Ok []
      | Some pollution =>
          match hp_ts pollution with
          | None => Ok []
          | Some ts =>
              match hp_aqius pollution with
              | None | Some [] => Ok []
              | Some aqius =>
                  ' (daily_aqi_sums, daily_aqi_counts) <-
                      history_loop ([], []) (zip ts aqius) ;;
                  history_entries daily_aqi_sums daily_aqi_counts
                    (sorted (fun d => d) (keys daily_aqi_sums))
              end
          end
      end
  end.

(** [city_data["forecast"]["daily"]]: one object per day.  A missing
    ["ts"] makes [day_data["ts"]] raise; [day_data.get("aqius")] may be
    [None]. *)
Record ForecastDay : Type := mkForecastDay {
  fd_ts : option string;
  fd_aqius : option Z
}.

Record Forecast : Type := mkForecast {
  f_daily : option (list ForecastDay)
}.

Fixpoint forecast_entries (days : list ForecastDay) : result (list DailyAqiEntry) :=
  match days with
  | [] => Ok []
  | day_data :: days' =>
      match fd_ts day_data with
      | None => Raise (KeyError "ts")
      | Some ts =>
          let date_part := split_T_0 ts in
          rest <- forecast_entries days' ;;
          Ok (mkEntry date_part ("Forecast AQI (" ++ date_part ++ ")")
                (fd_aqius day_data) :: rest)
      end
  end.

Definition calculate_daily_forecast_aqi (forecast_data : option Forecast)
  : result (list DailyAqiEntry) :=
  match forecast_data with
  | None => Ok []
  | Some f =>
      match f_daily f with
      | None => Ok []
      | Some daily => forecast_entries daily
      end
  end.

(** Step 4 of the success branch of [get_air_quality_data]: the three
    sources are merged in one dictionary keyed by date. *)

(** 4a: [for item in history_averages: all_daily_aqi[item['date']] = item] *)
Definition add_history (all_daily_aqi : dict DailyAqiEntry)
    (history_averages : list DailyAqiEntry) : dict DailyAqiEntry :=
  fold_left (fun d item => set d (date item) item) history_averages all_daily_aqi.

(** 4b: [for item in forecast_aqis: if item['date'] not in all_daily_aqi: ...] *)
Definition add_forecast (all_daily_aqi : dict DailyAqiEntry)
    (forecast_aqis : list DailyAqiEntry) : dict DailyAqiEntry :=
  fold_left (fun d item => if mem d (date item) then d else set d (date item) item)
    forecast_aqis all_daily_aqi.

(** 4c: [if aqi_us is not None: all_daily_aqi[current_date] = {...}], where
    [current_date] is the UTC date read from the clock. *)
Definition add_current (all_daily_aqi : dict DailyAqiEntry)
    (aqi_us : option Z) (current_date : string) : dict DailyAqiEntry :=
  match aqi_us with
  | Some _ => set all_daily_aqi current_date
                (mkEntry current_date "Current AQI" aqi_us)
  | None => all_daily_aqi
  end.

Definition combine_daily_aqi (history_averages forecast_aqis : list DailyAqiEntry)
    (aqi_us : option Z) (current_date : string) : list DailyAqiEntry :=
  let all_daily_aqi := add_history [] history_averages in
  let all_daily_aqi := add_forecast all_daily_aqi forecast_aqis in
  let all_daily_aqi := add_current all_daily_aqi aqi_us current_date in
  sorted date (values all_daily_aqi).

(** Steps 2 to 4 together: what ends up in [daily_aqi_summary]. *)
Definition daily_aqi_summary (history_data : option History)
    (forecast_data : option Forecast) (aqi_us : option Z)
    (current_date : string) : result (list DailyAqiEntry) :=
  history_averages <- calculate_daily_history_averages history_data ;;
  forecast_aqis <- calculate_daily_forecast_aqi forecast_data ;;
  Ok (combine_daily_aqi history_averages forecast_aqis aqi_us current_date).

(* ===================================================================== *)
(** * The air-quality client *)
(* ===================================================================== *)

(** A JSON value the program passes along without looking inside. *)
#[warnings="-register-all"]
Inductive json : Type :=
| JNull
| JBool (b : bool)
| JInt (n : Z)
| JString (s : string)
| JArray (items : list json)
| JObject (fields : list (string * json)).

(** [type(j).__name__] *)
Definition type_name (j : json) : string :=
  match j with
  | JNull => "NoneType"
  | JBool _ => "bool"
  | JInt _ => "int"
  | JString _ => "str"
  | JArray _ => "list"
  | JObject _ => "dict"
  end.

(** [bool(j)] *)
Definition truthy (j : json) : bool :=
  match j with
  | JNull => false
  | JBool b => b
  | JInt n => negb (n =? 0)
  | JString s => negb (String.eqb s "")
  | JArray l => match l with [] => false | _ => true end
  | JObject l => match l with [] => false | _ => true end
  end.

(** [j.get(...)] on a value that is not an object *)
Definition no_get (j : json) : exn :=
  AttributeError ("'" ++ type_name j ++ "' object has no attribute 'get'").

(** [city_data["current"]["pollution"]] and [city_data["current"]]; absent
    keys are [None]. *)
Record CurrentPollution : Type := mkCurrentPollution {
  cp_aqius : option Z;
  cp_mainus : option string
}.

Record Current : Type := mkCurrent {
  c_pollution : option CurrentPollution;
  c_weather : option json
}.

(** The object under ["data"] of a city payload. *)
Record CityData : Type := mkCityData {
  cd_current : option Current;
  cd_history : option History;
  cd_forecast : option Forecast
}.

(** The value under ["data"]: an object, read as a [CityData], or any other
    JSON value. *)
Inductive DataField : Type :=
| DataObject (city_data : CityData)
| DataOther (j : json).

(** What [response.json()] returns: an object with its ["status"] (when it is
    a string) and its ["data"], or any other JSON value. *)
Inductive Payload : Type :=
| PayloadObject (status : option string) (data : option DataField)
| PayloadOther (j : json).

(** A response of the remote API.  [raise_for_status] is [Some msg] when
    [response.raise_for_status()] raises an [HTTPError] (whose
    [e.response] is this response), with [str(e) = msg]. *)
Record Response : Type := mkResponse {
  status_code : Z;
  raise_for_status : option string;
  json_body : result Payload
}.

(** The [error] of a failure result: a message, or the payload's ["data"]. *)
Inductive ErrorValue : Type :=
| ErrorText (message : string)
| ErrorData (d : DataField).

Record AirQuality : Type := mkAirQuality {
  r_city : string;
  r_country : string;
  r_state : string;
  r_aqi_us : option Z;
  r_main_pollutant : option string;
  r_weather : json;
  r_daily_aqi_summary : list DailyAqiEntry
}.

(** The dictionary [get_air_quality_data] returns. *)
Inductive FetchResult : Type :=
| Success (r : AirQuality)
| Failure (error : ErrorValue).

(** What the program reads from outside: the response (or the exception) of
    the n-th call of [requests.get], and the UTC date of the clock. *)
Record Env : Type := mkEnv {
  requests_get : nat -> result Response;
  utc_date : string
}.

(** What the program does to the outside: the requests it has sent and the
    durations it has slept, oldest first. *)
Record World : Type := mkWorld {
  requests_made : nat;
  slept : list Z
}.

Definition world0 : World := mkWorld 0 [].

(** The longest delay, in seconds, that [time.sleep] takes: beyond it the
    number of nanoseconds does not fit the 64 bits of CPython's clock. *)
Definition sleep_max : Z := 9223372036.

(** [time.sleep(d)] for an [int] [d]: the delay is turned into nanoseconds
    first, which fails beyond [sleep_max] on either side of 0, and is refused
    then when it is negative. *)
Definition sleep (d : Z) (w : World) : result World :=
  if (d <? - sleep_max) || (sleep_max <? d)
  then Raise (OverflowError "timestamp too large to convert to C _PyTime_t")
  else if d <? 0 then Raise (ValueError "sleep length must be non-negative")
  else Ok (mkWorld (requests_made w) (slept w ++ [d])).

(** [data and data.get("status") == "success"] *)
Definition is_success (data : Payload) : result bool :=
  match data with
  | PayloadObject (Some s) _ => Ok (String.eqb s "success")
  | PayloadObject None _ => Ok false
  | PayloadOther j => if truthy j then Raise (no_get j) else Ok false
  end.

(** The success branch, lines 287 to 343.  It is entered after
    [is_success] has returned [True], that is on an object, so its first
    case is never reached. *)
Definition build_success (env : Env) (city state country : string)
    (data : Payload) : result FetchResult :=
  match data with
  | PayloadOther j => Raise (TypeError ("'" ++ type_name j ++ "' object is not subscriptable"))
  | PayloadObject _ None => Raise (KeyError "data")
  | PayloadObject _ (Some (DataOther j)) => Raise (no_get j)
  | PayloadObject _ (Some (DataObject city_data)) =>
      let current_pollution :=
        match cd_current city_data with
        | Some current_data => c_pollution current_data
        | None => None
        end in
      let aqi_us :=
        match current_pollution with Some p => cp_aqius p | None => None end in
      let main_pollutant :=
        match current_pollution with Some p => cp_mainus p | None => None end in
      let weather :=
        match cd_current city_data with
        | Some current_data =>
            match c_weather current_data with Some w => w | None => JObject [] end
        | None => JObject []
        end in
      sorted_daily_aqi <-
        daily_aqi_summary (cd_history city_data) (cd_forecast city_data)
          aqi_us (utc_date env) ;;
      Ok (Success (mkAirQuality city country state aqi_us main_pollutant
                     weather sorted_daily_aqi))
  end.

(** How one turn of the retry loop ends. *)
Inductive Step : Type :=
| Return (r : FetchResult)     (* [return ...] *)
| Continue (initial_delay : Z)  (* [continue], with the doubled delay *)
| Propagate (e : exn).          (* an exception leaves the function *)

(** The [try] block of one attempt.  It either completes the turn or raises;
    the world it leaves behind is the same in both cases. *)
Definition try_block (env : Env) (city state country : string)
    (initial_delay : Z) (w : World) : result Step * World :=
  let w1 := mkWorld (S (requests_made w)) (slept w) in
  match requests_get env (requests_made w) with
  | Raise e => (Raise e, w1)
  | Ok response =>
      match raise_for_status response with
      | Some msg => (Raise (HTTPError (status_code response) msg), w1)
      | None =>
          match json_body response with
          | Raise e => (Raise e, w1)
          | Ok data =>
              match is_success data with
              | Raise e => (Raise e, w1)
              | Ok true =>
                  match build_success env city state country data with
                  | Raise e => (Raise e, w1)
                  | Ok r => (Ok (Return r), w1)
                  end
              | Ok false =>
                  if status_code response =? 429 then
                    match sleep initial_delay w1 with
                    | Raise e => (Raise e, w1)
                    | Ok w2 => (Ok (Continue (initial_delay * 2)), w2)
                    end
                  else
                    match data with
                    | PayloadObject _ (Some d) => (Ok (Return (Failure (ErrorData d))), w1)
                    | PayloadObject _ None =>
                        (Ok (Return (Failure (ErrorText
                           ("City data not available. Status: "
                              ++ str_int (status_code response))))), w1)
                    | PayloadOther j => (Raise (no_get j), w1)
                    end
              end
          end
      end
  end.

(** One turn of the loop: the [try] block and its three [except] clauses. *)
Definition attempt_once (env : Env) (city state country : string)
    (initial_delay : Z) (w : World) : Step * World :=
  match try_block env city state country initial_delay w with
  | (Ok step, w') => (step, w')
  | (Raise (HTTPError code msg), w') =>
      if code =? 429 then
        match sleep initial_delay w' with
        | Raise e => (Propagate e, w')
        | Ok w'' => (Continue (initial_delay * 2), w'')
        end
      else (Return (Failure (ErrorText ("API HTTP Error: " ++ msg))), w')
  | (Raise (RequestException msg), w') =>
      (Return (Failure (ErrorText ("API Request Error: " ++ msg))), w')
  | (Raise e, w') =>
      (Return (Failure (ErrorText ("An unexpected error occurred: " ++ str_exn e))), w')
  end.

(** What a call of the function amounts to: a returned dictionary or an
    exception that reaches the caller. *)
Inductive Outcome : Type :=
| Returned (r : FetchResult)
| Raised (e : exn).

(** [for attempt in range(max_retries)], with [n] turns left. *)
Fixpoint retry_loop (env : Env) (city state country : string) (max_retries : Z)
    (n : nat) (initial_delay : Z) (w : World) : Outcome * World :=
  match n with
  | O =>
      (Returned (Failure (ErrorText
         ("Failed to retrieve data for " ++ city ++ " after "
            ++ str_int max_retries ++ " attempts due to rate limiting."))), w)
  | S n' =>
      match attempt_once env city state country initial_delay w with
      | (Return r, w') => (Returned r, w')
      | (Propagate e, w') => (Raised e, w')
      | (Continue initial_delay', w') =>
          retry_loop env city state country max_retries n' initial_delay' w'
      end
  end.

Definition get_air_quality_data (env : Env) (city state country : string)
    (max_retries : Z) (initial_delay : Z) (w : World) : Outcome * World :=
  retry_loop env city state country max_retries (Z.to_nat max_retries)
    initial_delay w.

(* ===================================================================== *)
(** * The city catalog *)
(* ===================================================================== *)

(** What the program takes from Python's Unicode support: [str.lower] and
    [len], the number of characters of a string.  The statements below hold
    for any two such functions. *)
Class Unicode : Type := {
  lower : string -> string;
  len : string -> nat
}.

(** One object of [cities_database.json]. *)
Record CityRecord : Type := mkCityRecord {
  city : string;
  state : string;
  country : string;
  search_string : string
}.

(** The file [CITIES_DB_FILE]: missing, not decodable as JSON, or holding a
    list of records. *)
Inductive DbFile : Type :=
| FileMissing
| FileCorrupt
| FileJson (cities_db : list CityRecord).

Definition load_cities_database (file : DbFile) : list CityRecord :=
  match file with
  | FileJson cities_db => cities_db
  | FileCorrupt => []
  | FileMissing => []
  end.

Definition save_cities_database (cities_db : list CityRecord) (file : DbFile)
  : DbFile :=
  FileJson cities_db.

(** The test of [any(...)] in [add_city_to_database]. *)
Definition same_city `{Unicode} (city' state' country' : string)
    (c : CityRecord) : bool :=
  String.eqb (lower (city c)) (lower city') &&
  String.eqb (lower (state c)) (lower state') &&
  String.eqb (lower (country c)) (lower country').

Definition add_city_to_database `{Unicode} (city' state' country' : string)
    (file : DbFile) : DbFile :=
  let cities_db := load_cities_database file in
  let city_entry :=
    mkCityRecord city' state' country'
      (lower (city' ++ ", " ++ state' ++ ", " ++ country')) in
  let exists_ := existsb (same_city city' state' country') cities_db in
  if negb exists_ then save_cities_database (cities_db ++ [city_entry]) file
  else file.

(* ===================================================================== *)
(** * The fuzzy matcher *)
(* ===================================================================== *)

(** What the program takes from [difflib]: the matching blocks
    [(i, j, n)] that [SequenceMatcher(None, a, b).get_matching_blocks()]
    finds.  The statements below hold for any such function;
    [SequenceMatcher] further down is the library's algorithm. *)
Class Difflib : Type := {
  get_matching_blocks : string -> string -> list (nat * nat * nat)
}.

(** [SequenceMatcher(None, a, b).ratio()]: [2.0 * matches / length] in
    floats, and [1.0] when both strings are empty. *)
Definition ratio `{Unicode} `{Difflib} (a b : string) : Q :=
  let matches := fold_right (fun triple acc => (snd triple + acc)%nat) 0%nat
                   (get_matching_blocks a b) in
  let length := (len a + len b)%nat in
  match length with
  | O => 1
  | S _ => float_div (float_mul 2 (float_of_int (Z.of_nat matches)))
                     (float_of_int (Z.of_nat length))
  end.

Definition similarity_score `{Unicode} `{Difflib} (a b : string) : Q :=
  ratio (lower a) (lower b).

(** The body of the scoring loop of [find_best_matches]; [0.8] is the
    float nearest to 8/10. *)
Definition score `{Unicode} `{Difflib} (query : string) (city_entry : CityRecord) : Q :=
  let query_lower := lower query in
  if startswith (lower (city city_entry)) query_lower then
    float_add 1 (similarity_score query (city city_entry))
  else if contains (search_string city_entry) query_lower then
    float_add (nearest_float (8 # 10)) (similarity_score query (search_string city_entry))
  else
    similarity_score query (search_string city_entry).

Definition find_best_matches `{Unicode} `{Difflib} (file : DbFile)
    (query : string) (limit : Z) : list CityRecord :=
  let cities_db := load_cities_database file in
  match cities_db with
  | [] => []
  | _ =>
      let scored_cities := map (fun city_entry => (score query city_entry, city_entry))
                             cities_db in
      let scored_cities := sort_reverse fst scored_cities in
      map snd (filter (fun x => Qltb (nearest_float (3 # 10)) (fst x))
                 (slice_to scored_cities limit))
  end.

(* ===================================================================== *)
(** * Python's string functions on ASCII text *)
(* ===================================================================== *)

(** [str.lower] and [len] on strings of ASCII characters: the letters
    [A] to [Z] go to [a] to [z], and every byte is one character. *)
Definition lower_ascii (c : ascii) : ascii :=
  let n := nat_of_ascii c in
  if (65 <=? n)%nat && (n <=? 90)%nat then ascii_of_nat (n + 32) else c.

Fixpoint ascii_lower (s : string) : string :=
  match s with
  | EmptyString => EmptyString
  | String c s' => String (lower_ascii c) (ascii_lower s')
  end.

Definition ascii_unicode : Unicode :=
  {| lower := ascii_lower; len := String.length |}.

(** [difflib.SequenceMatcher(None, a, b)], with [autojunk] on as it is by
    default, on sequences of characters. *)
Module SequenceMatcher.

Local Open Scope nat_scope.

Definition Match : Type := nat * nat * nat.

(** The indices of [c] in [b], from [j] on. *)
Fixpoint positions (b : list ascii) (c : ascii) (j : nat) : list nat :=
  match b with
  | [] => []
  | x :: b' => if Ascii.eqb x c then j :: positions b' c (S j)
               else positions b' c (S j)
  end.

(** [c in bpopular]: in a [b] of 200 elements or more, an element that
    occurs more than [len(b) // 100 + 1] times. *)
Definition popular (b : list ascii) (c : ascii) : bool :=
  let n := List.length b in
  (200 <=? n) && (n / 100 + 1 <? List.length (positions b c 0)).

(** [b2j.get(c, [])] *)
Definition b2j (b : list ascii) (c : ascii) : list nat :=
  if popular b c then [] else positions b c 0.

(** [j2len.get(j, 0)] *)
Definition j2len_get (j2len : list (nat * nat)) (j : nat) : nat :=
  match find (fun p => fst p =? j) j2len with
  | Some p => snd p
  | None => 0
  end.

(** The loop over [j] of [find_longest_match], for one [i]. *)
Fixpoint inner_loop (js : list nat) (i blo bhi : nat)
    (j2len newj2len : list (nat * nat)) (best : Match)
  : list (nat * nat) * Match :=
  match js with
  | [] => (newj2len, best)
  | j :: js' =>
      if j <? blo then inner_loop js' i blo bhi j2len newj2len best
      else if bhi <=? j then (newj2len, best)
      else
        let k := match j with O => 0 | S j' => j2len_get j2len j' end + 1 in
        let '(_, _, bestsize) := best in
        inner_loop js' i blo bhi j2len ((j, k) :: newj2len)
          (if bestsize <? k then (i + 1 - k, j + 1 - k, k) else best)
  end.

(** The two loops that extend the best match over elements that are not
    junk; no element is junk without an [isjunk] function, so the loops over
    junk elements never run. *)
Fixpoint extend_left (fuel : nat) (a b : list ascii) (alo blo : nat) (best : Match)
  : Match :=
  match fuel with
  | O => best
  | S fuel' =>
      let '(besti, bestj, bestsize) := best in
      if (alo <? besti) && (blo <? bestj)
         && Ascii.eqb (nth (besti - 1) a zero) (nth (bestj - 1) b zero)
      then extend_left fuel' a b alo blo (besti - 1, bestj - 1, bestsize + 1)
      else best
  end.

Fixpoint extend_right (fuel : nat) (a b : list ascii) (ahi bhi : nat) (best : Match)
  : Match :=
  match fuel with
  | O => best
  | S fuel' =>
      let '(besti, bestj, bestsize) := best in
      if (besti + bestsize <? ahi) && (bestj + bestsize <? bhi)
         && Ascii.eqb (nth (besti + bestsize) a zero) (nth (bestj + bestsize) b zero)
      then extend_right fuel' a b ahi bhi (besti, bestj, bestsize + 1)
      else best
  end.

Definition find_longest_match (a b : list ascii) (alo ahi blo bhi : nat) : Match :=
  let '(_, best) :=
    fold_left
      (fun (st : list (nat * nat) * Match) i =>
         let '(j2len, best) := st in
         inner_loop (b2j b (nth i a zero)) i blo bhi j2len [] best)
      (seq alo (ahi - alo)) ([], (alo, blo, 0)) in
  let best := extend_left (List.length a) a b alo blo best in
  extend_right (List.length a) a b ahi bhi best.

(** The [while queue] loop of [get_matching_blocks]; the head of [queue] is
    the element [queue.pop()] takes.  Every turn either adds a block or
    empties a range, so [2 * len(a) + 1] turns are enough. *)
Fixpoint blocks_loop (fuel : nat) (a b : list ascii)
    (queue : list (nat * nat * nat * nat)) (matching_blocks : list Match)
  : list Match :=
  match fuel with
  | O => matching_blocks
  | S fuel' =>
      match queue with
      | [] => matching_blocks
      | (alo, ahi, blo, bhi) :: queue' =>
          let '(i, j, k) := find_longest_match a b alo ahi blo bhi in
          if k =? 0 then blocks_loop fuel' a b queue' matching_blocks
          else
            let queue1 := if (alo <? i) && (blo <? j)
                          then (alo, i, blo, j) :: queue' else queue' in
            let queue2 := if (i + k <? ahi) && (j + k <? bhi)
                          then (i + k, ahi, j + k, bhi) :: queue1 else queue1 in
            blocks_loop fuel' a b queue2 (matching_blocks ++ [(i, j, k)])
      end
  end.

(** [x < y] on triples *)
Definition match_lt (x y : Match) : bool :=
  let '(i1, j1, k1) := x in
  let '(i2, j2, k2) := y in
  (i1 <? i2) || ((i1 =? i2) && ((j1 <? j2) || ((j1 =? j2) && (k1 <? k2)))).

(** [matching_blocks.sort()] *)
Fixpoint insert_match (x : Match) (l : list Match) : list Match :=
  match l with
  | [] => [x]
  | y :: l' => if match_lt y x then y :: insert_match x l' else x :: l
  end.

(** The loop that joins adjacent blocks; [cur] is [(i1, j1, k1)]. *)
Fixpoint collapse (blocks : list Match) (cur : Match) : list Match :=
  let '(i1, j1, k1) := cur in
  match blocks with
  | [] => if k1 =? 0 then [] else [cur]
  | (i2, j2, k2) :: blocks' =>
      if (i1 + k1 =? i2) && (j1 + k1 =? j2) then collapse blocks' (i1, j1, k1 + k2)
      else (if k1 =? 0 then [] else [cur]) ++ collapse blocks' (i2, j2, k2)
  end.

Definition matching_blocks (a b : list ascii) : list Match :=
  let la := List.length a in
  let lb := List.length b in
  let blocks := blocks_loop (2 * la + 1) a b [(0, la, 0, lb)] [] in
  let blocks := fold_right insert_match [] blocks in
  collapse blocks (0, 0, 0) ++ [(la, lb, 0)].

End SequenceMatcher.

Definition ascii_difflib : Difflib :=
  {| get_matching_blocks a b :=
       SequenceMatcher.matching_blocks (list_ascii_of_string a) (list_ascii_of_string b) |}.

(* ===================================================================== *)
(** * The vocabulary of the statements *)
(* ===================================================================== *)

(** A list is a prefix of another one. *)
Definition prefix_of {A : Type} (l1 l2 : list A) : Prop := exists t, l2 = (l1 ++ t)%list.

(** [m] is an integer nearest to [s / c], and the even one of the two when
    [s / c] lies half-way: [|m - s/c| <= 1/2], stated without division. *)
Definition nearest_even (s c m : Z) : Prop :=
  2 * Z.abs (m * c - s) <= c /\
  (2 * Z.abs (m * c - s) = c -> Z.even m = true).

(** [m] is what [round] returns for the float [x]. *)
Definition near (x : Q) (m : Z) : Prop :=
  (Qabs (inject_Z m - x) <= 1 # 2)%Q /\
  ((Qabs (inject_Z m - x) == 1 # 2)%Q -> Z.even m = true).

(** The dates of the (timestamp, reading) pairs, in order. *)
Definition dates_of (pairs : list (string * option Z)) : list string :=
  map (fun p => split_T_0 (fst p)) pairs.

(** The readings of the pairs whose timestamp falls on date [d]. *)
Definition readings_on (d : string) (pairs : list (string * option Z)) : list Z :=
  flat_map (fun p => if String.eqb (split_T_0 (fst p)) d
                     then match snd p with Some a => [a] | None => [] end
                     else []) pairs.

Definition total (l : list Z) : Z := fold_right Z.add 0 l.

Definition count (l : list Z) : Z := Z.of_nat (List.length l).

Definition all_numbers (pairs : list (string * option Z)) : Prop :=
  Forall (fun p => snd p <> None) pairs.

(** The sizes of the readings, added up.  Below [2^52] the sum of the
    readings of a day is an integer that the float quotient stays close
    enough to. *)
Definition magnitude (pairs : list (string * option Z)) : Z :=
  fold_right (fun p acc => match snd p with
                           | Some a => Z.abs a + acc
                           | None => acc
                           end) 0 pairs.

(** What the loop has accumulated when it ends without raising. *)
Record accumulated (acc acc' : dict Z * dict Z)
    (pairs : list (string * option Z)) : Prop := {
  acc_sums : forall d, get_default (fst acc') d 0 =
                       get_default (fst acc) d 0 + total (readings_on d pairs);
  acc_counts : forall d, get_default (snd acc') d 0 =
                         get_default (snd acc) d 0 + count (readings_on d pairs);
  acc_keys_sums : forall d, In d (keys (fst acc')) <->
                            In d (keys (fst acc)) \/ In d (dates_of pairs);
  acc_keys_counts : forall d, In d (keys (snd acc')) <->
                              In d (keys (snd acc)) \/ In d (dates_of pairs);
  acc_nodup : NoDup (keys (fst acc)) -> NoDup (keys (fst acc'))
}.

(** The entry of date [d] that the second loop builds from the two
    dictionaries. *)
Definition average_entry (sums counts : dict Z) (d : string) : DailyAqiEntry :=
  mkEntry d ("Avg. AQI (" ++ d ++ ")")
    (Some (round_float (nearest_float (inject_Z (get_default sums d 0) /
                                       inject_Z (get_default counts d 0))))).

(** The function on the two arrays, once the guards have passed. *)
Definition history_of (ts : list string) (aqius : list (option Z)) : option History :=
  Some (mkHistory (Some (mkHistoryPollution (Some ts) (Some aqius)))).

Definition on_date (d : string) (e : DailyAqiEntry) : bool := String.eqb (date e) d.

(** Every entry sits under its own date, and no date occurs twice. *)
Definition keyed (d : dict DailyAqiEntry) : Prop :=
  NoDup (keys d) /\ Forall (fun kv => date (snd kv) = fst kv) d.

(** The entry of date [k] in the series, by source priority. *)
Definition entry_by_priority (history_averages forecast_aqis : list DailyAqiEntry)
    (k : string) : list DailyAqiEntry :=
  match find (on_date k) history_averages with
  | Some e => [e]
  | None => match find (on_date k) forecast_aqis with
            | Some e => [e]
            | None => []
            end
  end.

(** The dates of the combined series go strictly up. *)
Definition strictly_ascending (series : list DailyAqiEntry) : Prop :=
  StronglySorted (fun a b => str_lt (date a) (date b) = true) series.

(** A success result carries a combined series. *)
Definition summary_is_combined (env : Env) (r : AirQuality) : Prop :=
  exists history_averages forecast_aqis,
    r_daily_aqi_summary r =
      combine_daily_aqi history_averages forecast_aqis (r_aqi_us r) (utc_date env).

(** The remote answers a request with a 429: raised by
    [raise_for_status], or left as the status of a response whose payload is
    read and is not a success payload. *)
Inductive rate_limited : result Response -> Prop :=
| rate_limited_raised (response : Response) (msg : string) :
    status_code response = 429 ->
    raise_for_status response = Some msg ->
    rate_limited (Ok response)
| rate_limited_status (response : Response) (data : Payload) :
    status_code response = 429 ->
    raise_for_status response = None ->
    json_body response = Ok data ->
    is_success data = Ok false ->
    rate_limited (Ok response).

(** The remote answers a request with a payload the program turns into the
    success result [r]. *)
Definition succeeds (env : Env) (city state country : string)
    (o : result Response) (r : AirQuality) : Prop :=
  exists response data,
    o = Ok response /\
    raise_for_status response = None /\
    json_body response = Ok data /\
    is_success data = Ok true /\
    build_success env city state country data = Ok (Success r).

(** The sleeps of [n] retries in a row: [d], [2 d], [4 d], ... *)
Fixpoint backoff (n : nat) (d : Z) : list Z :=
  match n with
  | O => []
  | S n' => d :: backoff n' (d * 2)
  end.

(** A delay that [time.sleep] takes. *)
Definition sleepable (d : Z) : Prop := 0 <= d <= sleep_max.

Definition after (w : World) (requests : nat) (sleeps : list Z) : World :=
  mkWorld (requests_made w + requests) (slept w ++ sleeps).

Definition exhausted (city : string) (max_retries : Z) : FetchResult :=
  Failure (ErrorText ("Failed to retrieve data for " ++ city ++ " after "
                        ++ str_int max_retries ++ " attempts due to rate limiting.")).

Definition is_429 (e : exn) : bool :=
  match e with
  | HTTPError code _ => code =? 429
  | _ => false
  end.

(** The remote answers a request with a failure other than a 429. *)
Inductive fails_without_429 (env : Env) (city state country : string)
  : result Response -> Prop :=
| fails_payload_status (response : Response) (data : Payload) :
    (* the payload's status is not "success" *)
    raise_for_status response = None ->
    json_body response = Ok data ->
    is_success data = Ok false ->
    status_code response <> 429 ->
    fails_without_429 env city state country (Ok response)
| fails_http_error (response : Response) (msg : string) :
    (* an HTTP error other than 429 *)
    raise_for_status response = Some msg ->
    status_code response <> 429 ->
    fails_without_429 env city state country (Ok response)
| fails_network (msg : string) :
    (* a connection error, a timeout *)
    fails_without_429 env city state country (Raise (RequestException msg))
| fails_unexpected_request (e : exn) :
    (* any other exception of the request *)
    is_429 e = false ->
    fails_without_429 env city state country (Raise e)
| fails_unexpected_json (response : Response) (e : exn) :
    (* [response.json()] raises *)
    raise_for_status response = None ->
    json_body response = Raise e ->
    is_429 e = false ->
    fails_without_429 env city state country (Ok response)
| fails_unexpected_payload (response : Response) (data : Payload) (e : exn) :
    (* the payload is not an object *)
    raise_for_status response = None ->
    json_body response = Ok data ->
    is_success data = Raise e ->
    fails_without_429 env city state country (Ok response)
| fails_unexpected_processing (response : Response) (data : Payload) (e : exn) :
    (* building the success result raises *)
    raise_for_status response = None ->
    json_body response = Ok data ->
    is_success data = Ok true ->
    build_success env city state country data = Raise e ->
    fails_without_429 env city state country (Ok response).

(** The record [add_city_to_database] builds. *)
Definition new_entry `{Unicode} (city' state' country' : string) : CityRecord :=
  mkCityRecord city' state' country'
    (lower (city' ++ ", " ++ state' ++ ", " ++ country')).

(** The records of the catalog that are the given city, case apart. *)
Definition matching `{Unicode} (city' state' country' : string)
    (cities_db : list CityRecord) : list CityRecord :=
  filter (same_city city' state' country') cities_db.

(** The number of matched characters: the sizes of the matching blocks,
    added up. *)
Definition matches `{Difflib} (a b : string) : nat :=
  fold_right (fun triple acc => (snd triple + acc)%nat) 0%nat (get_matching_blocks a b).

(** [a] may stand before [b] in a list sorted by [key]: the key of [b] is
    not below the key of [a]. *)
Definition asc {A : Type} (key : A -> string) (a b : A) : Prop :=
  str_lt (key b) (key a) = false.

(** [a] may stand before [b] in a list sorted by [key] in reverse. *)
Definition desc {A : Type} (key : A -> Q) (a b : A) : Prop := (key b <= key a)%Q.

(** The key of [x] is [v]. *)
Definition has_key {A : Type} (key : A -> Q) (v : Q) (x : A) : bool :=
  Qeq_bool (key x) v.

(** The list [scored_cities] before it is sorted. *)
Definition scored `{Unicode} `{Difflib} (query : string)
    (cities_db : list CityRecord) : list (Q * CityRecord) :=
  map (fun city_entry => (score query city_entry, city_entry)) cities_db.

(** The filter of the last line of [find_best_matches]: a score above 0.3. *)
Definition good (x : Q * CityRecord) : bool := Qltb (nearest_float (3 # 10)) (fst x).

(** A pair holds the score of its record. *)
Definition scored_pair `{Unicode} `{Difflib} (query : string)
    (x : Q * CityRecord) : Prop :=
  fst x = score query (snd x).

(** The records of one score value, in the order of the list. *)
Definition with_score `{Unicode} `{Difflib} (query : string) (v : Q)
    (l : list CityRecord) : list CityRecord :=
  filter (fun c => Qeq_bool (score query c) v) l.

(* ===================================================================== *)
(** * Inputs the statements are run on *)
(* ===================================================================== *)

(** A history of four timestamps and five readings, the last one [null]. *)
Definition ex_ts : list string :=
  ["2024-05-02T10:00:00.000Z"; "2024-05-01T23:00:00.000Z";
   "2024-05-02T11:00:00.000Z"; "2024-05-03T00:00:00.000Z"].

Definition ex_aqius : list (option Z) :=
  [Some 41; Some 30; Some 42; Some 7; None].

Definition ex_averages : list DailyAqiEntry :=
  [mkEntry "2024-05-01" "Avg. AQI (2024-05-01)" (Some 30);
   mkEntry "2024-05-02" "Avg. AQI (2024-05-02)" (Some 42);
   mkEntry "2024-05-03" "Avg. AQI (2024-05-03)" (Some 7)].

(** A forecast of three entries, two of them for the same day. *)
Definition ex_forecast : option Forecast :=
  Some (mkForecast (Some
    [mkForecastDay (Some "2024-05-03T00:00:00.000Z") (Some 50);
     mkForecastDay (Some "2024-05-04T00:00:00.000Z") None;
     mkForecastDay (Some "2024-05-04T12:00:00.000Z") (Some 61)])).

Definition ex_forecast_aqis : list DailyAqiEntry :=
  [mkEntry "2024-05-03" "Forecast AQI (2024-05-03)" (Some 50);
   mkEntry "2024-05-04" "Forecast AQI (2024-05-04)" None;
   mkEntry "2024-05-04" "Forecast AQI (2024-05-04)" (Some 61)].

(** The series of the two with a current AQI of 42 on 2024-05-03. *)
Definition ex_series : list DailyAqiEntry :=
  [mkEntry "2024-05-01" "Avg. AQI (2024-05-01)" (Some 30);
   mkEntry "2024-05-02" "Avg. AQI (2024-05-02)" (Some 42);
   mkEntry "2024-05-03" "Current AQI" (Some 42);
   mkEntry "2024-05-04" "Forecast AQI (2024-05-04)" None].

(** A forecast that holds today only. *)
Definition ex_today_forecast : option Forecast :=
  Some (mkForecast (Some
    [mkForecastDay (Some "2024-05-02T00:00:00.000Z") (Some 50)])).

(** Responses of the remote: a 429 left as a status, a 429 raised, a server
    error, and a city payload. *)
Definition too_many_status : Response :=
  mkResponse 429 None
    (Ok (PayloadObject (Some "fail") (Some (DataOther (JString "too_many_requests"))))).

Definition too_many_raised : Response :=
  mkResponse 429 (Some "429 Client Error: Too Many Requests") (Ok (PayloadOther JNull)).

Definition server_error : Response :=
  mkResponse 500 (Some "500 Server Error: Internal Server Error")
    (Ok (PayloadOther JNull)).

Definition ex_city_data : CityData :=
  mkCityData
    (Some (mkCurrent (Some (mkCurrentPollution (Some 42) (Some "p2")))
                     (Some (JObject [("tp", JInt 21)]))))
    (history_of ex_ts ex_aqius) ex_forecast.

Definition ex_payload : Payload :=
  PayloadObject (Some "success") (Some (DataObject ex_city_data)).

Definition city_response : Response := mkResponse 200 None (Ok ex_payload).

(** Remotes: 429, 429, then the payload; 429 for ever; unreachable; 429 and
    then a server error. *)
Definition ex_env : Env :=
  mkEnv (fun n => match n with
                  | O => Ok too_many_status
                  | S O => Ok too_many_raised
                  | _ => Ok city_response
                  end) "2024-05-03".

Definition busy_env : Env := mkEnv (fun _ => Ok too_many_raised) "2024-05-03".

Definition down_env : Env :=
  mkEnv (fun _ => Raise (RequestException "Connection refused")) "2024-05-03".

Definition failing_env : Env :=
  mkEnv (fun n => match n with
                  | O => Ok too_many_raised
                  | _ => Ok server_error
                  end) "2024-05-03".

Definition ex_result : AirQuality :=
  mkAirQuality "Springfield" "USA" "Illinois" (Some 42) (Some "p2")
    (JObject [("tp", JInt 21)]) ex_series.

(** A catalog of five cities. *)
Definition boston : CityRecord :=
  mkCityRecord "Boston" "Massachusetts" "USA" "boston, massachusetts, usa".

Definition springfield_il : CityRecord :=
  mkCityRecord "Springfield" "Illinois" "USA" "springfield, illinois, usa".

Definition hot_springs : CityRecord :=
  mkCityRecord "Hot Springs" "Arkansas" "USA" "hot springs, arkansas, usa".

Definition springfield_mo : CityRecord :=
  mkCityRecord "Springfield" "Missouri" "USA" "springfield, missouri, usa".

Definition spring_hill : CityRecord :=
  mkCityRecord "Spring Hill" "Florida" "USA" "spring hill, florida, usa".

Definition ex_db : DbFile :=
  FileJson [boston; springfield_il; hot_springs; springfield_mo; spring_hill].

(** The matcher and the catalog on ASCII text. *)
Definition ascii_score : string -> CityRecord -> Q :=
  @score ascii_unicode ascii_difflib.

Definition ascii_similarity : string -> string -> Q :=
  @similarity_score ascii_unicode ascii_difflib.

Definition ascii_find_best_matches : DbFile -> string -> Z -> list CityRecord :=
  @find_best_matches ascii_unicode ascii_difflib.

Definition ascii_add_city : string -> string -> string -> DbFile -> DbFile :=
  @add_city_to_database ascii_unicode.

(* ===================================================================== *)
(** * The HTTP layer *)
(* ===================================================================== *)

(** [request.args]: the parameters of the query string. *)
Definition Args : Type := dict string.

(** [bool(s)] for a [str] *)
Definition nonempty (s : string) : bool := negb (String.eqb s "").

(** [autocomplete]: the list under ["suggestions"] of the response. *)
Definition autocomplete `{Unicode} `{Difflib} (args : Args) (file : DbFile)
  : list CityRecord :=
  let query := get_default args "query" "" in
  if (len query <? 3)%nat then [] else find_best_matches file query 5.

(** [city_resume]: the body and the status of the response, or the
    exception that leaves the handler. *)
Definition city_resume (args : Args) (env : Env) (w : World)
  : result (FetchResult * Z) * World :=
  match get args "city", get args "state", get args "country" with
  | Some city, Some state, Some country =>
      if nonempty city && nonempty state && nonempty country then
        match get_air_quality_data env city state country 3 1 w with
        | (Returned data, w') => (Ok (data, 200), w')
        | (Raised e, w') => (Raise e, w')
        end
      else (Ok (Failure (ErrorText "City, state, and country are required."), 400), w)
  | _, _, _ =>
      (Ok (Failure (ErrorText "City, state, and country are required."), 400), w)
  end.

(** The body of the response of [compare_cities]. *)
Record Comparison : Type := mkComparison {
  city1 : FetchResult;
  city2 : FetchResult;
  conclusion : option string
}.

Inductive CompareBody : Type :=
| CompareRefused (error : FetchResult)
| Compared (comparison_result : Comparison).

(** [type(a).__name__] for the value under ["aqi_us"] *)
Definition aqi_type (a : option Z) : string :=
  match a with Some _ => "int" | None => "NoneType" end.

(** [a < b] and [a > b] on two such values *)
Definition aqi_lt (a b : option Z) : result bool :=
  match a, b with
  | Some x, Some y => Ok (x <? y)
  | _, _ => Raise (TypeError ("'<' not supported between instances of '"
                                ++ aqi_type a ++ "' and '" ++ aqi_type b ++ "'"))
  end.

Definition aqi_gt (a b : option Z) : result bool :=
  match a, b with
  | Some x, Some y => Ok (y <? x)
  | _, _ => Raise (TypeError ("'>' not supported between instances of '"
                                ++ aqi_type a ++ "' and '" ++ aqi_type b ++ "'"))
  end.

(** [str(a)] for such a value *)
Definition str_aqi (a : option Z) : string :=
  match a with Some x => str_int x | None => "None" end.

(** Lines 421 to 431: the conclusion, when both results are successes. *)
Definition conclude (c1_city c2_city : string) (data1 data2 : FetchResult)
  : result (option string) :=
  match data1, data2 with
  | Success r1, Success r2 =>
      let aqi1 := r_aqi_us r1 in
      let aqi2 := r_aqi_us r2 in
      lt <- aqi_lt aqi1 aqi2 ;;
      if lt then
        Ok (Some (c1_city ++ " has better air quality (lower Current AQI) than "
                    ++ c2_city ++ "."))
      else
        gt <- aqi_gt aqi1 aqi2 ;;
        if gt then
          Ok (Some (c2_city ++ " has better air quality (lower Current AQI) than "
                      ++ c1_city ++ "."))
        else
          Ok (Some ("Both cities have the same Current AQI (" ++ str_aqi aqi1 ++ ")."))
  | _, _ => Ok None
  end.

Definition compare_refusal : FetchResult :=
  Failure (ErrorText "All city, state, and country fields for both cities are required.").

Definition compare_cities (args : Args) (env : Env) (w : World)
  : result (CompareBody * Z) * World :=
  match get args "c1_city", get args "c1_state", get args "c1_country",
        get args "c2_city", get args "c2_state", get args "c2_country" with
  | Some c1_city, Some c1_state, Some c1_country,
    Some c2_city, Some c2_state, Some c2_country =>
      if nonempty c1_city && nonempty c1_state && nonempty c1_country
         && nonempty c2_city && nonempty c2_state && nonempty c2_country then
        match get_air_quality_data env c1_city c1_state c1_country 3 1 w with
        | (Raised e, w1) => (Raise e, w1)
        | (Returned data1, w1) =>
            match get_air_quality_data env c2_city c2_state c2_country 3 1 w1 with
            | (Raised e, w2) => (Raise e, w2)
            | (Returned data2, w2) =>
                match conclude c1_city c2_city data1 data2 with
                | Raise e => (Raise e, w2)
                | Ok c => (Ok (Compared (mkComparison data1 data2 c), 200), w2)
                end
            end
        end
      else (Ok (CompareRefused compare_refusal, 400), w)
  | _, _, _, _, _, _ => (Ok (CompareRefused compare_refusal, 400), w)
  end.

(** The search string of a record is the one the program derives from its
    three names. *)
Definition derived `{Unicode} (c : CityRecord) : Prop :=
  search_string c = lower (city c ++ ", " ++ state c ++ ", " ++ country c).

(** The failure result of the last [except] clause. *)
Definition unexpected_text (e : exn) : FetchResult :=
  Failure (ErrorText ("An unexpected error occurred: " ++ str_exn e)).

(** [e] is neither an [HTTPError] nor another exception of [requests]. *)
Definition is_other_exception (e : exn) : bool :=
  match e with
  | HTTPError _ _ | RequestException _ => false
  | _ => true
  end.

(** The request has the parameter [k], and not as an empty string. *)
Definition given (args : Args) (k : string) : Prop :=
  exists s, get args k = Some s /\ s <> "".

(** The three parameters of [city_resume], the six of [compare_cities]. *)
Definition resume_parameters : list string := ["city"; "state"; "country"].

Definition compare_parameters : list string :=
  ["c1_city"; "c1_state"; "c1_country"; "c2_city"; "c2_state"; "c2_country"].

(** [all([...])] on the parameters [ks] of the request. *)
Definition all_given (args : Args) (ks : list string) : bool :=
  forallb (fun k => match get args k with Some s => nonempty s | None => false end) ks.

(** The parameter [k] of a request that has it. *)
Definition parameter (args : Args) (k : string) : string := get_default args k "".

(* ===================================================================== *)
(** * The first population of the catalog *)
(* ===================================================================== *)

(** A request to one of the two listing endpoints of the remote API. *)
Inductive Request : Type :=
| StatesRequest (country : string)
| CitiesRequest (state country : string).

(** What [response.json()] returns for such a request: an object with its
    ["status"] and, under ["data"] when it has that key, a list of objects,
    each read as the name it holds under the key the program asks for
    ([None] when it has no such key); or a JSON value that is no object.
    Payloads whose ["data"] is no list of objects, or whose names are no
    strings, are outside the model. *)
Inductive ListPayload : Type :=
| ListObject (status : option string) (data : option (list (option string)))
| ListOther (j : json).

Record ListResponse : Type := mkListResponse {
  l_status_code : Z;
  l_raise_for_status : option string;
  l_json : result ListPayload
}.

(** The remote: what [requests.get] returns, or raises, for the n-th request
    of a run. *)
Definition ListRemote : Type := nat -> Request -> result ListResponse.

(** What a run does, in order: the requests it sends and the seconds it
    sleeps. *)
Inductive Event : Type :=
| Sent (r : Request)
| Slept (seconds : Z).

Fixpoint requests_of (t : list Event) : list Request :=
  match t with
  | [] => []
  | Sent r :: t' => r :: requests_of t'
  | Slept _ :: t' => requests_of t'
  end.

(** The events so far, oldest first, and the file of the catalog. *)
Record Run : Type := mkRun {
  trace : list Event;
  db_file : DbFile
}.

(** [time.sleep(d)] for a [d] that is not negative *)
Definition nap (d : Z) (w : Run) : Run :=
  mkRun (trace w ++ [Slept d]) (db_file w).

(** [requests.get(...)] *)
Definition send (remote : ListRemote) (r : Request) (w : Run)
  : result ListResponse * Run :=
  (remote (List.length (requests_of (trace w))) r,
   mkRun (trace w ++ [Sent r]) (db_file w)).

(** [except requests.exceptions.RequestException] catches [e]. *)
Definition is_request_exception (e : exn) : bool :=
  match e with
  | HTTPError _ _ | RequestException _ => true
  | _ => false
  end.

(** [[s[key] for s in data]] *)
Fixpoint names_of (key : string) (data : list (option string)) : result (list string) :=
  match data with
  | [] => Ok []
  | None :: _ => Raise (KeyError key)
  | Some name :: data' => names <- names_of key data' ;; Ok (name :: names)
  end.

(** [data.get("status") == "success"], then the names under ["data"]. *)
Definition listed (key : string) (status : option string)
    (data : option (list (option string))) : option (result (list string)) :=
  match status with
  | Some s =>
      if String.eqb s "success"
      then Some (names_of key (match data with Some l => l | None => [] end))
      else None
  | None => None
  end.

(** How one turn of a retry loop ends. *)
Inductive Turn : Type :=
| Break (names : list string)  (* [break], with the names that were listed *)
| Next                          (* [continue] *)
| Abort (e : exn).              (* an exception leaves for the outer [try] *)

(** One turn of the loop that asks for the states: lines 83 to 108. *)
Definition states_turn (remote : ListRemote) (country : string) (w : Run)
  : Turn * Run :=
  let '(o, w1) := send remote (StatesRequest country) w in
  match o with
  | Raise e => if is_request_exception e then (Next, nap 60 w1) else (Abort e, w1)
  | Ok states_response =>
      if l_status_code states_response =? 429 then (Next, w1)
      else
        match l_raise_for_status states_response with
        | Some _ => (Next, nap 60 w1)
        | None =>
            match l_json states_response with
            | Raise e =>
                if is_request_exception e then (Next, nap 60 w1) else (Abort e, w1)
            | Ok (ListOther j) => (Abort (no_get j), w1)
            | Ok (ListObject status data) =>
                match listed "state" status data with
                | Some (Ok states) => (Break states, w1)
                | Some (Raise e) => (Abort e, w1)
                | None => (Next, nap 60 w1)
                end
            end
        end
  end.

(** [for attempt in range(max_retries)], with [n] turns left; [states] is
    the empty list when no turn breaks. *)
Fixpoint states_loop (remote : ListRemote) (country : string) (n attempt : nat)
    (w : Run) : result (list string) * Run :=
  match n with
  | O => (Ok [], w)
  | S n' =>
      let w0 := match attempt with O => w | S _ => nap 60 w end in
      match states_turn remote country w0 with
      | (Break states, w1) => (Ok states, w1)
      | (Next, w1) => states_loop remote country n' (S attempt) w1
      | (Abort e, w1) => (Raise e, w1)
      end
  end.

(** One turn of the loop that asks for the cities of a state: lines 126 to
    166.  A 400 breaks with no city. *)
Definition cities_turn (remote : ListRemote) (state country : string) (w : Run)
  : Turn * Run :=
  let '(o, w1) := send remote (CitiesRequest state country) w in
  match o with
  | Raise e => if is_request_exception e then (Next, nap 5 w1) else (Abort e, w1)
  | Ok cities_response =>
      if l_status_code cities_response =? 429 then (Next, w1)
      else if l_status_code cities_response =? 400 then (Break [], w1)
      else
        match l_raise_for_status cities_response with
        | Some _ => (Next, nap 5 w1)
        | None =>
            match l_json cities_response with
            | Raise e =>
                if is_request_exception e then (Next, nap 5 w1) else (Abort e, w1)
            | Ok (ListOther j) => (Abort (no_get j), w1)
            | Ok (ListObject status data) =>
                match listed "city" status data with
                | Some (Ok cities) => (Break cities, w1)
                | Some (Raise e) => (Abort e, w1)
                | None => (Next, nap 5 w1)
                end
            end
        end
  end.

Fixpoint cities_loop (remote : ListRemote) (state country : string) (n attempt : nat)
    (w : Run) : result (list string) * Run :=
  match n with
  | O => (Ok [], w)
  | S n' =>
      let w0 := match attempt with O => w | S _ => nap 60 w end in
      match cities_turn remote state country w0 with
      | (Break cities, w1) => (Ok cities, w1)
      | (Next, w1) => cities_loop remote state country n' (S attempt) w1
      | (Abort e, w1) => (Raise e, w1)
      end
  end.

(** The records appended for the cities of one state: lines 147 to 154. *)
Definition city_entries `{Unicode} (state country : string) (cities : list string)
  : list CityRecord :=
  map (fun city' =>
         mkCityRecord city' state country
           (lower (city' ++ ", " ++ state ++ ", " ++ country))) cities.

(** [for state in states]: the catalog collected so far, and the exception
    that ended the loop if one did. *)
Fixpoint states_cities `{Unicode} (remote : ListRemote) (country : string) (n : nat)
    (states : list string) (cities_db : list CityRecord) (w : Run)
  : option exn * list CityRecord * Run :=
  match states with
  | [] => (None, cities_db, w)
  | state :: states' =>
      match cities_loop remote state country n 0 (nap 60 w) with
      | (Ok cities, w1) =>
          states_cities remote country n states'
            (cities_db ++ city_entries state country cities) w1
      | (Raise e, w1) => (Some e, cities_db, w1)
      end
  end.

Definition save_run (cities_db : list CityRecord) (w : Run) : Run :=
  mkRun (trace w) (save_cities_database cities_db (db_file w)).

(** The function returns [None] on every path and lets no exception of the
    model out: what it does is the run it leaves. *)
Definition populate_initial_database `{Unicode} (remote : ListRemote)
    (max_retries : Z) (w : Run) : Run :=
  match load_cities_database (db_file w) with
  | _ :: _ => w
  | [] =>
      let country := "Brazil" in
      match states_loop remote country (Z.to_nat max_retries) 0 w with
      | (Raise e, w1) => w1
      | (Ok [], w1) => w1
      | (Ok states, w1) =>
          match states_cities remote country (Z.to_nat max_retries) states [] w1 with
          | (None, cities_db, w2) => save_run cities_db w2
          | (Some e, [], w2) => w2
          | (Some e, cities_db, w2) => save_run cities_db w2
          end
      end
  end.

(** ** The vocabulary of the statements on the population *)

(** A response of status 200 whose payload is a success listing [names]. *)
Definition lists (names : list string) (o : result ListResponse) : Prop :=
  exists resp,
    o = Ok resp /\ l_status_code resp = 200 /\ l_raise_for_status resp = None /\
    l_json resp = Ok (ListObject (Some "success") (Some (map Some names))).

Definition has_status (code : Z) (o : result ListResponse) : Prop :=
  exists resp, o = Ok resp /\ l_status_code resp = code.

(** The answer to the request for the cities of a state: the list of its
    cities, or a 400. *)
Definition answered (answer : option (list string)) (o : result ListResponse) : Prop :=
  match answer with
  | Some cities => lists cities o
  | None => has_status 400 o
  end.

Definition cities_of (answer : option (list string)) : list string :=
  match answer with Some cities => cities | None => [] end.

(** A response of status 200 whose payload cannot be read: it is no
    object, or one of the items it lists has no name. *)
Definition unreadable (key : string) (o : result ListResponse) : Prop :=
  exists resp,
    o = Ok resp /\ l_status_code resp = 200 /\ l_raise_for_status resp = None /\
    ((exists j, l_json resp = Ok (ListOther j)) \/
     (exists data, l_json resp = Ok (ListObject (Some "success") (Some data)) /\
                   In None data)).

(** The records of a plan: the states in order, each with its answer. *)
Definition plan_entries `{Unicode} (country : string)
    (plan : list (string * option (list string))) : list CityRecord :=
  flat_map (fun p => city_entries (fst p) country (cities_of (snd p))) plan.

(** The events of a plan whose every request is answered at once. *)
Definition plan_events (country : string)
    (plan : list (string * option (list string))) : list Event :=
  flat_map (fun p => [Slept 60; Sent (CitiesRequest (fst p) country)]) plan.

(** The seconds slept since the last request, [rest] of them before the
    first event of [t]. *)
Fixpoint rest_after (rest : Z) (t : list Event) : Z :=
  match t with
  | [] => rest
  | Sent _ :: t' => rest_after 0 t'
  | Slept d :: t' => rest_after (rest + d) t'
  end.

(** Every request of [t] is sent after at least [pause] seconds of sleep
    since the request before it. *)
Fixpoint spaced (pause rest : Z) (t : list Event) : Prop :=
  match t with
  | [] => True
  | Sent _ :: t' => pause <= rest /\ spaced pause 0 t'
  | Slept d :: t' => spaced pause (rest + d) t'
  end.

(** ** Inputs the statements on the population are run on *)

Definition listing (names : list string) : ListResponse :=
  mkListResponse 200 None (Ok (ListObject (Some "success") (Some (map Some names)))).

Definition bad_request : ListResponse :=
  mkListResponse 400 (Some "400 Client Error: Bad Request") (Ok (ListOther JNull)).

Definition too_many_requests : ListResponse :=
  mkListResponse 429 (Some "429 Client Error: Too Many Requests") (Ok (ListOther JNull)).

Definition ex_plan : list (string * option (list string)) :=
  [("Acre", Some ["Rio Branco"; "Cruzeiro do Sul"]); ("Alagoas", None)].

(** Brazil has two states; the second is refused. *)
Definition ex_remote : ListRemote :=
  fun n r =>
    match n with
    | O => Ok (listing ["Acre"; "Alagoas"])
    | S O => Ok (listing ["Rio Branco"; "Cruzeiro do Sul"])
    | _ => Ok bad_request
    end.

(** The remote answers every request with a 429. *)
Definition busy_remote : ListRemote := fun _ _ => Ok too_many_requests.

(** The list of the cities of the second state is no object. *)
Definition broken_remote : ListRemote :=
  fun n r =>
    match n with
    | O => Ok (listing ["Acre"; "Alagoas"])
    | S O => Ok (listing ["Rio Branco"; "Cruzeiro do Sul"])
    | _ => Ok (mkListResponse 200 None (Ok (ListOther JNull)))
    end.

Definition run0 : Run := mkRun [] FileMissing.

Definition ascii_populate : ListRemote -> Z -> Run -> Run :=
  populate_initial_database (H := ascii_unicode).

(** The events [new] may follow any events that end with at least [need]
    seconds of sleep: every request of [new] then has its pause of 60
    seconds. *)
Definition follows (need : Z) (new : list Event) : Prop :=
  forall rest, need <= rest -> spaced 60 rest new /\ 0 <= rest_after rest new.

(** The events of [n] turns for the request [r] that all end at once. *)
Definition attempts (r : Request) (n : nat) : list Event :=
  match n with
  | O => []
  | S m => Sent r :: List.concat (repeat [Slept 60; Sent r] m)
  end.

(** A record as the population writes it. *)
Definition brazilian `{Unicode} (c : CityRecord) : Prop :=
  country c = "Brazil" /\
  search_string c = lower (city c ++ ", " ++ state c ++ ", " ++ country c).

(* ===================================================================== *)
(** * Further inputs *)
(* ===================================================================== *)

(** A payload with a current AQI of 57 and nothing else, and one with no
    current reading at all. *)
Definition boston_response : Response :=
  mkResponse 200 None
    (Ok (PayloadObject (Some "success")
           (Some (DataObject
                    (mkCityData
                       (Some (mkCurrent (Some (mkCurrentPollution (Some 57) (Some "o3")))
                                        None))
                       None None))))).

Definition blank_response : Response :=
  mkResponse 200 None
    (Ok (PayloadObject (Some "success") (Some (DataObject (mkCityData None None None))))).

(** A history whose second reading is [null], and a forecast whose day has
    no ["ts"]. *)
Definition null_reading_response : Response :=
  mkResponse 200 None
    (Ok (PayloadObject (Some "success")
           (Some (DataObject
                    (mkCityData None
                       (history_of ["2024-05-02T10:00:00.000Z"; "2024-05-02T11:00:00.000Z"]
                                   [Some 41; None])
                       None))))).

Definition undated_forecast_data : CityData :=
  mkCityData None None (Some (mkForecast (Some [mkForecastDay None (Some 50)]))).

Definition undated_forecast_response : Response :=
  mkResponse 200 None
    (Ok (PayloadObject (Some "success") (Some (DataObject undated_forecast_data)))).

(** Remotes that answer the first request with the payload of Springfield
    and the second with another response. *)
Definition then_env (second : Response) : Env :=
  mkEnv (fun n => match n with
                  | O => Ok city_response
                  | _ => Ok second
                  end) "2024-05-03".

(** Remotes that give the same response to every request. *)
Definition always_env (response : Response) : Env :=
  mkEnv (fun _ => Ok response) "2024-05-03".

Definition boston_result : AirQuality :=
  mkAirQuality "Boston" "USA" "Massachusetts" (Some 57) (Some "o3") (JObject [])
    [mkEntry "2024-05-03" "Current AQI" (Some 57)].

Definition blank_result : AirQuality :=
  mkAirQuality "Boston" "USA" "Massachusetts" None None (JObject []) [].

(** The query strings of two requests to [/compare]. *)
Definition compare_args : Args :=
  [("c1_city", "Springfield"); ("c1_state", "Illinois"); ("c1_country", "USA");
   ("c2_city", "Boston"); ("c2_state", "Massachusetts"); ("c2_country", "USA")].

Definition short_args : Args :=
  [("c1_city", "Springfield"); ("c1_state", "Illinois"); ("c1_country", "USA");
   ("c2_city", "Boston"); ("c2_state", ""); ("c2_country", "USA")].

Definition ascii_autocomplete : Args -> DbFile -> list CityRecord :=
  @autocomplete ascii_unicode ascii_difflib.

(** Two records whose scores for "rio" are 1.0 + 0.2 and 0.8 + 0.4: as
    floats the second sum is the larger. *)
Definition rio_branco : CityRecord :=
  mkCityRecord "Rio Branco do Sul do Parana" "Parana" "Brazil"
    "rio branco do sul do parana, parana, brazil".

Definition ipe : CityRecord := mkCityRecord "Ipe" "Rio" "BR" "ipe, rio, br".

Definition tie_db : DbFile := FileJson [rio_branco; ipe].

(* ===================================================================== *)
(** * Properties of the builtins *)
(* ===================================================================== *)

Module PyFacts.

(** ** Strings *)

Lemma startswith_app (p t : string) : startswith (p ++ t) p = true.
Proof.
  induction p as [|b p IH]; simpl.
  - destruct t; reflexivity.
  - rewrite Ascii.eqb_refl. exact IH.
Qed.

Lemma startswith_spec (s p : string) :
  startswith s p = true <-> exists t, s = p ++ t.
Proof.
  split.
  - revert s. induction p as [|b p IH]; intros s H.
    + exists s. reflexivity.
    + destruct s as [|a s]; simpl in H; [discriminate|].
      apply andb_true_iff in H. destruct H as [Hab Hs].
      apply Ascii.eqb_eq in Hab. subst b.
      destruct (IH s Hs) as [t ->]. exists t. reflexivity.
  - intros [t ->]. apply startswith_app.
Qed.

Lemma contains_spec (s p : string) :
  contains s p = true <-> exists a b, s = a ++ p ++ b.
Proof.
  split.
  - induction s as [|c s IH]; intro H; cbn [contains] in H.
    + rewrite orb_false_r in H. apply startswith_spec in H.
      destruct H as [t Ht]. exists "", t. exact Ht.
    + apply orb_true_iff in H. destruct H as [H|H].
      * apply startswith_spec in H. destruct H as [t Ht].
        exists "", t. exact Ht.
      * destruct (IH H) as (a & b & ->). exists (String c a), b. reflexivity.
  - intros (a & b & ->). induction a as [|c a IH].
    + change ("" ++ p ++ b) with (p ++ b).
      destruct (p ++ b) eqn:E; cbn [contains]; rewrite <- E, startswith_app;
        reflexivity.
    + change (String c a ++ p ++ b) with (String c (a ++ p ++ b)).
      cbn [contains]. rewrite IH. apply orb_true_r.
Qed.

Lemma str_lt_iff (a b : string) : str_lt a b = true <-> String_as_OT.lt a b.
Proof.
  unfold str_lt. rewrite <- String_as_OT.cmp_lt. unfold String_as_OT.cmp.
  destruct (String.compare a b); split; congruence.
Qed.

Lemma str_lt_irrefl (a : string) : str_lt a a = false.
Proof.
  unfold str_lt.
  assert (E : String.compare a a = Eq) by (apply String_as_OT.cmp_eq; reflexivity).
  rewrite E. reflexivity.
Qed.

Lemma str_lt_trans (a b c : string) :
  str_lt a b = true -> str_lt b c = true -> str_lt a c = true.
Proof.
  rewrite !str_lt_iff. apply String_as_OT.lt_trans.
Qed.

Lemma str_lt_trichotomy (a b : string) :
  str_lt a b = true \/ a = b \/ str_lt b a = true.
Proof.
  unfold str_lt. rewrite (String.compare_antisym a b).
  destruct (String.compare b a) eqn:E; simpl; auto.
  apply String.compare_eq_iff in E. auto.
Qed.

Lemma str_lt_asym (a b : string) : str_lt a b = true -> str_lt b a = false.
Proof.
  intro H. destruct (str_lt b a) eqn:E; [|reflexivity].
  pose proof (str_lt_trans _ _ _ H E) as F.
  rewrite str_lt_irrefl in F. discriminate.
Qed.

(** ** Lists *)

Lemma zip_firstn_min {A B : Type} (xs : list A) (ys : list B) :
  zip (firstn (Nat.min (List.length xs) (List.length ys)) xs)
      (firstn (Nat.min (List.length xs) (List.length ys)) ys) = zip xs ys.
Proof.
  revert ys. induction xs as [|x xs IH]; intros [|y ys]; simpl; try reflexivity.
  f_equal. apply IH.
Qed.

Lemma zip_length {A B : Type} (xs : list A) (ys : list B) :
  List.length (zip xs ys) = Nat.min (List.length xs) (List.length ys).
Proof.
  revert ys. induction xs as [|x xs IH]; intros [|y ys]; simpl; auto.
Qed.

Lemma Permutation_filter {A : Type} (f : A -> bool) (l l' : list A) :
  Permutation l l' -> Permutation (filter f l) (filter f l').
Proof.
  induction 1; simpl.
  - constructor.
  - destruct (f x); [constructor|]; assumption.
  - destruct (f x), (f y); try apply Permutation_refl; constructor.
  - eapply Permutation_trans; eassumption.
Qed.

Lemma Permutation_singleton {A : Type} (x : A) (l : list A) :
  Permutation [x] l -> l = [x].
Proof. apply Permutation_length_1_inv. Qed.

Lemma filter_firstn_prefix {A : Type} (f : A -> bool) (n : nat) (l : list A) :
  prefix_of (filter f (firstn n l)) (filter f l).
Proof.
  exists (filter f (skipn n l)).
  rewrite <- filter_app, firstn_skipn. reflexivity.
Qed.

Lemma slice_to_firstn {A : Type} (l : list A) (n : Z) :
  exists k, slice_to l n = firstn k l.
Proof. unfold slice_to. destruct (0 <=? n); eexists; reflexivity. Qed.

Lemma slice_to_length {A : Type} (l : list A) (n : Z) :
  0 <= n -> Z.of_nat (List.length (slice_to l n)) <= n.
Proof.
  intro Hn. unfold slice_to. destruct (Z.leb_spec 0 n); [|lia].
  pose proof (firstn_le_length (Z.to_nat n) l). lia.
Qed.

(** ** [sorted] *)

Section SortedFacts.
Context {A : Type} (key : A -> string).

Lemma insert_asc_perm (x : A) (l : list A) :
  Permutation (x :: l) (insert_asc key x l).
Proof.
  induction l as [|y l IH]; simpl.
  - apply Permutation_refl.
  - destruct (str_lt (key y) (key x)).
    + eapply Permutation_trans; [apply perm_swap|]. constructor. exact IH.
    + apply Permutation_refl.
Qed.

Lemma sorted_perm (l : list A) : Permutation l (sorted key l).
Proof.
  induction l as [|x l IH]; simpl.
  - constructor.
  - eapply Permutation_trans; [|apply insert_asc_perm]. constructor. exact IH.
Qed.

Lemma insert_asc_sorted (x : A) (l : list A) :
  StronglySorted (asc key) l -> StronglySorted (asc key) (insert_asc key x l).
Proof.
  induction l as [|y l IH]; simpl; intro H.
  - repeat constructor.
  - apply StronglySorted_inv in H. destruct H as [Hl Hy].
    destruct (str_lt (key y) (key x)) eqn:E.
    + constructor; [apply IH; exact Hl|].
      eapply Permutation_Forall; [apply insert_asc_perm|].
      constructor; [|exact Hy].
      unfold asc. apply str_lt_asym. exact E.
    + constructor; [constructor; assumption|].
      constructor; [exact E|].
      rewrite Forall_forall in *. intros z Hz. specialize (Hy z Hz).
      unfold asc in *.
      destruct (str_lt (key z) (key x)) eqn:F; [|reflexivity].
      destruct (str_lt_trichotomy (key y) (key z)) as [G|[G|G]].
      * pose proof (str_lt_trans _ _ _ G F). congruence.
      * rewrite <- G in F. congruence.
      * congruence.
Qed.

Lemma sorted_sorted (l : list A) : StronglySorted (asc key) (sorted key l).
Proof.
  induction l as [|x l IH]; simpl.
  - constructor.
  - apply insert_asc_sorted. exact IH.
Qed.

(** With pairwise distinct keys the order is strict. *)
Lemma sorted_strict (l : list A) :
  NoDup (map key l) ->
  StronglySorted (fun a b => str_lt (key a) (key b) = true) (sorted key l).
Proof.
  intro Hnd.
  assert (Hnd' : NoDup (map key (sorted key l))).
  { eapply Permutation_NoDup; [|exact Hnd].
    apply Permutation_map, sorted_perm. }
  pose proof (sorted_sorted l) as Hs.
  induction Hs as [|a l' Hs IH Ha]; [constructor|].
  simpl in Hnd'. inversion Hnd' as [|? ? Hnotin Hnd'']; subst.
  constructor; [apply IH; exact Hnd''|].
  rewrite Forall_forall in *. intros b Hb. specialize (Ha b Hb).
  unfold asc in Ha.
  destruct (str_lt_trichotomy (key a) (key b)) as [G|[G|G]];
    [exact G| |congruence].
  exfalso. apply Hnotin. rewrite G. apply in_map. exact Hb.
Qed.

Lemma sorted_filter_singleton (f : A -> bool) (l : list A) (x : A) :
  filter f l = [x] -> filter f (sorted key l) = [x].
Proof.
  intro H. apply Permutation_singleton. rewrite <- H.
  apply Permutation_filter, sorted_perm.
Qed.

Lemma sorted_filter_nil (f : A -> bool) (l : list A) :
  filter f l = [] -> filter f (sorted key l) = [].
Proof.
  intro H. apply Permutation_nil. rewrite <- H.
  apply Permutation_filter, sorted_perm.
Qed.
End SortedFacts.

(** ** Dictionaries *)

Section DictFacts.
Context {V : Type}.
Implicit Types (d : dict V) (k : string) (v : V).

Lemma get_set_same d k v : get (set d k v) k = Some v.
Proof.
  induction d as [|[k' v'] d IH]; simpl.
  - rewrite String.eqb_refl. reflexivity.
  - destruct (String.eqb_spec k' k) as [->|Hne]; simpl.
    + rewrite String.eqb_refl. reflexivity.
    + destruct (String.eqb_spec k' k); [contradiction|exact IH].
Qed.

Lemma get_set_other d k k' v : k <> k' -> get (set d k v) k' = get d k'.
Proof.
  intro Hne. induction d as [|[k0 v0] d IH]; simpl.
  - destruct (String.eqb_spec k k'); [contradiction|reflexivity].
  - destruct (String.eqb_spec k0 k) as [->|H0]; simpl.
    + destruct (String.eqb_spec k k'); [contradiction|reflexivity].
    + destruct (String.eqb_spec k0 k'); [reflexivity|exact IH].
Qed.

Lemma get_None d k : get d k = None <-> ~ In k (keys d).
Proof.
  induction d as [|[k' v'] d IH]; simpl.
  - tauto.
  - destruct (String.eqb_spec k' k) as [->|Hne].
    + split; [discriminate|]. intro H. exfalso. apply H. left. reflexivity.
    + rewrite IH. tauto.
Qed.

Lemma get_In d k v : get d k = Some v -> In (k, v) d.
Proof.
  induction d as [|[k' v'] d IH]; simpl; [discriminate|].
  destruct (String.eqb_spec k' k) as [->|Hne].
  - intros [= ->]. left. reflexivity.
  - intro H. right. apply IH. exact H.
Qed.

Lemma mem_true d k : mem d k = true <-> In k (keys d).
Proof.
  unfold mem. pose proof (get_None d k) as H.
  destruct (get d k).
  - split; [|reflexivity]. intros _.
    destruct (in_dec string_dec k (keys d)) as [Hin|Hout]; [exact Hin|].
    apply H in Hout. discriminate.
  - split; [discriminate|]. intro Hin. exfalso. apply (proj1 H); auto.
Qed.

Lemma keys_set d k v :
  keys (set d k v) = if mem d k then keys d else (keys d ++ [k])%list.
Proof.
  unfold mem. induction d as [|[k' v'] d IH]; simpl.
  - reflexivity.
  - destruct (String.eqb_spec k' k) as [->|Hne]; simpl.
    + reflexivity.
    + rewrite IH. destruct (get d k); reflexivity.
Qed.

Lemma NoDup_keys_set d k v : NoDup (keys d) -> NoDup (keys (set d k v)).
Proof.
  intro H. rewrite keys_set. destruct (mem d k) eqn:E; [exact H|].
  assert (Hout : ~ In k (keys d)).
  { intro Hin. apply mem_true in Hin. congruence. }
  apply NoDup_rev in H. rewrite <- (rev_involutive (keys d ++ [k])).
  apply NoDup_rev. rewrite rev_app_distr. simpl. constructor; [|exact H].
  rewrite <- in_rev. exact Hout.
Qed.
End DictFacts.

(** ** Rounding *)

Lemma round_half_even_nearest (s c : Z) :
  0 < c -> nearest_even s c (round_half_even s c).
Proof.
  intro Hc. unfold round_half_even, nearest_even.
  destruct (Z.ltb_spec c 0); [lia|].
  pose proof (Z.div_mod s c ltac:(lia)) as Hdm.
  pose proof (Z.mod_pos_bound s c Hc) as Hr.
  set (q := s / c) in *. set (r := s mod c) in *.
  destruct (Z.compare_spec (2 * r) c) as [E|E|E].
  - destruct (Z.even q) eqn:Hq.
    + split; [nia|]. intros _. exact Hq.
    + split; [nia|]. intros _. rewrite Z.even_add, Hq. reflexivity.
  - split; [nia|]. intro Hx. exfalso. nia.
  - split; [nia|]. intro Hx. exfalso. nia.
Qed.

(** The nearest integer with ties to even is unique. *)
Lemma nearest_even_unique (s c m m' : Z) :
  0 < c -> nearest_even s c m -> nearest_even s c m' -> m = m'.
Proof.
  unfold nearest_even. intros Hc [H1 E1] [H2 E2].
  assert (Hd : m = m' \/ m = m' + 1 \/ m' = m + 1) by nia.
  destruct Hd as [Hd|[Hd|Hd]]; [exact Hd| |]; subst; exfalso.
  - assert (A : 2 * Z.abs ((m' + 1) * c - s) = c) by nia.
    assert (B : 2 * Z.abs (m' * c - s) = c) by nia.
    specialize (E1 A). specialize (E2 B).
    rewrite Z.even_add, E2 in E1. discriminate.
  - assert (A : 2 * Z.abs ((m + 1) * c - s) = c) by nia.
    assert (B : 2 * Z.abs (m * c - s) = c) by nia.
    specialize (E1 B). specialize (E2 A).
    rewrite Z.even_add, E1 in E2. discriminate.
Qed.

End PyFacts.

(* ===================================================================== *)
(** * Properties of the floats *)
(* ===================================================================== *)

Module FloatFacts.
Import PyFacts.
Local Open Scope Q_scope.

Lemma near_nearest_even (x : Q) (m : Z) :
  near x m <-> nearest_even (Qnum x) (Zpos (Qden x)) m.
Proof.
  destruct x as [n d]. unfold near, nearest_even, Qle, Qeq, Qabs, Qminus, Qplus, Qopp.
  cbn [Qnum Qden inject_Z]. rewrite !Z.mul_1_r, !Z.mul_1_l.
  change (Z.pos (1 * d)) with (Z.pos d).
  replace (m * Z.pos d + - n)%Z with (m * Z.pos d - n)%Z by lia.
  split; intros [H1 H2]; split; try lia; intro E; apply H2; lia.
Qed.

Lemma round_float_near (x : Q) : near x (round_float x).
Proof. apply near_nearest_even, round_half_even_nearest. reflexivity. Qed.

Lemma near_unique (x : Q) (m m' : Z) : near x m -> near x m' -> m = m'.
Proof.
  rewrite !near_nearest_even. apply nearest_even_unique. reflexivity.
Qed.

Lemma near_comp (x y : Q) (m : Z) : x == y -> near x m -> near y m.
Proof. unfold near. intros E [H1 H2]. rewrite <- E. split; assumption. Qed.

Lemma near_round (x : Q) (m : Z) : near x m -> round_float x = m.
Proof. intro H. apply (near_unique x); [apply round_float_near|exact H]. Qed.

Lemma round_float_comp (x y : Q) : x == y -> round_float x = round_float y.
Proof.
  intro E. apply near_round, (near_comp y x); [symmetry; exact E|apply round_float_near].
Qed.

Lemma round_float_inject (n : Z) : round_float (inject_Z n) = n.
Proof.
  apply near_round. unfold near.
  assert (E : inject_Z n - inject_Z n == 0) by ring.
  rewrite E. split; [discriminate|]. intro H. discriminate H.
Qed.

Lemma round_float_opp (x : Q) : round_float (- x) = (- round_float x)%Z.
Proof.
  apply near_round. destruct (round_float_near x) as [H1 H2]. unfold near.
  assert (E : inject_Z (- round_float x) - - x == - (inject_Z (round_float x) - x)).
  { rewrite inject_Z_opp. ring. }
  rewrite E, Qabs_opp. split; [exact H1|].
  intro H. rewrite Z.even_opp. apply H2, H.
Qed.

Lemma near_bounds (x : Q) (m : Z) :
  near x m -> inject_Z m - (1 # 2) <= x <= inject_Z m + (1 # 2).
Proof.
  intros [H _]. apply Qabs_Qle_condition in H. destruct H. split; lra.
Qed.

Lemma round_float_mono (x y : Q) : x <= y -> (round_float x <= round_float y)%Z.
Proof.
  intro Hxy.
  destruct (round_float_near x) as [Hx Ex]. destruct (round_float_near y) as [Hy Ey].
  set (a := round_float x) in *. set (b := round_float y) in *.
  clearbody a b.
  destruct (Z_le_gt_dec a b) as [|Hgt]; [assumption|exfalso].
  apply Qabs_Qle_condition in Hx, Hy.
  assert (Hab : inject_Z b + 1 <= inject_Z a).
  { unfold Qle, Qplus, inject_Z. cbn. lia. }
  assert (Ea : inject_Z a - x == 1 # 2) by lra.
  assert (Eb : inject_Z b - y == - (1 # 2)) by lra.
  assert (Eab : inject_Z a == inject_Z b + 1) by lra.
  assert (Eab' : a = (b + 1)%Z).
  { unfold Qeq, Qplus, inject_Z in Eab. cbn in Eab. lia. }
  assert (Ha : Z.even a = true).
  { apply Ex. rewrite Ea. reflexivity. }
  assert (Hb : Z.even b = true).
  { apply Ey. rewrite Eb. reflexivity. }
  rewrite Eab', Z.even_add, Hb in Ha. discriminate.
Qed.

(** Powers of two *)

Lemma pow2_pos (k : Z) : 0 < 2 ^ k.
Proof. apply Qpower_0_lt. reflexivity. Qed.

Lemma pow2_plus (a b : Z) : 2 ^ (a + b) == 2 ^ a * 2 ^ b.
Proof. apply Qpower_plus. discriminate. Qed.

Lemma pow2_le (a b : Z) : (a <= b)%Z -> 2 ^ a <= 2 ^ b.
Proof. intro H. apply Qpower_le_compat_l; [exact H|discriminate]. Qed.

Lemma pow2_lt_inv (a b : Z) : 2 ^ a < 2 ^ b -> (a < b)%Z.
Proof. intro H. apply (Qpower_lt_compat_l_inv 2); [exact H|reflexivity]. Qed.

Lemma pow2_inject (k : Z) : (0 <= k)%Z -> 2 ^ k == inject_Z (2 ^ k).
Proof. intro H. rewrite Zpower_Qpower by exact H. reflexivity. Qed.

Lemma log2_bounds (n : Z) :
  (0 < n)%Z -> 2 ^ Z.log2 n <= inject_Z n /\ inject_Z n < 2 ^ (Z.log2 n + 1).
Proof.
  intro Hn. pose proof (Z.log2_spec n Hn) as [H1 H2].
  pose proof (Z.log2_nonneg n) as H0.
  rewrite !pow2_inject by lia. rewrite <- Zle_Qle, <- Zlt_Qlt.
  replace (Z.log2 n + 1)%Z with (Z.succ (Z.log2 n)) by lia. split; assumption.
Qed.

Lemma exponent_spec (q : Q) :
  0 < q -> 2 ^ exponent q <= q /\ q < 2 ^ (exponent q + 1).
Proof.
  intro Hq. destruct q as [n d].
  assert (Hn : (0 < n)%Z).
  { unfold Qlt in Hq. cbn in Hq. lia. }
  unfold exponent. cbn [Qnum Qden].
  set (e := (Z.log2 n - Z.log2 (Z.pos d))%Z).
  destruct (log2_bounds n Hn) as [N1 N2].
  destruct (log2_bounds (Z.pos d) eq_refl) as [D1 D2].
  assert (Eq : n # d == inject_Z n / inject_Z (Z.pos d)) by apply Qmake_Qdiv.
  assert (Hd : 0 < inject_Z (Z.pos d)) by reflexivity.
  assert (Hqd : (n # d) * inject_Z (Z.pos d) == inject_Z n).
  { rewrite Eq. field. intro H. rewrite H in Hd. discriminate. }
  pose proof (pow2_pos (e - 1)) as P1. pose proof (pow2_pos e) as P2.
  pose proof (pow2_pos (Z.log2 (Z.pos d))) as P3.
  assert (L : 2 ^ (e - 1) < n # d).
  { assert (E1 : 2 ^ Z.log2 n == 2 ^ (e - 1) * 2 ^ (Z.log2 (Z.pos d) + 1)).
    { rewrite <- pow2_plus. unfold e. apply Qpower_comp; [reflexivity|lia]. }
    apply (Qmult_lt_r _ _ (inject_Z (Z.pos d)) Hd). rewrite Hqd.
    apply Qlt_le_trans with (2 ^ Z.log2 n); [|exact N1]. rewrite E1.
    apply Qmult_lt_l; assumption. }
  assert (U : n # d < 2 ^ (e + 1)).
  { assert (E1 : 2 ^ (Z.log2 n + 1) == 2 ^ (e + 1) * 2 ^ Z.log2 (Z.pos d)).
    { rewrite <- pow2_plus. unfold e. apply Qpower_comp; [reflexivity|lia]. }
    apply (Qmult_lt_r _ _ (inject_Z (Z.pos d)) Hd). rewrite Hqd.
    apply Qlt_le_trans with (2 ^ (Z.log2 n + 1)); [exact N2|]. rewrite E1.
    apply Qmult_le_l; [apply pow2_pos|exact D1]. }
  destruct (Qle_bool (2 ^ e) (n # d)) eqn:B.
  - apply Qle_bool_iff in B. split; assumption.
  - assert (Hlt : n # d < 2 ^ e).
    { apply Qnot_le_lt. intro H. apply Qle_bool_iff in H. congruence. }
    replace (e - 1 + 1)%Z with e by lia. split; [apply Qlt_le_weak, L|exact Hlt].
Qed.

Lemma exponent_unique (q : Q) (e : Z) :
  2 ^ e <= q -> q < 2 ^ (e + 1) -> exponent q = e.
Proof.
  intros H1 H2.
  assert (Hq : 0 < q) by (apply Qlt_le_trans with (2 ^ e); [apply pow2_pos|exact H1]).
  destruct (exponent_spec q Hq) as [S1 S2].
  assert (A : (exponent q < e + 1)%Z).
  { apply pow2_lt_inv. apply Qle_lt_trans with q; assumption. }
  assert (B : (e < exponent q + 1)%Z).
  { apply pow2_lt_inv. apply Qle_lt_trans with q; assumption. }
  lia.
Qed.

Lemma exponent_comp (q q' : Q) : 0 < q -> q == q' -> exponent q = exponent q'.
Proof.
  intros Hq E. destruct (exponent_spec q Hq) as [S1 S2].
  symmetry. apply exponent_unique; rewrite <- E; assumption.
Qed.

Lemma exponent_mono (q q' : Q) : 0 < q -> q <= q' -> (exponent q <= exponent q')%Z.
Proof.
  intros Hq Hle.
  assert (Hq' : 0 < q') by (apply Qlt_le_trans with q; assumption).
  destruct (exponent_spec q Hq) as [S1 _]. destruct (exponent_spec q' Hq') as [_ S2].
  assert (A : (exponent q < exponent q' + 1)%Z).
  { apply pow2_lt_inv. apply Qle_lt_trans with q; [exact S1|].
    apply Qle_lt_trans with q'; assumption. }
  lia.
Qed.


Lemma ulp_eq (q : Q) :
  ulp q = 2 ^ (Z.max (exponent (Qabs q)) (-1022) - 52).
Proof. unfold ulp. f_equal. lia. Qed.

Lemma ulp_pos (q : Q) : 0 < ulp q.
Proof. apply pow2_pos. Qed.

Lemma ulp_nonzero (q : Q) : ~ ulp q == 0.
Proof. intro H. pose proof (ulp_pos q) as P. rewrite H in P. discriminate. Qed.

Lemma Qabs_pos_lt (q : Q) : ~ q == 0 -> 0 < Qabs q.
Proof.
  intro H. destruct (Qlt_le_dec 0 (Qabs q)) as [|Hle]; [assumption|exfalso].
  apply H. apply Qabs_Qle_condition in Hle. destruct Hle. lra.
Qed.

Lemma ulp_comp (q q' : Q) : ~ q == 0 -> q == q' -> ulp q = ulp q'.
Proof.
  intros Hq E. unfold ulp. f_equal. f_equal. f_equal.
  apply exponent_comp; [apply Qabs_pos_lt, Hq|rewrite E; reflexivity].
Qed.

Lemma ulp_opp (q : Q) : ~ q == 0 -> ulp (- q) = ulp q.
Proof.
  intro Hq. unfold ulp. f_equal. f_equal. f_equal.
  apply exponent_comp; [|apply Qabs_opp].
  apply Qabs_pos_lt. intro H. apply Hq. lra.
Qed.

Lemma ulp_of_pos (q : Q) :
  0 < q -> ulp q = 2 ^ (Z.max (exponent q) (-1022) - 52).
Proof.
  intro Hq. rewrite ulp_eq. f_equal. f_equal. f_equal.
  apply exponent_comp; [|apply Qabs_pos; lra].
  apply Qabs_pos_lt. intro H. rewrite H in Hq. discriminate.
Qed.

Lemma nearest_float_zero (q : Q) : q == 0 -> nearest_float q = 0.
Proof.
  intro H. unfold nearest_float. apply Qeq_bool_iff in H. rewrite H. reflexivity.
Qed.

Lemma nearest_float_nonzero (q : Q) :
  ~ q == 0 -> nearest_float q = inject_Z (round_float (q / ulp q)) * ulp q.
Proof.
  intro H. unfold nearest_float.
  destruct (Qeq_bool q 0) eqn:E; [|reflexivity].
  apply Qeq_bool_iff in E. contradiction.
Qed.

Lemma nearest_float_comp (q q' : Q) : q == q' -> nearest_float q == nearest_float q'.
Proof.
  intro E. destruct (Qeq_dec q 0) as [Z|NZ].
  - rewrite (nearest_float_zero q Z), (nearest_float_zero q'); [reflexivity|].
    rewrite <- E. exact Z.
  - assert (NZ' : ~ q' == 0) by (rewrite <- E; exact NZ).
    rewrite (nearest_float_nonzero q NZ), (nearest_float_nonzero q' NZ').
    rewrite <- (ulp_comp q q' NZ E).
    rewrite (round_float_comp (q / ulp q) (q' / ulp q)); [reflexivity|].
    apply Qdiv_comp; [exact E|reflexivity].
Qed.

Lemma nearest_float_opp (q : Q) : nearest_float (- q) == - nearest_float q.
Proof.
  destruct (Qeq_dec q 0) as [Z|NZ].
  - rewrite (nearest_float_zero q Z), (nearest_float_zero (- q)); [reflexivity|].
    rewrite Z. reflexivity.
  - assert (NZ' : ~ - q == 0) by (intro H; apply NZ; lra).
    rewrite (nearest_float_nonzero q NZ), (nearest_float_nonzero (- q) NZ').
    rewrite (ulp_opp q NZ).
    rewrite (round_float_comp (- q / ulp q) (- (q / ulp q))).
    + rewrite round_float_opp, inject_Z_opp. ring.
    + field. apply ulp_nonzero.
Qed.

Lemma pos_nonzero (q : Q) : 0 < q -> ~ q == 0.
Proof. intros H E. rewrite E in H. discriminate. Qed.

Lemma nearest_float_nonneg (q : Q) : 0 <= q -> 0 <= nearest_float q.
Proof.
  intro Hq. destruct (Qeq_dec q 0) as [Z|NZ].
  - rewrite (nearest_float_zero q Z). discriminate.
  - rewrite (nearest_float_nonzero q NZ).
    apply Qmult_le_0_compat; [|apply Qlt_le_weak, ulp_pos].
    change 0 with (inject_Z 0). rewrite <- Zle_Qle.
    rewrite <- (round_float_inject 0). apply round_float_mono.
    apply Qle_shift_div_l; [apply ulp_pos|]. change (inject_Z 0) with 0. lra.
Qed.

(** A multiple of its own unit is a float. *)
Lemma nearest_float_exact (q : Q) (k : Z) :
  q == inject_Z k * ulp q -> nearest_float q == q.
Proof.
  intro E. destruct (Qeq_dec q 0) as [Z|NZ].
  - rewrite (nearest_float_zero q Z), Z. reflexivity.
  - rewrite (nearest_float_nonzero q NZ).
    rewrite (round_float_comp (q / ulp q) (inject_Z k)).
    + rewrite round_float_inject. symmetry. exact E.
    + rewrite E at 1. field. apply ulp_nonzero.
Qed.

Lemma nearest_float_upper (q : Q) :
  0 < q -> nearest_float q <= 2 ^ (Z.max (exponent q) (-1022) + 1).
Proof.
  intro Hq. rewrite (nearest_float_nonzero q (pos_nonzero q Hq)), (ulp_of_pos q Hq).
  set (e := Z.max (exponent q) (-1022)).
  assert (Ep : 2 ^ (e + 1) == inject_Z (2 ^ 53) * 2 ^ (e - 52)).
  { rewrite <- (pow2_inject 53) by lia. rewrite <- pow2_plus.
    apply Qpower_comp; [reflexivity|lia]. }
  rewrite Ep. apply Qmult_le_compat_r; [|apply Qlt_le_weak, pow2_pos].
  rewrite <- Zle_Qle.
  apply Z.le_trans with (round_float (inject_Z (2 ^ 53)));
    [|rewrite round_float_inject; apply Z.le_refl].
  apply round_float_mono. apply Qle_shift_div_r; [apply pow2_pos|].
  rewrite <- Ep. destruct (exponent_spec q Hq) as [_ S2].
  apply Qlt_le_weak, Qlt_le_trans with (2 ^ (exponent q + 1)); [exact S2|].
  apply pow2_le. unfold e. lia.
Qed.

Lemma nearest_float_lower (q : Q) :
  0 < q -> (-1022 <= exponent q)%Z -> 2 ^ exponent q <= nearest_float q.
Proof.
  intros Hq He. rewrite (nearest_float_nonzero q (pos_nonzero q Hq)), (ulp_of_pos q Hq).
  replace (Z.max (exponent q) (-1022)) with (exponent q) by lia.
  set (e := exponent q).
  assert (Ep : 2 ^ e == inject_Z (2 ^ 52) * 2 ^ (e - 52)).
  { rewrite <- (pow2_inject 52) by lia. rewrite <- pow2_plus.
    apply Qpower_comp; [reflexivity|lia]. }
  rewrite Ep at 1. apply Qmult_le_compat_r; [|apply Qlt_le_weak, pow2_pos].
  rewrite <- Zle_Qle.
  apply Z.le_trans with (round_float (inject_Z (2 ^ 52)));
    [rewrite round_float_inject; apply Z.le_refl|].
  apply round_float_mono. apply Qle_shift_div_l; [apply pow2_pos|].
  rewrite <- Ep. apply (exponent_spec q Hq).
Qed.

Lemma nearest_float_mono_pos (q q' : Q) :
  0 < q -> q <= q' -> nearest_float q <= nearest_float q'.
Proof.
  intros Hq Hle.
  assert (Hq' : 0 < q') by (apply Qlt_le_trans with q; assumption).
  pose proof (exponent_mono q q' Hq Hle) as He.
  destruct (Z.eq_dec (Z.max (exponent q) (-1022)) (Z.max (exponent q') (-1022)))
    as [Eq|Ne].
  - rewrite (nearest_float_nonzero q (pos_nonzero q Hq)).
    rewrite (nearest_float_nonzero q' (pos_nonzero q' Hq')).
    rewrite (ulp_of_pos q Hq), (ulp_of_pos q' Hq'), Eq.
    apply Qmult_le_compat_r; [|apply Qlt_le_weak, pow2_pos].
    rewrite <- Zle_Qle. apply round_float_mono.
    apply Qmult_le_compat_r; [exact Hle|].
    apply Qlt_le_weak, Qinv_lt_0_compat, pow2_pos.
  - apply Qle_trans with (2 ^ (Z.max (exponent q) (-1022) + 1));
      [apply nearest_float_upper, Hq|].
    apply Qle_trans with (2 ^ exponent q'); [apply pow2_le; lia|].
    apply nearest_float_lower; [exact Hq'|lia].
Qed.

Lemma nearest_float_mono (q q' : Q) : q <= q' -> nearest_float q <= nearest_float q'.
Proof.
  intro Hle.
  destruct (Qlt_le_dec 0 q) as [Hq|Hq].
  - apply nearest_float_mono_pos; assumption.
  - destruct (Qlt_le_dec q' 0) as [Hq'|Hq'].
    + assert (H : nearest_float (- q') <= nearest_float (- q)).
      { apply nearest_float_mono_pos; lra. }
      rewrite !nearest_float_opp in H. lra.
    + assert (H : 0 <= nearest_float (- q)) by (apply nearest_float_nonneg; lra).
      rewrite nearest_float_opp in H.
      pose proof (nearest_float_nonneg q' Hq'). lra.
Qed.

(** What [nearest_float] returns is a float. *)
Lemma nearest_float_idem_pos (q : Q) :
  0 < q -> nearest_float (nearest_float q) == nearest_float q.
Proof.
  intro Hq. set (x := nearest_float q).
  pose proof (nearest_float_nonneg q (Qlt_le_weak _ _ Hq)) as Hx0. fold x in Hx0.
  destruct (Qeq_dec x 0) as [Z|NZ].
  { rewrite (nearest_float_zero x Z), Z. reflexivity. }
  assert (Hx : 0 < x).
  { destruct (Qlt_le_dec 0 x); [assumption|]. exfalso. apply NZ. lra. }
  set (e := Z.max (exponent q) (-1022)).
  pose proof (nearest_float_upper q Hq) as Hup. fold x e in Hup.
  assert (Ex : x = inject_Z (round_float (q / ulp q)) * 2 ^ (e - 52)).
  { unfold x. rewrite (nearest_float_nonzero q (pos_nonzero q Hq)), (ulp_of_pos q Hq).
    reflexivity. }
  destruct (exponent_spec x Hx) as [X1 X2].
  destruct (Qlt_le_dec x (2 ^ (e + 1))) as [Hlt|Hge].
  - assert (He : (exponent x <= e)%Z).
    { assert (A : (exponent x < e + 1)%Z).
      { apply pow2_lt_inv. apply Qle_lt_trans with x; assumption. }
      lia. }
    set (e' := Z.max (exponent x) (-1022)).
    assert (He' : (e' <= e)%Z) by (unfold e', e in *; lia).
    apply (nearest_float_exact x (round_float (q / ulp q) * 2 ^ (e - e'))).
    rewrite (ulp_of_pos x Hx). fold e'. rewrite Ex at 1.
    rewrite inject_Z_mult, <- (pow2_inject (e - e')) by lia.
    rewrite <- Qmult_assoc, <- pow2_plus.
    apply Qmult_comp; [reflexivity|]. apply Qpower_comp; [reflexivity|lia].
  - assert (Exe : x == 2 ^ (e + 1)) by lra.
    assert (He : exponent x = (e + 1)%Z).
    { apply exponent_unique; rewrite Exe.
      - apply Qle_refl.
      - apply Qpower_lt_compat_l; [lia|reflexivity]. }
    apply (nearest_float_exact x (2 ^ 52)).
    rewrite (ulp_of_pos x Hx), He.
    replace (Z.max (e + 1) (-1022)) with (e + 1)%Z by (unfold e; lia).
    rewrite <- (pow2_inject 52) by lia. rewrite <- pow2_plus, Exe.
    apply Qpower_comp; [reflexivity|lia].
Qed.

Lemma nearest_float_idem (q : Q) : nearest_float (nearest_float q) == nearest_float q.
Proof.
  destruct (Qlt_le_dec 0 q) as [Hq|Hq]; [apply nearest_float_idem_pos, Hq|].
  destruct (Qeq_dec q 0) as [Z|NZ].
  - rewrite (nearest_float_zero q Z). reflexivity.
  - assert (Hn : 0 < - q).
    { destruct (Qlt_le_dec 0 (- q)); [assumption|]. exfalso. apply NZ. lra. }
    pose proof (nearest_float_idem_pos (- q) Hn) as H.
    rewrite (nearest_float_comp _ _ (nearest_float_opp q)) in H.
    rewrite !nearest_float_opp in H. lra.
Qed.

(** No float lies between [q] and the float nearest to it. *)
Lemma float_below (x q : Q) :
  nearest_float x == x -> x <= q -> x <= nearest_float q.
Proof. intros Hx Hle. rewrite <- Hx. apply nearest_float_mono, Hle. Qed.

Lemma float_above (x q : Q) :
  nearest_float x == x -> q <= x -> nearest_float q <= x.
Proof. intros Hx Hle. rewrite <- Hx. apply nearest_float_mono, Hle. Qed.


Lemma inject_nonzero (b : Z) : (0 < b)%Z -> ~ inject_Z b == 0.
Proof. intros Hb H. unfold Qeq, inject_Z in H. cbn in H. lia. Qed.

Lemma round_float_div (a b : Z) :
  (0 < b)%Z -> round_float (inject_Z a / inject_Z b) = round_half_even a b.
Proof.
  intro Hb. rewrite (round_float_comp _ (a # Z.to_pos b)).
  - unfold round_float. cbn [Qnum Qden]. rewrite Z2Pos.id by exact Hb. reflexivity.
  - rewrite (Qmake_Qdiv a (Z.to_pos b)), Z2Pos.id by exact Hb. reflexivity.
Qed.

Lemma near_div (a b m : Z) :
  (0 < b)%Z -> nearest_even a b m -> near (inject_Z a / inject_Z b) m.
Proof.
  intros Hb H. apply (near_comp (a # Z.to_pos b)).
  - rewrite (Qmake_Qdiv a (Z.to_pos b)), Z2Pos.id by exact Hb. reflexivity.
  - apply near_nearest_even. cbn [Qnum Qden]. rewrite Z2Pos.id by exact Hb. exact H.
Qed.

Lemma half_float : nearest_float (1 # 2) == 1 # 2.
Proof. reflexivity. Qed.

Lemma exponent_half : exponent (1 # 2) = (-1)%Z.
Proof. reflexivity. Qed.

(** The rounding of the quotient does not show in [round] as long as the
    dividend is below [2^52]. *)
Lemma round_nearest_float_pos (a b : Z) :
  (0 < a < 2 ^ 52)%Z -> (0 < b)%Z ->
  round_float (nearest_float (inject_Z a / inject_Z b)) = round_half_even a b.
Proof.
  intros Ha Hb.
  set (q := inject_Z a / inject_Z b). set (m := round_half_even a b).
  pose proof (round_half_even_nearest a b Hb) as N. fold m in N.
  assert (HB : 1 <= inject_Z b).
  { change 1 with (inject_Z 1). rewrite <- Zle_Qle. lia. }
  assert (HA : 0 < inject_Z a) by (change 0 with (inject_Z 0); rewrite <- Zlt_Qlt; lia).
  assert (HA52 : inject_Z a + 1 <= 2 ^ 52).
  { rewrite (pow2_inject 52) by lia. change 1 with (inject_Z 1).
    rewrite <- inject_Z_plus, <- Zle_Qle. lia. }
  assert (Hq : q * inject_Z b == inject_Z a).
  { unfold q. field. apply inject_nonzero, Hb. }
  assert (Hq0 : 0 < q).
  { unfold q. apply Qlt_shift_div_l; lra. }
  apply near_round.
  destruct (Qlt_le_dec (1 # 2) q) as [Hbig|Hsmall].
  - (* the quotient is above one half: it is a normal number *)
    assert (He1 : (-1 <= exponent q)%Z).
    { rewrite <- exponent_half. apply exponent_mono; lra. }
    destruct (exponent_spec q Hq0) as [S1 S2].
    assert (Hqa : q <= inject_Z a).
    { rewrite <- Hq. rewrite <- (Qmult_1_r q) at 1.
      apply Qmult_le_l; [exact Hq0|exact HB]. }
    assert (He2 : (exponent q < 52)%Z).
    { apply pow2_lt_inv. lra. }
    set (e := exponent q) in *.
    assert (Hu : ulp q = 2 ^ (e - 52)).
    { rewrite (ulp_of_pos q Hq0). fold e. f_equal. lia. }
    pose proof (pow2_pos (e - 52)) as Pu. pose proof (pow2_pos e) as Pe.
    assert (Eu : 2 ^ e == 2 ^ 52 * 2 ^ (e - 52)).
    { rewrite <- pow2_plus. apply Qpower_comp; [reflexivity|lia]. }
    assert (Hbu : inject_Z b * 2 ^ (e - 52) < 1).
    { assert (H1 : inject_Z b * 2 ^ e <= inject_Z a).
      { rewrite <- Hq, (Qmult_comm q). apply Qmult_le_l; lra. }
      assert (H2 : 2 ^ 52 * (inject_Z b * 2 ^ (e - 52)) < 2 ^ 52 * 1).
      { setoid_replace (2 ^ 52 * (inject_Z b * 2 ^ (e - 52)))
          with (inject_Z b * 2 ^ e) by (rewrite Eu; ring).
        lra. }
      apply Qmult_lt_l in H2; [exact H2|apply pow2_pos]. }
    destruct (Z.eq_dec (2 * Z.abs (m * b - a)) b) as [Tie|NoTie].
    + (* the quotient is half an odd integer, which is a float *)
      assert (Hj : exists j, (2 * a = j * b)%Z).
      { destruct (Z.abs_spec (m * b - a)) as [[_ E]|[_ E]]; rewrite E in Tie.
        - exists (2 * m - 1)%Z. lia.
        - exists (2 * m + 1)%Z. lia. }
      destruct Hj as [j Hj].
      assert (Ej : q == inject_Z j * (1 # 2)).
      { assert (E : 2 * inject_Z a == inject_Z j * inject_Z b).
        { change 2 with (inject_Z 2). rewrite <- !inject_Z_mult.
          rewrite Hj. reflexivity. }
        unfold q. field_simplify_eq; [lra|]. apply inject_nonzero, Hb. }
      assert (Ex : nearest_float q == q).
      { apply (nearest_float_exact q (j * 2 ^ (51 - e))). rewrite Hu.
        rewrite inject_Z_mult, <- (pow2_inject (51 - e)) by lia.
        rewrite <- Qmult_assoc, <- pow2_plus.
        replace (51 - e + (e - 52))%Z with (-1)%Z by lia. exact Ej. }
      apply (near_comp q); [symmetry; exact Ex|]. apply near_div; assumption.
    + (* the quotient is further from the half integers than the float is from it *)
      destruct N as [N1 _].
      assert (Hm : (2 * Z.abs (m * b - a) <= b - 1)%Z) by lia.
      assert (M1 : 2 * (inject_Z m * inject_Z b - inject_Z a) <= inject_Z b - 1).
      { change 2 with (inject_Z 2). change 1 with (inject_Z 1).
        rewrite <- !inject_Z_mult. unfold Qminus. rewrite <- !inject_Z_opp.
        rewrite <- !inject_Z_plus, <- inject_Z_mult, <- Zle_Qle. lia. }
      assert (M2 : - (inject_Z b - 1) <= 2 * (inject_Z m * inject_Z b - inject_Z a)).
      { change 2 with (inject_Z 2). change 1 with (inject_Z 1).
        rewrite <- !inject_Z_mult. unfold Qminus. rewrite <- !inject_Z_opp.
        rewrite <- !inject_Z_plus, <- inject_Z_mult, <- inject_Z_opp, <- Zle_Qle. lia. }
      rewrite <- Hq in M1, M2.
      pose proof (round_float_near (q / ulp q)) as [R _].
      apply Qabs_Qle_condition in R. rewrite Hu in R.
      rewrite (nearest_float_nonzero q (pos_nonzero q Hq0)), Hu.
      set (M := inject_Z (round_float (q / 2 ^ (e - 52)))) in *.
      set (u := 2 ^ (e - 52)) in *. set (B := inject_Z b) in *.
      set (im := inject_Z m) in *.
      assert (Rq : q / u * u == q) by (field; lra).
      assert (R1 : M * u - q <= u * (1 # 2)).
      { rewrite <- Rq at 1. destruct R as [_ R]. nra. }
      assert (R2 : - (u * (1 # 2)) <= M * u - q).
      { rewrite <- Rq at 1. destruct R as [R _]. nra. }
      assert (Strict : Qabs (im - M * u) < 1 # 2).
      { apply Qabs_Qlt_condition. split.
        - apply (Qmult_lt_l _ _ (2 * B)); [lra|]. nra.
        - apply (Qmult_lt_l _ _ (2 * B)); [lra|]. nra. }
      split; [apply Qlt_le_weak, Strict|].
      intro E. exfalso. apply (Qlt_not_eq _ _ Strict). exact E.
  - (* the quotient is at most one half *)
    assert (Hm0 : m = 0%Z).
    { apply (near_unique q); [apply near_div; assumption|].
      unfold near. setoid_replace (inject_Z 0 - q) with (- q) by ring.
      rewrite Qabs_opp, Qabs_pos by lra. split; [exact Hsmall|]. reflexivity. }
    rewrite Hm0.
    pose proof (nearest_float_nonneg q (Qlt_le_weak _ _ Hq0)) as X0.
    pose proof (float_above (1 # 2) q half_float Hsmall) as X1.
    unfold near. setoid_replace (inject_Z 0 - nearest_float q) with (- nearest_float q) by ring.
    rewrite Qabs_opp, Qabs_pos by exact X0. split; [exact X1|]. reflexivity.
Qed.

Lemma round_half_even_opp (a b : Z) :
  (0 < b)%Z -> round_half_even (- a) b = (- round_half_even a b)%Z.
Proof.
  intro Hb. rewrite <- !round_float_div by exact Hb.
  rewrite <- round_float_opp. apply round_float_comp.
  rewrite inject_Z_opp. field. apply inject_nonzero, Hb.
Qed.

Lemma round_nearest_float (a b : Z) :
  (Z.abs a < 2 ^ 52)%Z -> (0 < b)%Z ->
  round_float (nearest_float (inject_Z a / inject_Z b)) = round_half_even a b.
Proof.
  intros Ha Hb.
  pose proof (inject_nonzero b Hb) as NB.
  destruct (Z.lt_trichotomy a 0) as [Hn|[Hz|Hp]].
  - assert (E : inject_Z a / inject_Z b == - (inject_Z (- a) / inject_Z b)).
    { rewrite inject_Z_opp. field. exact NB. }
    rewrite (round_float_comp _ _ (nearest_float_comp _ _ E)).
    rewrite (round_float_comp _ _ (nearest_float_opp _)), round_float_opp.
    rewrite round_nearest_float_pos by lia.
    rewrite round_half_even_opp by exact Hb. lia.
  - subst a. rewrite nearest_float_zero.
    + rewrite <- (round_float_div 0 b Hb). apply round_float_comp. field. exact NB.
    + field. exact NB.
  - apply round_nearest_float_pos; lia.
Qed.

(** ... and the quotient is far from the largest float. *)
Lemma nearest_float_small (a b : Z) :
  (Z.abs a < 2 ^ 52)%Z -> (0 < b)%Z ->
  Qabs (nearest_float (inject_Z a / inject_Z b)) <= 2 ^ 52.
Proof.
  intros Ha Hb.
  assert (HB : 1 <= inject_Z b).
  { change 1 with (inject_Z 1). rewrite <- Zle_Qle. lia. }
  assert (F : nearest_float (2 ^ 52) == 2 ^ 52) by reflexivity.
  assert (F' : nearest_float (- 2 ^ 52) == - 2 ^ 52) by reflexivity.
  assert (A1 : inject_Z a <= 2 ^ 52).
  { rewrite (pow2_inject 52) by lia. rewrite <- Zle_Qle. lia. }
  assert (A2 : - 2 ^ 52 <= inject_Z a).
  { rewrite (pow2_inject 52) by lia. rewrite <- inject_Z_opp, <- Zle_Qle. lia. }
  assert (P : 0 < 2 ^ 52) by apply pow2_pos.
  apply Qabs_Qle_condition. split.
  - apply (float_below (- 2 ^ 52)); [exact F'|].
    apply Qle_shift_div_l; [lra|]. nra.
  - apply (float_above (2 ^ 52)); [exact F|].
    apply Qle_shift_div_r; [lra|]. nra.
Qed.

(** The integers up to [2^53] are floats. *)
Lemma nearest_float_int_pos (n : Z) :
  (0 < n <= 2 ^ 53)%Z -> nearest_float (inject_Z n) == inject_Z n.
Proof.
  intro Hn. set (q := inject_Z n).
  assert (Hq1 : 1 <= q).
  { unfold q. change 1 with (inject_Z 1). rewrite <- Zle_Qle. lia. }
  assert (Hq : 0 < q) by lra.
  assert (Hq2 : q <= 2 ^ 53).
  { unfold q. rewrite (pow2_inject 53) by lia. rewrite <- Zle_Qle. lia. }
  destruct (exponent_spec q Hq) as [S1 S2].
  assert (He0 : (0 <= exponent q)%Z).
  { assert (A : (0 < exponent q + 1)%Z).
    { apply pow2_lt_inv. apply Qle_lt_trans with q; [exact Hq1|exact S2]. }
    lia. }
  assert (He1 : (exponent q <= 53)%Z).
  { assert (A : (exponent q < 53 + 1)%Z).
    { apply pow2_lt_inv. apply Qle_lt_trans with q; [exact S1|].
      apply Qle_lt_trans with (2 ^ 53); [exact Hq2|].
      apply Qpower_lt_compat_l; [lia|reflexivity]. }
    lia. }
  set (e := exponent q) in *.
  assert (Hu : ulp q = 2 ^ (e - 52)).
  { rewrite (ulp_of_pos q Hq). fold e. f_equal. lia. }
  destruct (Z_le_gt_dec e 52) as [Hle|Hgt].
  - apply (nearest_float_exact q (n * 2 ^ (52 - e))). rewrite Hu.
    rewrite inject_Z_mult, <- (pow2_inject (52 - e)) by lia.
    rewrite <- Qmult_assoc, <- pow2_plus.
    replace (52 - e + (e - 52))%Z with 0%Z by lia.
    change (2 ^ 0) with 1. fold q. ring.
  - assert (E53 : e = 53%Z) by lia.
    apply (nearest_float_exact q (2 ^ 52)). rewrite Hu, E53.
    rewrite <- (pow2_inject 52) by lia. rewrite <- pow2_plus.
    replace (52 + (53 - 52))%Z with 53%Z by lia.
    rewrite E53 in S1. apply Qle_antisym; assumption.
Qed.

Lemma nearest_float_int (n : Z) :
  (Z.abs n <= 2 ^ 53)%Z -> nearest_float (inject_Z n) == inject_Z n.
Proof.
  intro Hn. destruct (Z.lt_trichotomy n 0) as [Hneg|[->|Hpos]].
  - assert (E : inject_Z n == - inject_Z (- n)).
    { rewrite inject_Z_opp. ring. }
    rewrite (nearest_float_comp _ _ E), nearest_float_opp.
    rewrite nearest_float_int_pos by lia. symmetry. exact E.
  - reflexivity.
  - apply nearest_float_int_pos. lia.
Qed.

End FloatFacts.

(* ===================================================================== *)
(** * Properties of the reconciler *)
(* ===================================================================== *)

Module ReconcilerFacts.
Import PyFacts.

Lemma get_default_set_same {V} (d : dict V) k v v0 :
  get_default (set d k v) k v0 = v.
Proof. unfold get_default. rewrite get_set_same. reflexivity. Qed.

Lemma get_default_set_other {V} (d : dict V) k k' v v0 :
  k <> k' -> get_default (set d k v) k' v0 = get_default d k' v0.
Proof. intro H. unfold get_default. rewrite get_set_other by exact H. reflexivity. Qed.

Lemma in_keys_set {V} (d : dict V) k v k' :
  In k' (keys (set d k v)) <-> k' = k \/ In k' (keys d).
Proof.
  rewrite keys_set. destruct (mem d k) eqn:E.
  - apply mem_true in E. split; [auto|]. intros [->|H]; assumption.
  - rewrite in_app_iff. simpl. intuition.
Qed.

Lemma history_loop_ok (pairs : list (string * option Z)) :
  forall acc, all_numbers pairs ->
  exists acc', history_loop acc pairs = Ok acc' /\ accumulated acc acc' pairs.
Proof.
  induction pairs as [|[t [a|]] pairs IH]; intros [sums counts] Hall.
  - exists (sums, counts). split; [reflexivity|].
    constructor; simpl; intros; unfold total, count; simpl; try lia; tauto.
  - inversion Hall as [|? ? _ Hall']; subst.
    simpl.
    destruct (IH (set sums (split_T_0 t) (get_default sums (split_T_0 t) 0 + a),
                  set counts (split_T_0 t) (get_default counts (split_T_0 t) 0 + 1))
                Hall') as (acc' & Hrun & Hacc).
    exists acc'. split; [exact Hrun|].
    destruct Hacc as [Hs Hc Hks Hkc Hnd]. simpl in *.
    constructor; simpl.
    + intro d. rewrite Hs. destruct (String.eqb_spec (split_T_0 t) d) as [->|Hne].
      * rewrite get_default_set_same. unfold total. simpl. lia.
      * rewrite get_default_set_other by exact Hne. reflexivity.
    + intro d. rewrite Hc. destruct (String.eqb_spec (split_T_0 t) d) as [->|Hne].
      * rewrite get_default_set_same. unfold count. simpl List.length. lia.
      * rewrite get_default_set_other by exact Hne. reflexivity.
    + intro d. rewrite Hks, in_keys_set. intuition.
    + intro d. rewrite Hkc, in_keys_set. intuition.
    + intro H. apply Hnd, NoDup_keys_set, H.
  - inversion Hall as [|? ? Hbad _]; subst. exfalso. apply Hbad. reflexivity.
Qed.

(** A [null] among the paired readings makes the loop raise. *)
Lemma history_loop_raises (pairs : list (string * option Z)) :
  forall acc, ~ all_numbers pairs -> exists e, history_loop acc pairs = Raise e.
Proof.
  induction pairs as [|[t [a|]] pairs IH]; intros [sums counts] Hnot.
  - exfalso. apply Hnot. constructor.
  - simpl. apply IH. intro H. apply Hnot. constructor; [discriminate|exact H].
  - simpl. eexists. reflexivity.
Qed.

Lemma readings_on_pos (d : string) (pairs : list (string * option Z)) :
  all_numbers pairs -> In d (dates_of pairs) -> 0 < count (readings_on d pairs).
Proof.
  unfold count. induction pairs as [|[t [a|]] pairs IH]; simpl; intros Hall Hin.
  - contradiction.
  - inversion Hall; subst.
    destruct (String.eqb_spec (split_T_0 t) d) as [E|Hne]; simpl List.length.
    + lia.
    + destruct Hin as [Hin|Hin]; [contradiction|]. apply IH; assumption.
  - inversion Hall as [|? ? Hbad _]; subst. exfalso. apply Hbad. reflexivity.
Qed.

Lemma item_in {V} (d : dict V) k v0 :
  In k (keys d) -> item d k = Ok (get_default d k v0).
Proof.
  intro Hin. unfold item, get_default.
  destruct (get d k) eqn:E; [reflexivity|].
  apply get_None in E. contradiction.
Qed.

(** ** The quotient and its rounding *)

Lemma true_divide_ok (a b : Z) (x : Q) :
  true_divide a b = Ok x -> x = nearest_float (inject_Z a / inject_Z b).
Proof.
  unfold true_divide. destruct (b =? 0); [discriminate|].
  destruct (Qle_bool _ _); [discriminate|]. intros [= <-]. reflexivity.
Qed.

(** Below [2^52] the quotient is in the range of the floats ... *)
Lemma true_divide_small (a b : Z) :
  Z.abs a < 2 ^ 52 -> 0 < b ->
  true_divide a b = Ok (nearest_float (inject_Z a / inject_Z b)).
Proof.
  intros Ha Hb. unfold true_divide.
  destruct (Z.eqb_spec b 0) as [E|_]; [lia|].
  destruct (Qle_bool _ _) eqn:B; [|reflexivity].
  exfalso. apply Qle_bool_iff in B.
  pose proof (FloatFacts.nearest_float_small a b Ha Hb) as Hs.
  assert (Hlt : (2 ^ 52 < 2 ^ 1024)%Q).
  { apply Qpower_lt_compat_l; [lia|reflexivity]. }
  apply (Qlt_irrefl (2 ^ 52)).
  apply Qlt_le_trans with (2 ^ 1024)%Q; [exact Hlt|].
  apply Qle_trans with (Qabs (nearest_float (inject_Z a / inject_Z b))); assumption.
Qed.

(** ... and its rounding is the rounding of the exact quotient. *)
Lemma average_entry_rounded (sums counts : dict Z) (d : string) :
  Z.abs (get_default sums d 0) < 2 ^ 52 -> 0 < get_default counts d 0 ->
  average_entry sums counts d =
    mkEntry d ("Avg. AQI (" ++ d ++ ")")
      (Some (round_half_even (get_default sums d 0) (get_default counts d 0))).
Proof.
  intros Hs Hc. unfold average_entry.
  rewrite FloatFacts.round_nearest_float by assumption. reflexivity.
Qed.

Lemma total_le_magnitude (d : string) (pairs : list (string * option Z)) :
  Z.abs (total (readings_on d pairs)) <= magnitude pairs.
Proof.
  unfold total. induction pairs as [|[t [a|]] pairs IH]; simpl.
  - lia.
  - destruct (String.eqb (split_T_0 t) d); simpl; lia.
  - destruct (String.eqb (split_T_0 t) d); simpl; exact IH.
Qed.

Lemma item_ok {V} (d : dict V) k v v0 :
  item d k = Ok v -> get_default d k v0 = v.
Proof.
  unfold item, get_default. destruct (get d k); [|discriminate].
  intros [= <-]. reflexivity.
Qed.

(** What the second loop returns, when it returns. *)
Lemma history_entries_inv (sums counts : dict Z) (dates : list string) :
  forall entries,
    history_entries sums counts dates = Ok entries ->
    entries = map (average_entry sums counts) dates.
Proof.
  induction dates as [|d dates IH]; intros entries H; simpl in H.
  - injection H as <-. reflexivity.
  - destruct (item sums d) as [s|] eqn:Es; [|discriminate].
    destruct (item counts d) as [c|] eqn:Ec; [|discriminate].
    cbn [bind] in H.
    destruct (true_divide s c) as [x|] eqn:Ex; [|discriminate].
    cbn [bind] in H.
    destruct (history_entries sums counts dates) as [rest|]; [|discriminate].
    cbn [bind] in H. injection H as <-.
    rewrite (IH rest eq_refl). cbn [map]. f_equal. unfold average_entry.
    rewrite (item_ok _ _ _ 0 Es), (item_ok _ _ _ 0 Ec), (true_divide_ok _ _ _ Ex).
    reflexivity.
Qed.

Lemma history_entries_ok (sums counts : dict Z) (dates : list string) :
  (forall d, In d dates ->
     In d (keys sums) /\ In d (keys counts) /\ 0 < get_default counts d 0 /\
     Z.abs (get_default sums d 0) < 2 ^ 52) ->
  history_entries sums counts dates = Ok (map (average_entry sums counts) dates).
Proof.
  induction dates as [|d dates IH]; intro H; simpl.
  - reflexivity.
  - destruct (H d (or_introl eq_refl)) as (Hs & Hc & Hpos & Hsmall).
    rewrite (item_in sums d 0 Hs), (item_in counts d 0 Hc). cbn [bind].
    rewrite (true_divide_small _ _ Hsmall Hpos). cbn [bind].
    rewrite IH by (intros; apply H; right; assumption).
    reflexivity.
Qed.

Lemma history_averages_ok (ts : list string) (aqius : list (option Z)) :
  all_numbers (zip ts aqius) ->
  magnitude (zip ts aqius) < 2 ^ 52 ->
  exists sums counts,
    accumulated ([], []) (sums, counts) (zip ts aqius) /\
    calculate_daily_history_averages (history_of ts aqius) =
      Ok (map (average_entry sums counts) (sorted (fun d => d) (keys sums))).
Proof.
  intros Hall Hsmall.
  destruct (history_loop_ok (zip ts aqius) ([], []) Hall) as ([sums counts] & Hrun & Hacc).
  destruct aqius as [|a aqius].
  - exists [], []. destruct ts; simpl in *; injection Hrun as <- <-;
      (split; [exact Hacc|reflexivity]).
  - exists sums, counts. split; [exact Hacc|].
    unfold calculate_daily_history_averages, history_of.
    cbn [h_pollution hp_ts hp_aqius]. rewrite Hrun. cbn [bind].
    apply history_entries_ok. intros d Hd.
    apply (Permutation_in _ (Permutation_sym (sorted_perm (fun d => d) (keys sums)))) in Hd.
    pose proof (total_le_magnitude d (zip ts (a :: aqius))) as Hmag.
    destruct Hacc as [Hs Hc Hks Hkc Hnd]. simpl in *.
    assert (Hdate : In d (dates_of (zip ts (a :: aqius)))).
    { apply Hks in Hd. destruct Hd as [[]|Hd]. exact Hd. }
    repeat split; [assumption|apply Hkc; right; exact Hdate| |].
    + rewrite Hc. unfold get_default. simpl. apply readings_on_pos; assumption.
    + rewrite Hs. unfold get_default. simpl. lia.
Qed.

(** The sum and the count of a date, in the two dictionaries of a run. *)
Lemma accumulated_date (sums counts : dict Z) (pairs : list (string * option Z))
    (d : string) :
  accumulated ([], []) (sums, counts) pairs ->
  get_default sums d 0 = total (readings_on d pairs) /\
  get_default counts d 0 = count (readings_on d pairs).
Proof.
  intros Hacc.
  pose proof (acc_sums _ _ _ Hacc d) as Hs.
  pose proof (acc_counts _ _ _ Hacc d) as Hc.
  cbn [fst snd] in Hs, Hc.
  change (get_default (@nil (string * Z)) d 0) with 0 in Hs, Hc.
  rewrite Hs, Hc, !Z.add_0_l. split; reflexivity.
Qed.

(** The entry of a date, for readings that are numbers of a magnitude below
    [2^52]. *)
Lemma average_entry_of_run (sums counts : dict Z) (pairs : list (string * option Z))
    (d : string) :
  accumulated ([], []) (sums, counts) pairs ->
  all_numbers pairs -> magnitude pairs < 2 ^ 52 -> In d (dates_of pairs) ->
  average_entry sums counts d =
    mkEntry d ("Avg. AQI (" ++ d ++ ")")
      (Some (round_half_even (total (readings_on d pairs))
                             (count (readings_on d pairs)))).
Proof.
  intros Hacc Hall Hsmall Hd.
  destruct (accumulated_date sums counts pairs d Hacc) as [Hs Hc].
  pose proof (total_le_magnitude d pairs) as Hmag.
  rewrite average_entry_rounded; [rewrite Hs, Hc; reflexivity|rewrite Hs; lia|].
  rewrite Hc. apply readings_on_pos; assumption.
Qed.

(** ** The list of averages *)

Lemma filter_on_date_out {A} (f : A -> DailyAqiEntry) (l : list A) (d : string) :
  (forall x, In x l -> date (f x) <> d) -> filter (on_date d) (map f l) = [].
Proof.
  induction l as [|x l IH]; intro H; simpl; [reflexivity|].
  unfold on_date at 1. destruct (String.eqb_spec (date (f x)) d) as [E|_].
  - exfalso. apply (H x); [left; reflexivity|exact E].
  - apply IH. intros y Hy. apply H. right. exact Hy.
Qed.

Lemma filter_average_in (sums counts : dict Z) (l : list string) (d : string) :
  NoDup l -> In d l ->
  filter (on_date d) (map (average_entry sums counts) l) = [average_entry sums counts d].
Proof.
  induction l as [|x l IH]; intros Hnd Hin; [contradiction|].
  inversion Hnd as [|? ? Hout Hnd']; subst. simpl.
  unfold on_date at 1. simpl date.
  destruct (String.eqb_spec x d) as [->|Hne].
  - f_equal. apply filter_on_date_out. intros y Hy E. simpl in E. subst y.
    contradiction.
  - destruct Hin as [->|Hin]; [contradiction|]. apply IH; assumption.
Qed.

Lemma map_date_average (sums counts : dict Z) (l : list string) :
  map date (map (average_entry sums counts) l) = l.
Proof. rewrite map_map. simpl. apply map_id. Qed.

(** ** The dictionary [all_daily_aqi] *)

Lemma keyed_nil : keyed [].
Proof. split; constructor. Qed.

Lemma set_Forall {V} (P : string * V -> Prop) (d : dict V) k v :
  Forall P d -> (forall k', P (k', v)) -> Forall P (set d k v).
Proof.
  intros Hd Hv. induction d as [|[k' v'] d IH]; simpl.
  - constructor; [apply Hv|constructor].
  - inversion Hd; subst. destruct (String.eqb k' k); constructor; auto.
Qed.

Lemma keyed_set (d : dict DailyAqiEntry) (e : DailyAqiEntry) :
  keyed d -> keyed (set d (date e) e).
Proof.
  intros [Hnd Hk]. split; [apply NoDup_keys_set; exact Hnd|].
  clear Hnd. induction d as [|[k' v'] d IH]; simpl.
  - constructor; [reflexivity|constructor].
  - inversion Hk; subst. simpl in *.
    destruct (String.eqb_spec k' (date e)) as [->|Hne]; constructor; simpl; auto.
Qed.

Lemma keyed_values_dates (d : dict DailyAqiEntry) :
  keyed d -> map date (values d) = keys d.
Proof.
  intros [_ Hk]. unfold values, keys. rewrite map_map.
  induction Hk as [|[k v] d Hkv _ IH]; simpl; [reflexivity|].
  simpl in Hkv. rewrite Hkv, IH. reflexivity.
Qed.

(** The entries of date [k] among the values are the one stored under [k]. *)
Lemma filter_values (d : dict DailyAqiEntry) (k : string) :
  keyed d ->
  filter (on_date k) (values d) =
    match get d k with Some e => [e] | None => [] end.
Proof.
  intros [Hnd Hk]. induction d as [|[k' v] d IH]; [reflexivity|].
  inversion Hnd as [|? ? Hout Hnd']; subst.
  inversion Hk as [|? ? Hkv Hk']; subst. simpl in Hkv. simpl.
  unfold on_date at 1. rewrite Hkv.
  destruct (String.eqb_spec k' k) as [->|Hne].
  - f_equal. unfold values. apply filter_on_date_out.
    intros [k2 v2] Hin E. rewrite Forall_forall in Hk'.
    specialize (Hk' _ Hin). simpl in *. apply Hout.
    replace k with k2 by congruence.
    apply (in_map fst) in Hin. exact Hin.
  - apply IH; assumption.
Qed.

Lemma keyed_add_history (d : dict DailyAqiEntry) (l : list DailyAqiEntry) :
  keyed d -> keyed (add_history d l).
Proof.
  revert d. induction l as [|e l IH]; intros d H; simpl; [exact H|].
  apply IH, keyed_set, H.
Qed.

Lemma keyed_add_forecast (d : dict DailyAqiEntry) (l : list DailyAqiEntry) :
  keyed d -> keyed (add_forecast d l).
Proof.
  revert d. induction l as [|e l IH]; intros d H; simpl; [exact H|].
  apply IH. destruct (mem d (date e)); [exact H|apply keyed_set, H].
Qed.

Lemma keyed_add_current (d : dict DailyAqiEntry) aqi_us current_date :
  keyed d -> keyed (add_current d aqi_us current_date).
Proof.
  intro H. unfold add_current. destruct aqi_us; [|exact H].
  apply (keyed_set d (mkEntry current_date "Current AQI" (Some z))), H.
Qed.

(** 4a: a date the history does not have is left alone ... *)
Lemma get_add_history_out (l : list DailyAqiEntry) :
  forall d k, ~ In k (map date l) -> get (add_history d l) k = get d k.
Proof.
  induction l as [|e l IH]; intros d k Hout; simpl; [reflexivity|].
  simpl in Hout. rewrite IH by tauto. apply get_set_other. tauto.
Qed.

(** ... and a date it has holds the history's entry. *)
Lemma get_add_history_in (l : list DailyAqiEntry) :
  forall d e, NoDup (map date l) -> In e l ->
  get (add_history d l) (date e) = Some e.
Proof.
  induction l as [|x l IH]; intros d e Hnd Hin; [contradiction|].
  simpl in Hnd. inversion Hnd as [|? ? Hout Hnd']; subst. simpl.
  destruct Hin as [->|Hin].
  - rewrite get_add_history_out by exact Hout. apply get_set_same.
  - apply IH; assumption.
Qed.

(** 4b: a date already present keeps its entry ... *)
Lemma get_add_forecast_present (l : list DailyAqiEntry) :
  forall d k e, get d k = Some e -> get (add_forecast d l) k = Some e.
Proof.
  induction l as [|x l IH]; intros d k e H; simpl; [exact H|].
  apply IH. unfold mem. destruct (get d (date x)) eqn:E; [exact H|].
  rewrite get_set_other; [exact H|]. intro Hk. subst k. congruence.
Qed.

(** ... and a date not yet present takes the first forecast entry of that
    date, if there is one. *)
Lemma get_add_forecast_absent (l : list DailyAqiEntry) :
  forall d k, get d k = None ->
  get (add_forecast d l) k = find (on_date k) l.
Proof.
  induction l as [|x l IH]; intros d k H; simpl; [exact H|].
  unfold on_date at 1. destruct (String.eqb_spec (date x) k) as [E|Hne].
  - subst k. unfold mem. rewrite H. apply get_add_forecast_present, get_set_same.
  - apply IH. destruct (mem d (date x)); [exact H|].
    rewrite get_set_other; assumption.
Qed.

Lemma get_add_current (d : dict DailyAqiEntry) aqi_us current_date k :
  get (add_current d aqi_us current_date) k =
    match aqi_us with
    | Some x => if String.eqb current_date k
                then Some (mkEntry current_date "Current AQI" (Some x))
                else get d k
    | None => get d k
    end.
Proof.
  unfold add_current. destruct aqi_us as [x|]; [|reflexivity].
  destruct (String.eqb_spec current_date k) as [->|Hne].
  - apply get_set_same.
  - apply get_set_other. exact Hne.
Qed.

Lemma find_on_date_none (l : list DailyAqiEntry) (k : string) :
  ~ In k (map date l) -> find (on_date k) l = None.
Proof.
  induction l as [|x l IH]; simpl; intro H; [reflexivity|].
  unfold on_date at 1. destruct (String.eqb_spec (date x) k); [tauto|].
  apply IH. tauto.
Qed.

(** The entries of one date in the combined series. *)
Lemma combine_on_date (history_averages forecast_aqis : list DailyAqiEntry)
    (aqi_us : option Z) (current_date k : string) :
  filter (on_date k)
    (combine_daily_aqi history_averages forecast_aqis aqi_us current_date) =
  match get (add_current (add_forecast (add_history [] history_averages)
                            forecast_aqis) aqi_us current_date) k with
  | Some e => [e]
  | None => []
  end.
Proof.
  unfold combine_daily_aqi.
  set (all := add_current _ _ _).
  assert (Hk : keyed all).
  { apply keyed_add_current, keyed_add_forecast, keyed_add_history, keyed_nil. }
  pose proof (filter_values all k Hk) as Hf.
  destruct (get all k).
  - apply sorted_filter_singleton. exact Hf.
  - apply sorted_filter_nil. exact Hf.
Qed.

(** ** What the two helper functions return *)

Lemma history_loop_inv (pairs : list (string * option Z)) :
  forall acc acc', history_loop acc pairs = Ok acc' -> all_numbers pairs.
Proof.
  induction pairs as [|[t [a|]] pairs IH]; intros [sums counts] acc' H.
  - constructor.
  - simpl in H. constructor; [discriminate|]. eapply IH. exact H.
  - simpl in H. discriminate.
Qed.

(** The averages are the [average_entry] of pairwise distinct dates. *)
Lemma history_averages_shape (history_data : option History)
    (history_averages : list DailyAqiEntry) :
  calculate_daily_history_averages history_data = Ok history_averages ->
  exists sums counts dates,
    history_averages = map (average_entry sums counts) dates /\ NoDup dates.
Proof.
  intro H.
  assert (Hnil : history_averages = [] ->
                 exists sums counts dates,
                   history_averages = map (average_entry sums counts) dates /\ NoDup dates).
  { intros ->. exists [], [], []. split; [reflexivity|constructor]. }
  destruct history_data as [[[[[ts|] [aqius|]]|]]|]; simpl in H;
    try (injection H as <-; apply Hnil; reflexivity).
  destruct aqius as [|a aqius]; [injection H as <-; apply Hnil; reflexivity|].
  destruct (history_loop ([], []) (zip ts (a :: aqius))) as [[sums counts]|e] eqn:Hrun;
    [|discriminate].
  pose proof (history_loop_inv _ _ _ Hrun) as Hall.
  destruct (history_loop_ok _ ([], []) Hall) as (acc' & Hrun' & Hacc).
  rewrite Hrun in Hrun'. injection Hrun' as <-.
  cbn [bind] in H. apply history_entries_inv in H. subst history_averages.
  exists sums, counts, (sorted (fun d => d) (keys sums)).
  split; [reflexivity|].
  eapply Permutation_NoDup; [apply sorted_perm|].
  apply (acc_nodup _ _ _ Hacc). constructor.
Qed.

Lemma history_averages_nodup (history_data : option History)
    (history_averages : list DailyAqiEntry) :
  calculate_daily_history_averages history_data = Ok history_averages ->
  NoDup (map date history_averages).
Proof.
  intro H. destruct (history_averages_shape _ _ H) as (s & c & l & -> & Hnd).
  rewrite map_date_average. exact Hnd.
Qed.

Lemma history_averages_label (history_data : option History)
    (history_averages : list DailyAqiEntry) (e : DailyAqiEntry) :
  calculate_daily_history_averages history_data = Ok history_averages ->
  In e history_averages -> label e = "Avg. AQI (" ++ date e ++ ")".
Proof.
  intros H Hin. destruct (history_averages_shape _ _ H) as (s & c & l & -> & _).
  apply in_map_iff in Hin. destruct Hin as (d & <- & _). reflexivity.
Qed.

Lemma forecast_entries_label (days : list ForecastDay) :
  forall entries e, forecast_entries days = Ok entries -> In e entries ->
  label e = "Forecast AQI (" ++ date e ++ ")".
Proof.
  induction days as [|day days IH]; intros entries e H Hin; simpl in H.
  - injection H as <-. contradiction.
  - destruct (fd_ts day) as [ts|]; [|discriminate].
    destruct (forecast_entries days) as [rest|] eqn:E; [|discriminate].
    simpl in H. injection H as <-. destruct Hin as [<-|Hin]; [reflexivity|].
    eapply IH; [reflexivity|exact Hin].
Qed.

Lemma forecast_label (forecast_data : option Forecast)
    (forecast_aqis : list DailyAqiEntry) (e : DailyAqiEntry) :
  calculate_daily_forecast_aqi forecast_data = Ok forecast_aqis ->
  In e forecast_aqis -> label e = "Forecast AQI (" ++ date e ++ ")".
Proof.
  intros H Hin. destruct forecast_data as [[[daily|]]|]; simpl in H;
    try (injection H as <-; contradiction).
  eapply forecast_entries_label; eassumption.
Qed.

Lemma get_add_history_find (l : list DailyAqiEntry) (k : string) :
  NoDup (map date l) -> get (add_history [] l) k = find (on_date k) l.
Proof.
  intro Hnd. destruct (find (on_date k) l) as [e|] eqn:E.
  - apply find_some in E. destruct E as [Hin Hk].
    apply String.eqb_eq in Hk. subst k. apply get_add_history_in; assumption.
  - rewrite get_add_history_out; [reflexivity|].
    intro Hin. apply in_map_iff in Hin. destruct Hin as (e & <- & Hin).
    pose proof (find_none _ _ E e Hin) as Hk. unfold on_date in Hk.
    rewrite String.eqb_refl in Hk. discriminate.
Qed.

Lemma combine_without_current (history_averages forecast_aqis : list DailyAqiEntry)
    (aqi_us : option Z) (current_date k : string) :
  NoDup (map date history_averages) ->
  aqi_us = None \/ k <> current_date ->
  filter (on_date k)
    (combine_daily_aqi history_averages forecast_aqis aqi_us current_date) =
  entry_by_priority history_averages forecast_aqis k.
Proof.
  intros Hnd Hk. rewrite combine_on_date, get_add_current.
  assert (Hget : get (add_forecast (add_history [] history_averages) forecast_aqis) k =
                 match find (on_date k) history_averages with
                 | Some e => Some e
                 | None => find (on_date k) forecast_aqis
                 end).
  { pose proof (get_add_history_find history_averages k Hnd) as Hh.
    destruct (find (on_date k) history_averages) as [e|].
    - apply get_add_forecast_present. exact Hh.
    - apply get_add_forecast_absent. exact Hh. }
  unfold entry_by_priority.
  destruct aqi_us as [x|].
  - destruct Hk as [Hk|Hk]; [discriminate|].
    destruct (String.eqb_spec current_date k) as [E|_]; [congruence|].
    rewrite Hget.
    destruct (find (on_date k) history_averages); [reflexivity|].
    destruct (find (on_date k) forecast_aqis); reflexivity.
  - rewrite Hget.
    destruct (find (on_date k) history_averages); [reflexivity|].
    destruct (find (on_date k) forecast_aqis); reflexivity.
Qed.

Lemma combine_with_current (history_averages forecast_aqis : list DailyAqiEntry)
    (x : Z) (current_date : string) :
  filter (on_date current_date)
    (combine_daily_aqi history_averages forecast_aqis (Some x) current_date) =
  [mkEntry current_date "Current AQI" (Some x)].
Proof.
  rewrite combine_on_date, get_add_current, String.eqb_refl. reflexivity.
Qed.

Lemma combine_strictly_ascending (history_averages forecast_aqis : list DailyAqiEntry)
    (aqi_us : option Z) (current_date : string) :
  strictly_ascending
    (combine_daily_aqi history_averages forecast_aqis aqi_us current_date).
Proof.
  unfold combine_daily_aqi, strictly_ascending.
  set (all := add_current _ _ _).
  assert (Hk : keyed all).
  { apply keyed_add_current, keyed_add_forecast, keyed_add_history, keyed_nil. }
  apply sorted_strict. rewrite keyed_values_dates by exact Hk. apply Hk.
Qed.

Lemma strictly_ascending_nodup (series : list DailyAqiEntry) :
  strictly_ascending series -> NoDup (map date series).
Proof.
  induction 1 as [|a l Hl IH Ha]; simpl; constructor; [|exact IH].
  intro Hin. apply in_map_iff in Hin. destruct Hin as (b & Hb & Hin).
  rewrite Forall_forall in Ha. specialize (Ha b Hin). rewrite Hb in Ha.
  rewrite str_lt_irrefl in Ha. discriminate.
Qed.

End ReconcilerFacts.

(* ===================================================================== *)
(** * Properties of the client *)
(* ===================================================================== *)

Module ClientFacts.
Import PyFacts ReconcilerFacts.

Lemma build_success_inv (env : Env) (city state country : string)
    (data : Payload) (r : AirQuality) :
  build_success env city state country data = Ok (Success r) ->
  summary_is_combined env r.
Proof.
  unfold build_success, daily_aqi_summary.
  destruct data as [status [[city_data|j]|]|j]; try discriminate.
  destruct (calculate_daily_history_averages (cd_history city_data)) as [ha|];
    [|discriminate].
  destruct (calculate_daily_forecast_aqi (cd_forecast city_data)) as [fa|];
    [|discriminate].
  cbn [bind]. intros [= <-]. exists ha, fa. reflexivity.
Qed.

Lemma build_success_never_fails (env : Env) (city state country : string)
    (data : Payload) (error : ErrorValue) :
  build_success env city state country data <> Ok (Failure error).
Proof.
  unfold build_success.
  destruct data as [status [[city_data|j]|]|j]; try discriminate.
  destruct (daily_aqi_summary _ _ _ _); discriminate.
Qed.

Lemma try_block_success (env : Env) (city state country : string)
    (initial_delay : Z) (w w' : World) (r : AirQuality) :
  try_block env city state country initial_delay w = (Ok (Return (Success r)), w') ->
  summary_is_combined env r.
Proof.
  unfold try_block.
  destruct (requests_get env (requests_made w)) as [response|]; [|discriminate].
  destruct (raise_for_status response); [discriminate|].
  destruct (json_body response) as [data|]; [|discriminate].
  destruct (is_success data) as [[|]|]; [| |discriminate].
  - destruct (build_success env city state country data) as [fr|] eqn:E;
      [|discriminate].
    intros [= -> _]. eapply build_success_inv. exact E.
  - destruct (status_code response =? 429).
    + destruct (sleep initial_delay _); discriminate.
    + destruct data as [status [d|]|j]; discriminate.
Qed.

Lemma attempt_once_success (env : Env) (city state country : string)
    (initial_delay : Z) (w w' : World) (r : AirQuality) :
  attempt_once env city state country initial_delay w = (Return (Success r), w') ->
  summary_is_combined env r.
Proof.
  unfold attempt_once.
  destruct (try_block env city state country initial_delay w) as [[step|e] w1] eqn:E.
  - intros [= -> ->]. eapply try_block_success. exact E.
  - destruct e as [code msg| | | | | | |]; try discriminate.
    destruct (code =? 429); [|discriminate].
    destruct (sleep initial_delay w1); discriminate.
Qed.

Lemma retry_loop_success (env : Env) (city state country : string)
    (max_retries : Z) (n : nat) :
  forall initial_delay w w' r,
  retry_loop env city state country max_retries n initial_delay w
    = (Returned (Success r), w') ->
  summary_is_combined env r.
Proof.
  induction n as [|n IH]; intros initial_delay w w' r H; simpl in H.
  - discriminate.
  - destruct (attempt_once env city state country initial_delay w)
      as [[fr|d'|e] w1] eqn:E.
    + injection H as -> ->. eapply attempt_once_success. exact E.
    + eapply IH. exact H.
    + discriminate.
Qed.

(** ** Rate limiting *)

Lemma after_after (w : World) (n m : nat) (l l' : list Z) :
  after (after w n l) m l' = after w (n + m) (l ++ l').
Proof. unfold after. simpl. rewrite Nat.add_assoc, app_assoc. reflexivity. Qed.

Lemma after_nothing (w : World) : after w 0 [] = w.
Proof. unfold after. rewrite Nat.add_0_r, app_nil_r. destruct w. reflexivity. Qed.

Lemma sleep_ok (d : Z) (w : World) :
  sleepable d -> sleep d w = Ok (mkWorld (requests_made w) (slept w ++ [d])).
Proof.
  intros [H0 H1]. assert (Hmax : 0 < sleep_max) by reflexivity. unfold sleep.
  destruct (Z.ltb_spec d (- sleep_max)); [lia|].
  destruct (Z.ltb_spec sleep_max d); [lia|].
  destruct (Z.ltb_spec d 0); [lia|reflexivity].
Qed.

(** Both ways of meeting a 429 end the turn alike: one sleep of the current
    delay, the delay doubled, and on to the next turn. *)
Lemma attempt_once_rate_limited (env : Env) (city state country : string)
    (initial_delay : Z) (w : World) :
  sleepable initial_delay ->
  rate_limited (requests_get env (requests_made w)) ->
  attempt_once env city state country initial_delay w =
    (Continue (initial_delay * 2), after w 1 [initial_delay]).
Proof.
  intros Hd Hlim. unfold attempt_once, try_block, after.
  rewrite Nat.add_1_r.
  inversion Hlim as [response msg Hcode Hraise Ho|response data Hcode Hraise Hjson Hs Ho];
    rewrite Hraise.
  - rewrite Hcode. simpl. rewrite sleep_ok by exact Hd. reflexivity.
  - rewrite Hjson, Hs, Hcode. simpl. rewrite sleep_ok by exact Hd. reflexivity.
Qed.

Lemma backoff_nonneg (k : nat) : forall d, 0 <= d -> 0 <= d * 2 ^ Z.of_nat k.
Proof. intros d Hd. apply Z.mul_nonneg_nonneg; [exact Hd|]. apply Z.pow_nonneg. lia. Qed.

(** [k] rate-limited answers in a row use up [k] turns. *)
Lemma retry_loop_skip (env : Env) (city state country : string) (max_retries : Z)
    (k : nat) :
  forall n initial_delay w,
  Forall sleepable (backoff k initial_delay) ->
  (forall i, (i < k)%nat -> rate_limited (requests_get env (requests_made w + i))) ->
  retry_loop env city state country max_retries (k + n) initial_delay w =
  retry_loop env city state country max_retries n
    (initial_delay * 2 ^ Z.of_nat k) (after w k (backoff k initial_delay)).
Proof.
  induction k as [|k IH]; intros n d w Hd Hlim.
  - simpl. rewrite after_nothing, Z.mul_1_r. reflexivity.
  - cbn [backoff] in Hd. inversion Hd as [|? ? Hd0 Hd']; subst.
    cbn [Nat.add retry_loop].
    rewrite attempt_once_rate_limited;
      [|exact Hd0|rewrite <- (Nat.add_0_r (requests_made w)); apply Hlim; lia].
    rewrite IH.
    + rewrite after_after. cbn [backoff app Nat.add].
      replace (d * 2 * 2 ^ Z.of_nat k) with (d * 2 ^ Z.of_nat (S k)).
      * reflexivity.
      * rewrite Nat2Z.inj_succ, Z.pow_succ_r by lia. ring.
    + exact Hd'.
    + intros i Hi. unfold after. simpl.
      replace (requests_made w + 1 + i)%nat with (requests_made w + S i)%nat by lia.
      apply Hlim. lia.
Qed.

(** ** Failures that are not rate limiting *)

(** The [except] clauses turn an exception that is not a 429 into a failure
    result. *)
Lemma handled (e : exn) :
  is_429 e = false ->
  exists error,
    forall initial_delay (w : World),
      match e with
      | HTTPError code msg =>
          if code =? 429 then
            match sleep initial_delay w with
            | Raise e' => (Propagate e', w)
            | Ok w'' => (Continue (initial_delay * 2), w'')
            end
          else (Return (Failure (ErrorText ("API HTTP Error: " ++ msg))), w)
      | RequestException msg =>
          (Return (Failure (ErrorText ("API Request Error: " ++ msg))), w)
      | _ => (Return (Failure (ErrorText ("An unexpected error occurred: " ++ str_exn e))), w)
      end = (Return (Failure error), w).
Proof.
  intro H. destruct e as [code msg|msg|key|msg|msg|msg|msg|msg]; simpl in H;
    try rewrite H; eexists; intros; reflexivity.
Qed.

Lemma is_success_raises (data : Payload) (e : exn) :
  is_success data = Raise e -> is_429 e = false.
Proof.
  destruct data as [[s|] d|j]; simpl; try discriminate.
  destruct (truthy j); [|discriminate]. intros [= <-]. reflexivity.
Qed.

Lemma forecast_entries_raises (days : list ForecastDay) (e : exn) :
  forecast_entries days = Raise e -> is_429 e = false.
Proof.
  induction days as [|day days IH]; simpl; [discriminate|].
  destruct (fd_ts day); [|intros [= <-]; reflexivity].
  destruct (forecast_entries days); simpl; [discriminate|].
  intros [= <-]. apply IH. reflexivity.
Qed.

Lemma history_loop_raises_no_429 (pairs : list (string * option Z)) :
  forall acc e, history_loop acc pairs = Raise e -> is_429 e = false.
Proof.
  induction pairs as [|[t [a|]] pairs IH]; intros [sums counts] e; simpl.
  - discriminate.
  - apply IH.
  - intros [= <-]. reflexivity.
Qed.

Lemma history_entries_raises (sums counts : dict Z) (dates : list string) (e : exn) :
  history_entries sums counts dates = Raise e -> is_429 e = false.
Proof.
  induction dates as [|d dates IH]; simpl; [discriminate|].
  unfold item.
  destruct (get sums d) as [s|]; cbn [bind]; [|intros [= <-]; reflexivity].
  destruct (get counts d) as [c|]; cbn [bind]; [|intros [= <-]; reflexivity].
  destruct (true_divide s c) as [x|e'] eqn:Ex; cbn [bind].
  - destruct (history_entries sums counts dates); cbn [bind]; [discriminate|].
    intros [= <-]. apply IH. reflexivity.
  - intros [= <-]. unfold true_divide in Ex.
    destruct (c =? 0); [injection Ex as <-; reflexivity|].
    destruct (Qle_bool _ _); [injection Ex as <-; reflexivity|discriminate].
Qed.

Lemma history_raises (history_data : option History) (e : exn) :
  calculate_daily_history_averages history_data = Raise e -> is_429 e = false.
Proof.
  destruct history_data as [[[[[ts|] [aqius|]]|]]|]; simpl; try discriminate.
  destruct aqius as [|a aqius]; [discriminate|].
  destruct (history_loop ([], []) (zip ts (a :: aqius))) as [[sums counts]|e'] eqn:E;
    cbn [bind].
  - apply history_entries_raises.
  - intros [= <-]. eapply history_loop_raises_no_429. exact E.
Qed.

Lemma build_success_raises (env : Env) (city state country : string)
    (data : Payload) (e : exn) :
  build_success env city state country data = Raise e -> is_429 e = false.
Proof.
  unfold build_success, daily_aqi_summary.
  destruct data as [status [[city_data|j]|]|j]; try (intros [= <-]; reflexivity).
  destruct (calculate_daily_history_averages (cd_history city_data)) as [ha|e'] eqn:Eh;
    cbn [bind].
  - destruct (calculate_daily_forecast_aqi (cd_forecast city_data)) as [fa|e'] eqn:Ef;
      cbn [bind]; [discriminate|].
    intros [= <-]. destruct (cd_forecast city_data) as [[[daily|]]|];
      simpl in Ef; try discriminate.
    eapply forecast_entries_raises. exact Ef.
  - intros [= <-]. eapply history_raises. exact Eh.
Qed.

(** Such an answer ends the turn with a failure result, whatever the
    delay: nothing is slept, nothing leaves the function. *)
Lemma attempt_once_fails (env : Env) (city state country : string)
    (initial_delay : Z) (w : World) :
  fails_without_429 env city state country (requests_get env (requests_made w)) ->
  exists error,
    attempt_once env city state country initial_delay w =
      (Return (Failure error), after w 1 []).
Proof.
  intro Hf. unfold attempt_once, try_block, after.
  rewrite Nat.add_1_r, app_nil_r.
  set (w1 := mkWorld (S (requests_made w)) (slept w)).
  inversion Hf as
    [response data Hraise Hjson Hs Hcode Ho
    |response msg Hraise Hcode Ho
    |msg Ho
    |e He Ho
    |response e Hraise Hjson He Ho
    |response data e Hraise Hjson Hs Ho
    |response data e Hraise Hjson Hs Hb Ho].
  - rewrite Hraise, Hjson, Hs.
    destruct (Z.eqb_spec (status_code response) 429); [contradiction|].
    destruct data as [status [d|]|j]; try (eexists; reflexivity).
  - rewrite Hraise.
    destruct (Z.eqb_spec (status_code response) 429); [contradiction|].
    eexists; reflexivity.
  - eexists; reflexivity.
  - destruct (handled e He) as [error Herr]. exists error. apply Herr.
  - rewrite Hraise, Hjson.
    destruct (handled e He) as [error Herr]. exists error. apply Herr.
  - rewrite Hraise, Hjson, Hs.
    destruct (handled e (is_success_raises _ _ Hs)) as [error Herr].
    exists error. apply Herr.
  - rewrite Hraise, Hjson, Hs, Hb.
    destruct (handled e (build_success_raises _ _ _ _ _ _ Hb)) as [error Herr].
    exists error. apply Herr.
Qed.

End ClientFacts.

(* ===================================================================== *)
(** * Properties of the catalog and of the matcher *)
(* ===================================================================== *)

Module MatcherFacts.
Import PyFacts.

Local Open Scope Q_scope.

Lemma Qltb_lt (a b : Q) : Qltb a b = true <-> a < b.
Proof.
  unfold Qltb. rewrite negb_true_iff. split.
  - intro H. apply Qnot_le_lt. intro Hle. apply Qle_bool_iff in Hle. congruence.
  - intro H. destruct (Qle_bool b a) eqn:E; [|reflexivity].
    apply Qle_bool_iff in E. exfalso. exact (Qlt_not_le _ _ H E).
Qed.

Lemma Qltb_ge (a b : Q) : Qltb a b = false <-> b <= a.
Proof.
  unfold Qltb. rewrite negb_false_iff. apply Qle_bool_iff.
Qed.

Section SortReverseFacts.
Context {A : Type} (key : A -> Q).

Lemma insert_desc_perm (x : A) (l : list A) :
  Permutation (x :: l) (insert_desc key x l).
Proof.
  induction l as [|y l IH]; simpl.
  - apply Permutation_refl.
  - destruct (Qltb (key x) (key y)).
    + eapply Permutation_trans; [apply perm_swap|]. constructor. exact IH.
    + apply Permutation_refl.
Qed.

Lemma sort_reverse_perm (l : list A) : Permutation l (sort_reverse key l).
Proof.
  induction l as [|x l IH]; simpl.
  - constructor.
  - eapply Permutation_trans; [|apply insert_desc_perm]. constructor. exact IH.
Qed.

Lemma insert_desc_sorted (x : A) (l : list A) :
  StronglySorted (desc key) l -> StronglySorted (desc key) (insert_desc key x l).
Proof.
  induction l as [|y l IH]; simpl; intro H.
  - repeat constructor.
  - apply StronglySorted_inv in H. destruct H as [Hl Hy].
    destruct (Qltb (key x) (key y)) eqn:E.
    + constructor; [apply IH; exact Hl|].
      eapply Permutation_Forall; [apply insert_desc_perm|].
      constructor; [|exact Hy].
      unfold desc. apply Qlt_le_weak, Qltb_lt, E.
    + apply Qltb_ge in E.
      constructor; [constructor; assumption|].
      constructor; [exact E|].
      rewrite Forall_forall in *. intros z Hz. specialize (Hy z Hz).
      unfold desc in *. eapply Qle_trans; eassumption.
Qed.

Lemma sort_reverse_sorted (l : list A) : StronglySorted (desc key) (sort_reverse key l).
Proof.
  induction l as [|x l IH]; simpl.
  - constructor.
  - apply insert_desc_sorted. exact IH.
Qed.

Lemma insert_desc_stable (v : Q) (x : A) (l : list A) :
  filter (has_key key v) (insert_desc key x l) = filter (has_key key v) (x :: l).
Proof.
  induction l as [|y l IH]; [reflexivity|].
  cbn [insert_desc]. destruct (Qltb (key x) (key y)) eqn:E; [|reflexivity].
  cbn [filter] in *. rewrite IH.
  destruct (has_key key v x) eqn:Hx, (has_key key v y) eqn:Hy; try reflexivity.
  exfalso. unfold has_key in *.
  apply Qeq_bool_iff in Hx, Hy. apply Qltb_lt in E.
  rewrite Hx, Hy in E. exact (Qlt_irrefl _ E).
Qed.

Lemma sort_reverse_stable (v : Q) (l : list A) :
  filter (has_key key v) (sort_reverse key l) = filter (has_key key v) l.
Proof.
  induction l as [|x l IH]; [reflexivity|].
  cbn [sort_reverse fold_right]. fold (sort_reverse key l).
  rewrite insert_desc_stable. cbn [filter]. rewrite IH. reflexivity.
Qed.

End SortReverseFacts.

Lemma In_firstn {A} (n : nat) (l : list A) (x : A) :
  In x (firstn n l) -> In x l.
Proof.
  intro H. rewrite <- (firstn_skipn n l). apply in_or_app. left. exact H.
Qed.

Lemma StronglySorted_firstn {A} (R : A -> A -> Prop) (n : nat) (l : list A) :
  StronglySorted R l -> StronglySorted R (firstn n l).
Proof.
  intro H. revert n. induction H as [|a l Hl IH Ha]; intros [|n]; simpl;
    try constructor.
  - apply IH.
  - rewrite Forall_forall in *. intros x Hx. apply Ha.
    eapply In_firstn. exact Hx.
Qed.

Lemma StronglySorted_filter {A} (R : A -> A -> Prop) (f : A -> bool) (l : list A) :
  StronglySorted R l -> StronglySorted R (filter f l).
Proof.
  induction 1 as [|a l Hl IH Ha]; simpl; [constructor|].
  destruct (f a); [|exact IH]. constructor; [exact IH|].
  rewrite Forall_forall in *. intros x Hx. apply Ha.
  apply filter_In in Hx. tauto.
Qed.

Lemma StronglySorted_map {A B} (R : A -> A -> Prop) (S : B -> B -> Prop)
    (g : A -> B) (l : list A) :
  (forall a b, R a b -> S (g a) (g b)) ->
  StronglySorted R l -> StronglySorted S (map g l).
Proof.
  intros HRS. induction 1 as [|a l Hl IH Ha]; simpl; constructor; [exact IH|].
  rewrite Forall_forall in *. intros y Hy. apply in_map_iff in Hy.
  destruct Hy as (x & <- & Hx). apply HRS, Ha, Hx.
Qed.

Lemma prefix_of_map {A B} (g : A -> B) (l1 l2 : list A) :
  prefix_of l1 l2 -> prefix_of (map g l1) (map g l2).
Proof. intros [t ->]. exists (map g t). apply map_app. Qed.

Lemma prefix_of_nil {A} (l : list A) : prefix_of [] l.
Proof. exists l. reflexivity. Qed.

Lemma filter_filter_comm {A} (f g : A -> bool) (l : list A) :
  filter f (filter g l) = filter g (filter f l).
Proof.
  induction l as [|x l IH]; simpl; [reflexivity|].
  destruct (f x) eqn:Hf, (g x) eqn:Hg; simpl; rewrite ?Hf, ?Hg, IH; reflexivity.
Qed.

Lemma filter_all {A} (f : A -> bool) (l : list A) :
  Forall (fun x => f x = true) l -> filter f l = l.
Proof.
  induction 1 as [|x l Hx _ IH]; simpl; [reflexivity|]. rewrite Hx, IH. reflexivity.
Qed.

Lemma filter_none {A} (f : A -> bool) (l : list A) :
  Forall (fun x => f x = false) l -> filter f l = [].
Proof.
  induction 1 as [|x l Hx _ IH]; simpl; [reflexivity|]. rewrite Hx, IH. reflexivity.
Qed.

(** ** The scores are floats *)

Lemma ratio_is_float `{Unicode} `{Difflib} (a b : string) :
  nearest_float (ratio a b) == ratio a b.
Proof.
  unfold ratio. destruct (len a + len b)%nat; [reflexivity|].
  apply FloatFacts.nearest_float_idem.
Qed.

Lemma score_is_float `{Unicode} `{Difflib} (query : string) (c : CityRecord) :
  nearest_float (score query c) == score query c.
Proof.
  unfold score.
  destruct (startswith _ _); [apply FloatFacts.nearest_float_idem|].
  destruct (contains _ _); [apply FloatFacts.nearest_float_idem|].
  apply ratio_is_float.
Qed.

(** No float lies between 0.3 and the float that the program compares the
    scores with: for a float, to be above the one is to be above the other. *)
Lemma above_threshold (x : Q) :
  nearest_float x == x -> Qltb (nearest_float (3 # 10)) x = true -> 3 # 10 < x.
Proof.
  intros Hx Hlt. apply Qltb_lt in Hlt. apply Qnot_le_lt. intro Hle.
  apply (Qlt_irrefl x). apply Qle_lt_trans with (nearest_float (3 # 10)); [|exact Hlt].
  apply FloatFacts.float_below; assumption.
Qed.

Lemma threshold_le : nearest_float (3 # 10) <= 3 # 10.
Proof. vm_compute. discriminate. Qed.

Lemma good_above (x : Q) : 3 # 10 < x -> Qltb (nearest_float (3 # 10)) x = true.
Proof.
  intro Hx. apply Qltb_lt. apply Qle_lt_trans with (3 # 10); [apply threshold_le|exact Hx].
Qed.

Lemma below_threshold (x : Q) :
  nearest_float x == x -> x <= 3 # 10 -> Qltb (nearest_float (3 # 10)) x = false.
Proof.
  intros Hx Hle. apply Qltb_ge. apply FloatFacts.float_below; assumption.
Qed.

(** ** [find_best_matches] *)

Section FindBestMatches.
Context `{Unicode} `{Difflib}.
Variable query : string.

Lemma find_best_matches_eq (file : DbFile) (limit : Z) :
  find_best_matches file query limit =
  map snd (filter good
    (slice_to (sort_reverse fst (scored query (load_cities_database file))) limit)).
Proof.
  unfold find_best_matches. destruct (load_cities_database file) as [|c db].
  - unfold slice_to. simpl. destruct (0 <=? limit); rewrite firstn_nil; reflexivity.
  - reflexivity.
Qed.

Lemma scored_pairs (db : list CityRecord) : Forall (scored_pair query) (scored query db).
Proof.
  unfold scored. rewrite Forall_forall. intros x Hx. apply in_map_iff in Hx.
  destruct Hx as (c & <- & _). reflexivity.
Qed.

Lemma kept_pairs (db : list CityRecord) (limit : Z) :
  Forall (scored_pair query) (filter good (slice_to (sort_reverse fst (scored query db)) limit)).
Proof.
  rewrite Forall_forall. intros x Hx. apply filter_In in Hx. destruct Hx as [Hx _].
  destruct (slice_to_firstn (sort_reverse fst (scored query db)) limit) as [k Hk].
  rewrite Hk in Hx. apply In_firstn in Hx.
  apply (Permutation_in _ (Permutation_sym (sort_reverse_perm fst (scored query db)))) in Hx.
  pose proof (scored_pairs db) as Hall. rewrite Forall_forall in Hall. auto.
Qed.

Lemma matches_length (file : DbFile) (limit : Z) :
  (0 <= limit)%Z ->
  (Z.of_nat (List.length (find_best_matches file query limit)) <= limit)%Z.
Proof.
  intro Hl. rewrite find_best_matches_eq, length_map.
  set (l := slice_to _ limit).
  pose proof (slice_to_length (sort_reverse fst (scored query (load_cities_database file)))
                limit Hl) as Hs.
  fold l in Hs. pose proof (filter_length_le good l). lia.
Qed.

Lemma matches_descending (file : DbFile) (limit : Z) :
  StronglySorted (fun a b => score query b <= score query a)
    (find_best_matches file query limit).
Proof.
  rewrite find_best_matches_eq.
  set (db := load_cities_database file).
  pose proof (kept_pairs db limit) as Hk.
  assert (Hs : StronglySorted (desc fst)
                 (filter good (slice_to (sort_reverse fst (scored query db)) limit))).
  { apply StronglySorted_filter.
    destruct (slice_to_firstn (sort_reverse fst (scored query db)) limit) as [k ->].
    apply StronglySorted_firstn, sort_reverse_sorted. }
  revert Hk Hs. generalize (filter good (slice_to (sort_reverse fst (scored query db)) limit)).
  intros l Hk Hs. induction Hs as [|a l Hl IH Ha]; simpl; constructor.
  - apply IH. inversion Hk; assumption.
  - inversion Hk as [|? ? Hka Hkl]; subst.
    rewrite Forall_forall in *. intros c Hc. apply in_map_iff in Hc.
    destruct Hc as (x & <- & Hx). specialize (Ha x Hx). specialize (Hkl x Hx).
    unfold desc, scored_pair in *. rewrite <- Hka, <- Hkl. exact Ha.
Qed.

Lemma matches_above_threshold (file : DbFile) (limit : Z) :
  Forall (fun c => 3 # 10 < score query c) (find_best_matches file query limit).
Proof.
  rewrite find_best_matches_eq.
  pose proof (kept_pairs (load_cities_database file) limit) as Hk.
  rewrite Forall_forall in *. intros c Hc. apply in_map_iff in Hc.
  destruct Hc as (x & <- & Hx). pose proof (Hk x Hx) as Hsx.
  apply filter_In in Hx. destruct Hx as [_ Hg]. unfold good in Hg.
  unfold scored_pair in Hsx. rewrite Hsx in Hg.
  apply above_threshold; [apply score_is_float|exact Hg].
Qed.

Lemma matches_from_catalog (file : DbFile) (limit : Z) (c : CityRecord) :
  In c (find_best_matches file query limit) -> In c (load_cities_database file).
Proof.
  rewrite find_best_matches_eq. intro Hc. apply in_map_iff in Hc.
  destruct Hc as (x & <- & Hx). apply filter_In in Hx. destruct Hx as [Hx _].
  destruct (slice_to_firstn (sort_reverse fst (scored query (load_cities_database file)))
              limit) as [k Hk].
  rewrite Hk in Hx. apply In_firstn in Hx.
  apply (Permutation_in _ (Permutation_sym (sort_reverse_perm fst _))) in Hx.
  unfold scored in Hx. apply in_map_iff in Hx. destruct Hx as (c & <- & Hc).
  exact Hc.
Qed.

Lemma matches_none (file : DbFile) (limit : Z) :
  (forall c, In c (load_cities_database file) -> score query c <= 3 # 10) ->
  find_best_matches file query limit = [].
Proof.
  intro Hlow.
  destruct (find_best_matches file query limit) as [|c l] eqn:E; [reflexivity|].
  exfalso.
  assert (Hin : In c (find_best_matches file query limit)) by (rewrite E; left; reflexivity).
  pose proof (matches_above_threshold file limit) as Hab.
  rewrite Forall_forall in Hab. specialize (Hab c Hin).
  apply matches_from_catalog in Hin. specialize (Hlow c Hin).
  exact (Qlt_not_le _ _ Hab Hlow).
Qed.

Lemma with_score_pairs (v : Q) (l : list (Q * CityRecord)) :
  Forall (scored_pair query) l ->
  with_score query v (map snd l) = map snd (filter (has_key fst v) l).
Proof.
  induction 1 as [|x l Hx _ IH]; [reflexivity|].
  unfold with_score in *. simpl. unfold has_key at 1. rewrite <- Hx.
  destruct (Qeq_bool (fst x) v); simpl; rewrite IH; reflexivity.
Qed.

Lemma good_on_key (v : Q) (l : list (Q * CityRecord)) :
  filter good (filter (has_key fst v) l) = filter (has_key fst v) l \/
  filter good (filter (has_key fst v) l) = [].
Proof.
  destruct (Qltb (nearest_float (3 # 10)) v) eqn:E;
    [left; apply filter_all|right; apply filter_none];
    rewrite Forall_forall; intros x Hx; apply filter_In in Hx; destruct Hx as [_ Hx];
    unfold has_key in Hx; apply Qeq_bool_iff in Hx; unfold good.
  - apply Qltb_lt. rewrite Hx. apply Qltb_lt. exact E.
  - apply Qltb_ge. rewrite Hx. apply Qltb_ge. exact E.
Qed.

Lemma matches_stable (file : DbFile) (limit : Z) (v : Q) :
  prefix_of (with_score query v (find_best_matches file query limit))
            (with_score query v (load_cities_database file)).
Proof.
  rewrite find_best_matches_eq.
  set (db := load_cities_database file).
  rewrite with_score_pairs by apply kept_pairs.
  replace (with_score query v db) with (map snd (filter (has_key fst v) (scored query db))).
  - apply prefix_of_map. rewrite filter_filter_comm.
    destruct (slice_to_firstn (sort_reverse fst (scored query db)) limit) as [k ->].
    assert (Hp : prefix_of (filter (has_key fst v) (firstn k (sort_reverse fst (scored query db))))
                           (filter (has_key fst v) (scored query db))).
    { rewrite <- (sort_reverse_stable fst v (scored query db)). apply filter_firstn_prefix. }
    destruct (good_on_key v (firstn k (sort_reverse fst (scored query db)))) as [-> | ->].
    + exact Hp.
    + apply prefix_of_nil.
  - rewrite <- with_score_pairs by apply scored_pairs.
    unfold scored. rewrite map_map. simpl. rewrite map_id. reflexivity.
Qed.

End FindBestMatches.

End MatcherFacts.

(* ===================================================================== *)
(** * Specification of the reconciler *)
(* ===================================================================== *)

Import PyFacts ReconcilerFacts ClientFacts MatcherFacts.

Lemma find_on_date_in (l : list DailyAqiEntry) (e : DailyAqiEntry) :
  NoDup (map date l) -> In e l -> find (on_date (date e)) l = Some e.
Proof.
  induction l as [|x l IH]; intros Hnd Hin; [contradiction|].
  simpl in Hnd. inversion Hnd as [|? ? Hout Hnd']; subst. simpl.
  unfold on_date at 1. destruct (String.eqb_spec (date x) (date e)) as [E|Hne].
  - destruct Hin as [->|Hin]; [reflexivity|].
    exfalso. apply Hout. rewrite E. apply in_map. exact Hin.
  - destruct Hin as [->|Hin]; [contradiction|]. apply IH; assumption.
Qed.

(** C1.  Whatever the history and the forecast are, when the current AQI is
    [x] the series has exactly one entry for the current UTC date, the entry
    [{date, "Current AQI", x}]; when there is no current AQI, the entries of
    that date are the one the history supplied, else the first one the
    forecast supplied, else none. *)
Theorem current_reading_wins (history_data : option History)
    (forecast_data : option Forecast) (current_date : string)
    (history_averages forecast_aqis : list DailyAqiEntry) :
  calculate_daily_history_averages history_data = Ok history_averages ->
  calculate_daily_forecast_aqi forecast_data = Ok forecast_aqis ->
  (forall x : Z,
     exists series,
       daily_aqi_summary history_data forecast_data (Some x) current_date = Ok series /\
       filter (on_date current_date) series =
         [mkEntry current_date "Current AQI" (Some x)]) /\
  (exists series,
     daily_aqi_summary history_data forecast_data None current_date = Ok series /\
     filter (on_date current_date) series =
       entry_by_priority history_averages forecast_aqis current_date).
Proof.
  intros Hh Hf. unfold daily_aqi_summary. rewrite Hh, Hf. cbn [bind]. split.
  - intro x. eexists. split; [reflexivity|]. apply combine_with_current.
  - eexists. split; [reflexivity|]. apply combine_without_current.
    + eapply history_averages_nodup. exact Hh.
    + left. reflexivity.
Qed.

(** C3, as amended.  On every date other than the current date of a present
    current AQI: an entry of the history averages is the entry of its date in
    the series, with its "Avg. AQI (<date>)" label, whether or not the
    forecast has that date too; and on a date the history averages do not
    have, the first forecast entry of that date is the entry of the series,
    with its "Forecast AQI (<date>)" label. *)
Theorem merge_priority_except_today (history_data : option History)
    (forecast_data : option Forecast) (aqi_us : option Z) (current_date : string)
    (history_averages forecast_aqis : list DailyAqiEntry) :
  calculate_daily_history_averages history_data = Ok history_averages ->
  calculate_daily_forecast_aqi forecast_data = Ok forecast_aqis ->
  exists series,
    daily_aqi_summary history_data forecast_data aqi_us current_date = Ok series /\
    forall d, aqi_us = None \/ d <> current_date ->
      (forall e, In e history_averages -> date e = d ->
         filter (on_date d) series = [e] /\
         label e = "Avg. AQI (" ++ d ++ ")") /\
      (~ In d (map date history_averages) ->
       forall e, find (on_date d) forecast_aqis = Some e ->
         filter (on_date d) series = [e] /\
         label e = "Forecast AQI (" ++ d ++ ")").
Proof.
  intros Hh Hf. unfold daily_aqi_summary. rewrite Hh, Hf. cbn [bind].
  eexists. split; [reflexivity|]. intros d Hd.
  pose proof (history_averages_nodup _ _ Hh) as Hnd.
  rewrite (combine_without_current _ _ _ _ _ Hnd Hd). unfold entry_by_priority.
  split.
  - intros e Hin He. subst d. rewrite (find_on_date_in _ _ Hnd Hin).
    split; [reflexivity|]. eapply history_averages_label; eassumption.
  - intros Hout e He. rewrite (find_on_date_none _ _ Hout), He.
    split; [reflexivity|]. apply find_some in He. destruct He as [Hin Hk].
    apply String.eqb_eq in Hk. subst d. eapply forecast_label; eassumption.
Qed.

(** C6.  The series [daily_aqi_summary] computes, and so the one a success
    result of [get_air_quality_data] carries, has strictly ascending dates:
    it is sorted by date and no date occurs twice. *)
Theorem summary_sorted_one_per_date :
  (forall history_data forecast_data aqi_us current_date series,
     daily_aqi_summary history_data forecast_data aqi_us current_date = Ok series ->
     strictly_ascending series /\ NoDup (map date series)) /\
  (forall env city state country max_retries initial_delay w w' r,
     get_air_quality_data env city state country max_retries initial_delay w
       = (Returned (Success r), w') ->
     strictly_ascending (r_daily_aqi_summary r) /\
     NoDup (map date (r_daily_aqi_summary r))).
Proof.
  split.
  - intros history_data forecast_data aqi_us current_date series.
    unfold daily_aqi_summary.
    destruct (calculate_daily_history_averages history_data) as [ha|]; [|discriminate].
    destruct (calculate_daily_forecast_aqi forecast_data) as [fa|]; [|discriminate].
    cbn [bind]. intros [= <-].
    pose proof (combine_strictly_ascending ha fa aqi_us current_date) as Hs.
    split; [exact Hs|apply strictly_ascending_nodup, Hs].
  - intros env city state country max_retries initial_delay w w' r Hrun.
    unfold get_air_quality_data in Hrun. apply retry_loop_success in Hrun.
    destruct Hrun as (ha & fa & ->).
    pose proof (combine_strictly_ascending ha fa (r_aqi_us r) (utc_date env)) as Hs.
    split; [exact Hs|apply strictly_ascending_nodup, Hs].
Qed.

(** C9.  When the paired readings are numbers whose sizes add up to less
    than [2^52], every date of a paired timestamp has exactly one entry in
    the averages; its label is "Avg. AQI (<date>)" and its [aqi] is the mean
    of that date's readings rounded to the nearest integer, a tie going to
    the even one: the rounding of the float quotient does not show. *)
Theorem history_average_is_rounded_mean (ts : list string) (aqius : list (option Z)) :
  all_numbers (zip ts aqius) ->
  magnitude (zip ts aqius) < 2 ^ 52 ->
  exists averages,
    calculate_daily_history_averages (history_of ts aqius) = Ok averages /\
    forall d, In d (dates_of (zip ts aqius)) ->
      exists m,
        filter (on_date d) averages = [mkEntry d ("Avg. AQI (" ++ d ++ ")") (Some m)] /\
        nearest_even (total (readings_on d (zip ts aqius)))
                     (count (readings_on d (zip ts aqius))) m.
Proof.
  intros Hall Hsmall.
  destruct (history_averages_ok ts aqius Hall Hsmall) as (sums & counts & Hacc & Heq).
  eexists. split; [exact Heq|]. intros d Hd.
  exists (round_half_even (total (readings_on d (zip ts aqius)))
                          (count (readings_on d (zip ts aqius)))). split.
  - rewrite filter_average_in.
    + rewrite (average_entry_of_run _ _ _ _ Hacc Hall Hsmall Hd). reflexivity.
    + eapply Permutation_NoDup; [apply sorted_perm|].
      apply (acc_nodup _ _ _ Hacc). constructor.
    + apply (Permutation_in _ (sorted_perm (fun x => x) (keys sums))).
      apply (acc_keys_sums _ _ _ Hacc). right. exact Hd.
  - apply round_half_even_nearest. apply readings_on_pos; assumption.
Qed.

(** C10.  The arrays [ts] and [aqius] are read through [zip]: the function
    returns what it returns on their first [min(len(ts), len(aqius))]
    elements, the same list or the same exception.  When the readings among
    those are numbers whose sizes add up to less than [2^52], it returns a
    list: its dates are the dates of the first [min] timestamps, and each
    average is the rounded mean of the readings of its date among the first
    [min] readings, whatever the rest of the longer array holds. *)
Theorem history_reads_paired_prefix (ts : list string) (aqius : list (option Z)) :
  let n := Nat.min (List.length ts) (List.length aqius) in
  let paired := zip (firstn n ts) (firstn n aqius) in
  calculate_daily_history_averages (history_of ts aqius) =
  calculate_daily_history_averages (history_of (firstn n ts) (firstn n aqius)) /\
  (all_numbers paired -> magnitude paired < 2 ^ 52 ->
   exists averages,
     calculate_daily_history_averages (history_of ts aqius) = Ok averages /\
     (forall d, In d (map date averages) <-> In d (dates_of paired)) /\
     forall e, In e averages ->
       exists m,
         aqi e = Some m /\
         nearest_even (total (readings_on (date e) paired))
                      (count (readings_on (date e) paired)) m).
Proof.
  intros n paired. split.
  - unfold calculate_daily_history_averages, history_of.
    cbn [h_pollution hp_ts hp_aqius].
    pose proof (zip_firstn_min ts aqius) as Hz. fold n in Hz.
    destruct aqius as [|a aqius].
    + destruct (firstn n []) eqn:E; [reflexivity|].
      rewrite firstn_nil in E. discriminate.
    + destruct (firstn n (a :: aqius)) as [|a' aqius'] eqn:E.
      * assert (Hn : n = 0%nat).
        { destruct n; [reflexivity|discriminate]. }
        assert (Hts : ts = []).
        { destruct ts; [reflexivity|]. unfold n in Hn. simpl in Hn. discriminate. }
        subst ts. reflexivity.
      * rewrite Hz. reflexivity.
  - unfold paired, n. rewrite (zip_firstn_min ts aqius). intros Hall Hsmall.
    destruct (history_averages_ok ts aqius Hall Hsmall) as (sums & counts & Hacc & Heq).
    eexists. split; [exact Heq|]. split.
    + intro d. rewrite map_date_average. split; intro Hd.
      * apply (Permutation_in _ (Permutation_sym (sorted_perm (fun x => x) (keys sums))))
          in Hd.
        apply (acc_keys_sums _ _ _ Hacc) in Hd. destruct Hd as [[]|Hd]. exact Hd.
      * apply (Permutation_in _ (sorted_perm (fun x => x) (keys sums))).
        apply (acc_keys_sums _ _ _ Hacc). right. exact Hd.
    + intros e He. apply in_map_iff in He. destruct He as (d & <- & Hd).
      apply (Permutation_in _ (Permutation_sym (sorted_perm (fun x => x) (keys sums))))
        in Hd.
      apply (acc_keys_sums _ _ _ Hacc) in Hd. destruct Hd as [[]|Hd].
      rewrite (average_entry_of_run _ _ _ _ Hacc Hall Hsmall Hd). cbn [date aqi].
      eexists. split; [reflexivity|].
      apply round_half_even_nearest. apply readings_on_pos; assumption.
Qed.

(* ===================================================================== *)
(** * Specification of the client *)
(* ===================================================================== *)

(** C2.  With [max_retries = 3] and the delay starting at 1: when the
    remote answers 429 twice and then with a city payload, the call returns
    the success result after three requests and exactly two sleeps, of 1 and
    of 2.  With any [max_retries] and any delay [d >= 0]: when the remote
    answers 429 to every attempt, the call returns the failure result that
    names the exhausted retries, after [max_retries] requests and the sleeps
    [d], [2 d], [4 d], ...  A 429 raised by [raise_for_status] and a 429 left
    as the status of a response are retried alike: [rate_limited] is either
    of them. *)
Theorem retry_on_rate_limit (env : Env) (city state country : string) (w : World) :
  (forall r,
     rate_limited (requests_get env (requests_made w)) ->
     rate_limited (requests_get env (requests_made w + 1)) ->
     succeeds env city state country (requests_get env (requests_made w + 2)) r ->
     get_air_quality_data env city state country 3 1 w =
       (Returned (Success r), after w 3 [1; 2])) /\
  (forall max_retries initial_delay,
     Forall sleepable (backoff (Z.to_nat max_retries) initial_delay) ->
     (forall i, (i < Z.to_nat max_retries)%nat ->
                rate_limited (requests_get env (requests_made w + i))) ->
     get_air_quality_data env city state country max_retries initial_delay w =
       (Returned (exhausted city max_retries),
        after w (Z.to_nat max_retries) (backoff (Z.to_nat max_retries) initial_delay))).
Proof.
  split.
  - intros r H0 H1 (response & data & Ho & Hraise & Hjson & Hs & Hb).
    unfold get_air_quality_data.
    change (Z.to_nat 3) with (2 + 1)%nat.
    rewrite retry_loop_skip.
    + cbn [retry_loop]. unfold attempt_once, try_block.
      cbn [after requests_made slept backoff].
      rewrite Ho, Hraise, Hjson, Hs, Hb. unfold after.
      replace (requests_made w + 3)%nat with (S (requests_made w + 2)) by lia.
      reflexivity.
    + repeat constructor; unfold sleep_max; lia.
    + intros i Hi. destruct i as [|[|i]]; [|exact H1|lia].
      rewrite Nat.add_0_r. exact H0.
  - intros max_retries initial_delay Hd Hlim.
    unfold get_air_quality_data.
    rewrite <- (Nat.add_0_r (Z.to_nat max_retries)) at 1.
    rewrite retry_loop_skip; [reflexivity|exact Hd|exact Hlim].
Qed.

(** C7.  When the remote answers an attempt with a failure that is not a
    429 (a payload whose status is not "success", an HTTP error other
    than 429, a network failure, or anything that raises an unexpected
    exception), the call returns a failure result at once: the attempts
    before it, all rate limited, have slept their backoff, this one sends one
    request and sleeps nothing, no further attempt is made and no exception
    reaches the caller. *)
Theorem failure_returns_at_once (env : Env) (city state country : string)
    (max_retries initial_delay : Z) (w : World) (k : nat) :
  (k < Z.to_nat max_retries)%nat ->
  Forall sleepable (backoff k initial_delay) ->
  (forall i, (i < k)%nat -> rate_limited (requests_get env (requests_made w + i))) ->
  fails_without_429 env city state country (requests_get env (requests_made w + k)) ->
  exists error,
    get_air_quality_data env city state country max_retries initial_delay w =
      (Returned (Failure error), after w (k + 1) (backoff k initial_delay)).
Proof.
  intros Hk Hd Hlim Hfail. unfold get_air_quality_data.
  replace (Z.to_nat max_retries) with (k + S (Z.to_nat max_retries - S k))%nat by lia.
  rewrite retry_loop_skip by assumption.
  cbn [retry_loop].
  destruct (attempt_once_fails env city state country
              (initial_delay * 2 ^ Z.of_nat k) (after w k (backoff k initial_delay)) Hfail)
    as [error Herr].
  rewrite Herr. exists error. rewrite after_after, app_nil_r. reflexivity.
Qed.

(* ===================================================================== *)
(** * Specification of the catalog and of the matcher *)
(* ===================================================================== *)

Lemma same_city_new_entry `{Unicode} (city' state' country' : string) :
  same_city city' state' country' (new_entry city' state' country') = true.
Proof. unfold same_city, new_entry. simpl. rewrite !String.eqb_refl. reflexivity. Qed.

Lemma existsb_filter_nil {A} (f : A -> bool) (l : list A) :
  existsb f l = false <-> filter f l = [].
Proof.
  induction l as [|x l IH]; simpl; [tauto|].
  destruct (f x); simpl; [split; discriminate|exact IH].
Qed.

(** C8.  A second call with the same triple changes nothing.  When no
    record of the catalog is that city, case apart, the first call appends
    the new record and writes the file; when one is, the first call leaves
    the file as it is.  After the two calls the catalog holds one matching
    record, or as many as it held before if it held more than one. *)
Theorem add_city_twice `{Unicode} (city' state' country' : string) (file : DbFile) :
  let once := add_city_to_database city' state' country' file in
  let twice := add_city_to_database city' state' country' once in
  twice = once /\
  (matching city' state' country' (load_cities_database file) = [] ->
   once = FileJson (load_cities_database file ++ [new_entry city' state' country'])) /\
  (matching city' state' country' (load_cities_database file) <> [] ->
   once = file) /\
  List.length (matching city' state' country' (load_cities_database twice)) =
    Nat.max 1 (List.length (matching city' state' country' (load_cities_database file))).
Proof.
  intros once twice.
  assert (Hnew : matching city' state' country' (load_cities_database file) = [] ->
                 once = FileJson (load_cities_database file
                                    ++ [new_entry city' state' country'])).
  { intro Hm. apply existsb_filter_nil in Hm. unfold once, add_city_to_database.
    rewrite Hm. reflexivity. }
  assert (Hold : matching city' state' country' (load_cities_database file) <> [] ->
                 once = file).
  { intro Hm. unfold once, add_city_to_database.
    destruct (existsb _ (load_cities_database file)) eqn:E; [reflexivity|].
    apply existsb_filter_nil in E. contradiction. }
  assert (Hhas : existsb (same_city city' state' country') (load_cities_database once)
                 = true).
  { destruct (matching city' state' country' (load_cities_database file)) eqn:E.
    - rewrite (Hnew eq_refl). simpl. rewrite existsb_app. simpl.
      fold (new_entry city' state' country').
      rewrite same_city_new_entry. apply orb_true_r.
    - rewrite Hold by discriminate.
      destruct (existsb _ (load_cities_database file)) eqn:F; [reflexivity|].
      apply existsb_filter_nil in F. unfold matching in E. congruence. }
  assert (Hsame : twice = once).
  { unfold twice, add_city_to_database. rewrite Hhas. reflexivity. }
  repeat split; [exact Hsame|exact Hnew|exact Hold|].
  rewrite Hsame.
  destruct (matching city' state' country' (load_cities_database file)) as [|c l] eqn:E.
  - rewrite (Hnew eq_refl). simpl. unfold matching in *.
    rewrite filter_app, E. simpl. fold (new_entry city' state' country').
    rewrite same_city_new_entry. reflexivity.
  - rewrite Hold by discriminate. rewrite E. simpl. lia.
Qed.

Local Open Scope Q_scope.

(** C4.  With [q] the lowercased query: the score of a record is
    [1.0 + similarity(query, city)] when its lowercased city starts with [q];
    else [0.8 + similarity(query, search_string)] when [q] occurs in its
    search string (which the catalog stores lowercased); else
    [similarity(query, search_string)].  The similarity of two strings is
    [2.0 * M / T] on their lowercased forms, [M] the number of matched
    characters and [T] the sum of the two lengths ([1.0] when [T] is 0).  The
    sums and the quotient are those of the floats; for strings of less than
    [2^52] characters the similarity is the float nearest to [2 M / T]. *)
Theorem score_by_cases `{Unicode} `{Difflib} (query : string) (c : CityRecord) :
  let q := lower query in
  let starts := exists t, lower (city c) = (q ++ t)%string in
  let inside := exists a b, search_string c = (a ++ q ++ b)%string in
  (starts -> score query c = float_add 1 (similarity_score query (city c))) /\
  (~ starts -> inside ->
   score query c =
     float_add (nearest_float (8 # 10)) (similarity_score query (search_string c))) /\
  (~ starts -> ~ inside ->
   score query c = similarity_score query (search_string c)) /\
  (forall a b,
     let M := Z.of_nat (matches (lower a) (lower b)) in
     let T := Z.of_nat (len (lower a) + len (lower b)) in
     ((0 < T)%Z ->
      similarity_score a b = float_div (float_mul 2 (float_of_int M)) (float_of_int T)) /\
     ((0 < T)%Z -> (M <= 2 ^ 52)%Z -> (T <= 2 ^ 53)%Z ->
      similarity_score a b == nearest_float (inject_Z (2 * M) / inject_Z T)) /\
     (T = 0%Z -> similarity_score a b = 1)).
Proof.
  intros q starts inside. unfold score. fold q.
  assert (Hsim : forall a b,
            (0 < Z.of_nat (len (lower a) + len (lower b)))%Z ->
            similarity_score a b =
              float_div (float_mul 2 (float_of_int (Z.of_nat (matches (lower a) (lower b)))))
                        (float_of_int (Z.of_nat (len (lower a) + len (lower b))))).
  { intros a b HT. unfold similarity_score, ratio. fold (matches (lower a) (lower b)).
    destruct (len (lower a) + len (lower b))%nat as [|n] eqn:E;
      [simpl in HT; lia|reflexivity]. }
  split; [|split; [|split; [|intros a b; cbv zeta; split; [|split]]]].
  - intro Hs. apply startswith_spec in Hs. rewrite Hs. reflexivity.
  - intros Hns Hin.
    destruct (startswith (lower (city c)) q) eqn:E.
    + exfalso. apply Hns, startswith_spec, E.
    + apply contains_spec in Hin. rewrite Hin. reflexivity.
  - intros Hns Hnin.
    destruct (startswith (lower (city c)) q) eqn:E.
    + exfalso. apply Hns, startswith_spec, E.
    + destruct (contains (search_string c) q) eqn:F; [|reflexivity].
      exfalso. apply Hnin, contains_spec, F.
  - apply Hsim.
  - intros HT HM HT53. rewrite (Hsim a b HT).
    set (M := Z.of_nat (matches (lower a) (lower b))) in *.
    set (T := Z.of_nat (len (lower a) + len (lower b))) in *.
    assert (HM0 : (0 <= M)%Z) by apply Nat2Z.is_nonneg.
    unfold float_div, float_mul, float_of_int.
    apply FloatFacts.nearest_float_comp.
    rewrite (FloatFacts.nearest_float_int T) by lia.
    apply Qdiv_comp; [|reflexivity].
    rewrite (FloatFacts.nearest_float_comp (2 * nearest_float (inject_Z M))
               (inject_Z (2 * M))).
    + apply FloatFacts.nearest_float_int. lia.
    + rewrite (FloatFacts.nearest_float_int M) by lia.
      rewrite inject_Z_mult. reflexivity.
  - intro HT. unfold similarity_score, ratio.
    destruct (len (lower a) + len (lower b))%nat; [reflexivity|].
    simpl in HT. lia.
Qed.

(** C5.  For a limit that is not negative (a number of records) the
    result has at most [limit] records.  The scores of the result, which are
    floats, go down (not up) along the list; records of equal score stand in
    catalog order (those of one score value form a prefix of the catalog's
    records of that value); every record of the result is in the catalog and
    scores above 0.3; and when no record of the catalog scores above 0.3 the
    result is empty. *)
Theorem best_matches_ranked `{Unicode} `{Difflib} (file : DbFile) (query : string)
    (limit : Z) :
  let result := find_best_matches file query limit in
  ((0 <= limit)%Z -> (Z.of_nat (List.length result) <= limit)%Z) /\
  StronglySorted (fun a b => score query b <= score query a) result /\
  (forall v, prefix_of (with_score query v result)
                       (with_score query v (load_cities_database file))) /\
  Forall (fun c => In c (load_cities_database file) /\ 3 # 10 < score query c) result /\
  ((forall c, In c (load_cities_database file) -> score query c <= 3 # 10) ->
   result = []).
Proof.
  intro result. repeat split.
  - apply matches_length.
  - apply matches_descending.
  - intro v. apply matches_stable.
  - pose proof (matches_above_threshold query file limit) as Ha.
    rewrite Forall_forall in *. intros c Hc. split.
    + eapply matches_from_catalog. exact Hc.
    + apply Ha. exact Hc.
  - apply matches_none.
Qed.

(* ===================================================================== *)
(** * The statements on concrete inputs *)
(* ===================================================================== *)

Local Close Scope Q_scope.

Example ex_history_run :
  calculate_daily_history_averages (history_of ex_ts ex_aqius) = Ok ex_averages.
Proof. reflexivity. Qed.

Example ex_forecast_run :
  calculate_daily_forecast_aqi ex_forecast = Ok ex_forecast_aqis.
Proof. reflexivity. Qed.

(** C1 on the example: today is 2024-05-03, a day the history and the
    forecast both have. *)
Lemma current_reading_wins_on_example :
  (forall x : Z,
     exists series,
       daily_aqi_summary (history_of ex_ts ex_aqius) ex_forecast (Some x) "2024-05-03"
         = Ok series /\
       filter (on_date "2024-05-03") series =
         [mkEntry "2024-05-03" "Current AQI" (Some x)]) /\
  (exists series,
     daily_aqi_summary (history_of ex_ts ex_aqius) ex_forecast None "2024-05-03"
       = Ok series /\
     filter (on_date "2024-05-03") series =
       [mkEntry "2024-05-03" "Avg. AQI (2024-05-03)" (Some 7)]).
Proof.
  apply (current_reading_wins (history_of ex_ts ex_aqius) ex_forecast "2024-05-03"
           ex_averages ex_forecast_aqis); reflexivity.
Defined.

(** C3 as stated fails on today's date: the forecast has 2024-05-02, the
    history has not, and the entry of that date in the series is the current
    reading, not the forecast entry. *)
Lemma forecast_of_today_is_replaced :
  calculate_daily_history_averages None = Ok [] /\
  calculate_daily_forecast_aqi ex_today_forecast =
    Ok [mkEntry "2024-05-02" "Forecast AQI (2024-05-02)" (Some 50)] /\
  daily_aqi_summary None ex_today_forecast (Some 42) "2024-05-02" =
    Ok [mkEntry "2024-05-02" "Current AQI" (Some 42)] /\
  filter (on_date "2024-05-02") [mkEntry "2024-05-02" "Current AQI" (Some 42)] <>
    [mkEntry "2024-05-02" "Forecast AQI (2024-05-02)" (Some 50)].
Proof.
  repeat split; try reflexivity. simpl. discriminate.
Qed.

(** C3 as amended, on the example with a current AQI on 2024-05-03. *)
Lemma merge_priority_on_example :
  exists series,
    daily_aqi_summary (history_of ex_ts ex_aqius) ex_forecast (Some 42) "2024-05-03"
      = Ok series /\
    forall d, Some 42 = None \/ d <> "2024-05-03" ->
      (forall e, In e ex_averages -> date e = d ->
         filter (on_date d) series = [e] /\
         label e = "Avg. AQI (" ++ d ++ ")") /\
      (~ In d (map date ex_averages) ->
       forall e, find (on_date d) ex_forecast_aqis = Some e ->
         filter (on_date d) series = [e] /\
         label e = "Forecast AQI (" ++ d ++ ")").
Proof.
  apply (merge_priority_except_today (history_of ex_ts ex_aqius) ex_forecast
           (Some 42) "2024-05-03" ex_averages ex_forecast_aqis); reflexivity.
Defined.

(** C6 on the example, for the series and for the result of a call. *)
Lemma summary_sorted_on_example :
  daily_aqi_summary (history_of ex_ts ex_aqius) ex_forecast (Some 42) "2024-05-03"
    = Ok ex_series /\
  get_air_quality_data ex_env "Springfield" "Illinois" "USA" 3 1 world0
    = (Returned (Success ex_result), mkWorld 3 [1; 2]) /\
  strictly_ascending ex_series /\
  NoDup (map date (r_daily_aqi_summary ex_result)).
Proof.
  split; [reflexivity|]. split; [reflexivity|]. split.
  - apply (proj1 summary_sorted_one_per_date (history_of ex_ts ex_aqius) ex_forecast
             (Some 42) "2024-05-03" ex_series). reflexivity.
  - apply (proj2 summary_sorted_one_per_date ex_env "Springfield" "Illinois" "USA"
             3 1 world0 (mkWorld 3 [1; 2]) ex_result). reflexivity.
Defined.

(** C9 on the example: 41 and 42 on 2024-05-02 average to 41.5, which goes
    to 42. *)
Lemma history_average_on_example :
  all_numbers (zip ex_ts ex_aqius) /\
  magnitude (zip ex_ts ex_aqius) < 2 ^ 52 /\
  exists averages,
    calculate_daily_history_averages (history_of ex_ts ex_aqius) = Ok averages /\
    forall d, In d (dates_of (zip ex_ts ex_aqius)) ->
      exists m,
        filter (on_date d) averages = [mkEntry d ("Avg. AQI (" ++ d ++ ")") (Some m)] /\
        nearest_even (total (readings_on d (zip ex_ts ex_aqius)))
                     (count (readings_on d (zip ex_ts ex_aqius))) m.
Proof.
  assert (Hall : all_numbers (zip ex_ts ex_aqius))
    by (repeat constructor; discriminate).
  assert (Hsmall : magnitude (zip ex_ts ex_aqius) < 2 ^ 52) by reflexivity.
  split; [exact Hall|]. split; [exact Hsmall|].
  apply (history_average_is_rounded_mean ex_ts ex_aqius Hall Hsmall).
Defined.

(** C10 on the example: the fifth reading, a [null], has no timestamp and
    is never read; the averages are those of the first four. *)
Lemma history_reads_paired_prefix_on_example :
  all_numbers (zip ex_ts (firstn 4 ex_aqius)) /\
  magnitude (zip ex_ts (firstn 4 ex_aqius)) < 2 ^ 52 /\
  calculate_daily_history_averages (history_of ex_ts ex_aqius) = Ok ex_averages /\
  calculate_daily_history_averages (history_of ex_ts ex_aqius) =
  calculate_daily_history_averages (history_of ex_ts (firstn 4 ex_aqius)) /\
  exists averages,
    calculate_daily_history_averages (history_of ex_ts ex_aqius) = Ok averages /\
    (forall d, In d (map date averages) <->
               In d (dates_of (zip ex_ts (firstn 4 ex_aqius)))) /\
    forall e, In e averages ->
      exists m,
        aqi e = Some m /\
        nearest_even (total (readings_on (date e) (zip ex_ts (firstn 4 ex_aqius))))
                     (count (readings_on (date e) (zip ex_ts (firstn 4 ex_aqius)))) m.
Proof.
  assert (Hnum : all_numbers (zip ex_ts (firstn 4 ex_aqius)))
    by (repeat constructor; discriminate).
  assert (Hsmall : magnitude (zip ex_ts (firstn 4 ex_aqius)) < 2 ^ 52) by reflexivity.
  split; [exact Hnum|]. split; [exact Hsmall|]. split; [reflexivity|].
  destruct (history_reads_paired_prefix ex_ts ex_aqius) as [Heq Hok].
  split; [exact Heq|exact (Hok Hnum Hsmall)].
Defined.

(** C2 on the examples: 429 as a status, 429 raised, then the payload; and
    429 for ever. *)
Lemma retry_on_rate_limit_on_example :
  get_air_quality_data ex_env "Springfield" "Illinois" "USA" 3 1 world0
    = (Returned (Success ex_result), mkWorld 3 [1; 2]) /\
  get_air_quality_data busy_env "Springfield" "Illinois" "USA" 3 1 world0
    = (Returned (Failure (ErrorText
         "Failed to retrieve data for Springfield after 3 attempts due to rate limiting.")),
       mkWorld 3 [1; 2; 4]).
Proof.
  split.
  - apply (proj1 (retry_on_rate_limit ex_env "Springfield" "Illinois" "USA" world0)
             ex_result).
    + apply (rate_limited_status too_many_status
               (PayloadObject (Some "fail") (Some (DataOther (JString "too_many_requests")))));
        reflexivity.
    + apply (rate_limited_raised too_many_raised "429 Client Error: Too Many Requests");
        reflexivity.
    + exists city_response, ex_payload. repeat split; reflexivity.
  - apply (proj2 (retry_on_rate_limit busy_env "Springfield" "Illinois" "USA" world0) 3 1).
    + repeat constructor; discriminate.
    + intros i _.
      apply (rate_limited_raised too_many_raised "429 Client Error: Too Many Requests");
        reflexivity.
Defined.

(** C7 on the examples: a remote that cannot be reached, and a server
    error after one 429. *)
Lemma failure_returns_at_once_on_example :
  (exists error,
     get_air_quality_data down_env "Springfield" "Illinois" "USA" 3 1 world0
       = (Returned (Failure error), mkWorld 1 [])) /\
  (exists error,
     get_air_quality_data failing_env "Springfield" "Illinois" "USA" 3 1 world0
       = (Returned (Failure error), mkWorld 2 [1])).
Proof.
  split.
  - apply (failure_returns_at_once down_env "Springfield" "Illinois" "USA" 3 1 world0 0).
    + apply Nat.lt_0_succ.
    + constructor.
    + intros i Hi. inversion Hi.
    + apply fails_network.
  - apply (failure_returns_at_once failing_env "Springfield" "Illinois" "USA" 3 1 world0 1).
    + apply -> Nat.succ_lt_mono. apply Nat.lt_0_succ.
    + repeat constructor; discriminate.
    + intros i Hi. destruct i as [|i].
      * apply (rate_limited_raised too_many_raised "429 Client Error: Too Many Requests");
          reflexivity.
      * apply Nat.succ_lt_mono in Hi. inversion Hi.
    + apply (fails_http_error _ _ _ _ server_error "500 Server Error: Internal Server Error").
      * reflexivity.
      * discriminate.
Defined.

(** C8 on the example: Salem is new to the catalog, and is added once. *)
Lemma add_city_twice_on_example :
  matching (H := ascii_unicode) "SALEM" "Oregon" "USA" (load_cities_database ex_db) = [] /\
  ascii_add_city "SALEM" "Oregon" "USA" (ascii_add_city "SALEM" "Oregon" "USA" ex_db)
    = ascii_add_city "SALEM" "Oregon" "USA" ex_db /\
  ascii_add_city "SALEM" "Oregon" "USA" ex_db =
    FileJson [boston; springfield_il; hot_springs; springfield_mo; spring_hill;
              mkCityRecord "SALEM" "Oregon" "USA" "salem, oregon, usa"] /\
  List.length (matching (H := ascii_unicode) "salem" "OREGON" "usa"
                 (load_cities_database
                    (ascii_add_city "SALEM" "Oregon" "USA"
                       (ascii_add_city "SALEM" "Oregon" "USA" ex_db)))) = 1%nat.
Proof.
  destruct (add_city_twice (H := ascii_unicode) "SALEM" "Oregon" "USA" ex_db)
    as (Hsame & Hnew & _ & Hone).
  split; [reflexivity|]. split; [exact Hsame|]. split; [apply Hnew; reflexivity|].
  exact Hone.
Defined.

Local Open Scope Q_scope.

(** C4 on the examples: a city that starts with the query, a search string
    that holds it, and a record that has neither. *)
Lemma score_by_cases_on_example :
  ascii_score "Spring" springfield_il =
    float_add 1 (ascii_similarity "Spring" "Springfield") /\
  ascii_score "Spring" hot_springs =
    float_add (nearest_float (8 # 10))
      (ascii_similarity "Spring" "hot springs, arkansas, usa") /\
  ascii_score "Spring" boston = ascii_similarity "Spring" "boston, massachusetts, usa" /\
  ascii_similarity "Spring" "Springfield" == nearest_float (12 # 17).
Proof.
  assert (Hout : forall s, contains s "spring" = false ->
                           ~ exists a b, s = (a ++ "spring" ++ b)%string).
  { intros s Hs Hin. apply PyFacts.contains_spec in Hin. congruence. }
  assert (Hnot : forall s, startswith s "spring" = false ->
                           ~ exists t, s = ("spring" ++ t)%string).
  { intros s Hs Hin. apply PyFacts.startswith_spec in Hin. congruence. }
  split; [|split; [|split]].
  - apply (proj1 (score_by_cases (H := ascii_unicode) (H0 := ascii_difflib)
                    "Spring" springfield_il)).
    exists "field"%string. reflexivity.
  - apply (proj1 (proj2 (score_by_cases (H := ascii_unicode) (H0 := ascii_difflib)
                           "Spring" hot_springs))).
    + apply Hnot. reflexivity.
    + exists "hot "%string, "s, arkansas, usa"%string. reflexivity.
  - apply (proj1 (proj2 (proj2 (score_by_cases (H := ascii_unicode) (H0 := ascii_difflib)
                                  "Spring" boston)))).
    + apply Hnot. reflexivity.
    + apply Hout. reflexivity.
  - apply (proj1 (proj2 (proj2 (proj2 (proj2 (score_by_cases (H := ascii_unicode)
                                         (H0 := ascii_difflib) "Spring" boston)))
                    "Spring"%string "Springfield"%string)));
      [reflexivity|discriminate|discriminate].
Defined.

(** C5 on the examples: "Spring" with a limit of 2 on the five cities; a
    query that matches nothing; and the two records whose scores for "rio"
    are 1.0 + 0.2 and 0.8 + 0.4, where the float of the second sum is the
    larger and its record comes first. *)
Lemma best_matches_ranked_on_example :
  (0 <= 2)%Z /\
  ascii_find_best_matches ex_db "Spring" 2 = [springfield_il; springfield_mo] /\
  (Z.of_nat (List.length (ascii_find_best_matches ex_db "Spring" 2)) <= 2)%Z /\
  (forall c, In c (load_cities_database ex_db) -> ascii_score "qqq" c <= 3 # 10) /\
  ascii_find_best_matches ex_db "qqq" 2 = [] /\
  ascii_find_best_matches tie_db "rio" 5 = [ipe; rio_branco] /\
  StronglySorted (fun a b => ascii_score "rio" b <= ascii_score "rio" a)
    (ascii_find_best_matches tie_db "rio" 5).
Proof.
  assert (Hlim : (0 <= 2)%Z) by discriminate.
  assert (Hlow : forall c, In c (load_cities_database ex_db) ->
                           ascii_score "qqq" c <= 3 # 10).
  { intros c Hc. simpl in Hc.
    destruct Hc as [<-|[<-|[<-|[<-|[<-|[]]]]]]; vm_compute; discriminate. }
  split; [exact Hlim|]. split; [vm_compute; reflexivity|]. split; [|split; [|split; [|split]]].
  - apply (proj1 (best_matches_ranked (H := ascii_unicode) (H0 := ascii_difflib)
                    ex_db "Spring" 2)). exact Hlim.
  - exact Hlow.
  - apply (proj2 (proj2 (proj2 (proj2
             (best_matches_ranked (H := ascii_unicode) (H0 := ascii_difflib)
                ex_db "qqq" 2))))). exact Hlow.
  - vm_compute. reflexivity.
  - apply (proj1 (proj2 (best_matches_ranked (H := ascii_unicode) (H0 := ascii_difflib)
                           tie_db "rio" 5))).
Defined.

(* ===================================================================== *)
(** * Further properties of the matcher and of the catalog *)
(* ===================================================================== *)

Local Close Scope Q_scope.

Module RankingFacts.

Lemma float_of_nat_nonneg (n : nat) : (0 <= float_of_int (Z.of_nat n))%Q.
Proof.
  apply FloatFacts.nearest_float_nonneg.
  change 0%Q with (inject_Z 0). rewrite <- Zle_Qle. apply Nat2Z.is_nonneg.
Qed.

Lemma ratio_nonneg `{Unicode} `{Difflib} (a b : string) : (0 <= ratio a b)%Q.
Proof.
  unfold ratio. destruct (len a + len b)%nat; [discriminate|].
  apply FloatFacts.nearest_float_nonneg. apply Qmult_le_0_compat.
  - apply FloatFacts.nearest_float_nonneg. apply Qmult_le_0_compat; [discriminate|].
    apply float_of_nat_nonneg.
  - apply Qinv_le_0_compat, float_of_nat_nonneg.
Qed.

Lemma one_is_float : (nearest_float 1 == 1)%Q.
Proof. reflexivity. Qed.

Lemma eight_tenths : (8 # 10 <= nearest_float (8 # 10))%Q.
Proof. vm_compute. discriminate. Qed.

(** Adding a similarity to a float does not go below the float. *)
Lemma float_add_ge `{Unicode} `{Difflib} (x : Q) (a b : string) :
  (nearest_float x == x)%Q -> (x <= float_add x (similarity_score a b))%Q.
Proof.
  intro Hx. apply (FloatFacts.float_below x); [exact Hx|].
  rewrite <- (Qplus_0_r x) at 1. apply Qplus_le_r. apply ratio_nonneg.
Qed.

Lemma StronglySorted_app_inv {A} (R : A -> A -> Prop) (l1 l2 : list A) :
  StronglySorted R (l1 ++ l2) ->
  forall x y, In x l1 -> In y l2 -> R x y.
Proof.
  induction l1 as [|a l1 IH]; intros Hs x y Hx Hy; [contradiction|].
  simpl in Hs. apply StronglySorted_inv in Hs. destruct Hs as [Hs Ha].
  destruct Hx as [->|Hx].
  - rewrite Forall_forall in Ha. apply Ha. apply in_or_app. right. exact Hy.
  - eapply IH; eassumption.
Qed.

Section Ranking.
Context `{Unicode} `{Difflib}.
Variables (file : DbFile) (query : string) (limit : Z).

(** The pair of a record of the catalog is in the sorted list. *)
Lemma ranked_pair (c : CityRecord) :
  In c (load_cities_database file) ->
  In (score query c, c) (sort_reverse fst (scored query (load_cities_database file))).
Proof.
  intro Hc. apply (Permutation_in _ (sort_reverse_perm fst _)).
  unfold scored. apply in_map_iff. exists c. split; [reflexivity|exact Hc].
Qed.

(** A record of the result comes from a pair of the slice that passed the
    filter. *)
Lemma result_pair (k : nat) (c : CityRecord) :
  In c (map snd (filter good
          (firstn k (sort_reverse fst (scored query (load_cities_database file)))))) ->
  In (score query c, c)
     (firstn k (sort_reverse fst (scored query (load_cities_database file)))) /\
  (3 # 10 < score query c)%Q.
Proof.
  intro Hc. apply in_map_iff in Hc. destruct Hc as ([v c'] & Hsnd & Hin).
  simpl in Hsnd. subst c'. apply filter_In in Hin. destruct Hin as [Hin Hg].
  assert (Hv : v = score query c).
  { pose proof (In_firstn _ _ _ Hin) as Hs.
    apply (Permutation_in _ (Permutation_sym (sort_reverse_perm fst _))) in Hs.
    unfold scored in Hs. apply in_map_iff in Hs. destruct Hs as (c0 & [= <- <-] & _).
    reflexivity. }
  subst v. split; [exact Hin|].
  apply above_threshold; [apply score_is_float|exact Hg].
Qed.

Lemma left_out_is_worse (c c' : CityRecord) :
  In c (find_best_matches file query limit) ->
  In c' (load_cities_database file) ->
  ~ In c' (find_best_matches file query limit) ->
  (score query c' <= score query c)%Q.
Proof.
  rewrite find_best_matches_eq.
  destruct (slice_to_firstn
              (sort_reverse fst (scored query (load_cities_database file))) limit)
    as [k ->].
  intros Hc Hc' Hout. apply result_pair in Hc. destruct Hc as [Hc Hgood].
  pose proof (ranked_pair c' Hc') as Hp.
  rewrite <- (firstn_skipn k) in Hp. apply in_app_or in Hp. destruct Hp as [Hp|Hp].
  - destruct (Qltb (nearest_float (3 # 10)) (score query c')) eqn:E.
    + exfalso. apply Hout. apply in_map_iff. exists (score query c', c').
      split; [reflexivity|]. apply filter_In. split; [exact Hp|exact E].
    + apply Qltb_ge in E. apply Qlt_le_weak.
      apply Qle_lt_trans with (3 # 10)%Q; [|exact Hgood].
      apply Qle_trans with (nearest_float (3 # 10)); [exact E|apply threshold_le].
  - pose proof (sort_reverse_sorted fst (scored query (load_cities_database file)))
      as Hs.
    rewrite <- (firstn_skipn k) in Hs.
    exact (StronglySorted_app_inv _ _ _ Hs _ _ Hc Hp).
Qed.

Lemma short_result_is_complete (c : CityRecord) :
  (0 <= limit)%Z ->
  (Z.of_nat (List.length (find_best_matches file query limit)) < limit)%Z ->
  In c (load_cities_database file) ->
  (3 # 10 < score query c)%Q ->
  In c (find_best_matches file query limit).
Proof.
  intros Hl Hshort Hc Hgood.
  destruct (in_dec (fun a b : CityRecord =>
              ltac:(decide equality; apply string_dec) : {a = b} + {a <> b})
              c (find_best_matches file query limit)) as [Hin|Hout];
    [exact Hin|exfalso].
  revert Hshort Hout. rewrite find_best_matches_eq.
  unfold slice_to. destruct (Z.leb_spec 0 limit) as [_|Hneg]; [|lia].
  set (sorted_pairs := sort_reverse fst (scored query (load_cities_database file))).
  intros Hshort Hout. rewrite length_map in Hshort.
  pose proof (ranked_pair c Hc) as Hp. fold sorted_pairs in Hp.
  rewrite <- (firstn_skipn (Z.to_nat limit)) in Hp.
  apply in_app_or in Hp. destruct Hp as [Hp|Hp].
  - apply Hout. apply in_map_iff. exists (score query c, c).
    split; [reflexivity|]. apply filter_In. split; [exact Hp|].
    apply good_above. exact Hgood.
  - assert (Hall : Forall (fun x => good x = true)
                     (firstn (Z.to_nat limit) sorted_pairs)).
    { rewrite Forall_forall. intros x Hx.
      pose proof (sort_reverse_sorted fst (scored query (load_cities_database file)))
        as Hs.
      fold sorted_pairs in Hs. rewrite <- (firstn_skipn (Z.to_nat limit)) in Hs.
      pose proof (StronglySorted_app_inv _ _ _ Hs _ _ Hx Hp) as Hd.
      unfold desc in Hd. simpl in Hd. apply good_above.
      eapply Qlt_le_trans; eassumption. }
    rewrite (filter_all _ _ Hall) in Hshort.
    assert (Hlen : (Z.to_nat limit < List.length sorted_pairs)%nat).
    { destruct (Nat.lt_ge_cases (Z.to_nat limit) (List.length sorted_pairs))
        as [Hlt|Hge]; [exact Hlt|].
      rewrite (skipn_all2 _ Hge) in Hp. contradiction. }
    rewrite length_firstn in Hshort. lia.
Qed.

End Ranking.

Lemma append_empty (s : string) : s ++ "" = s.
Proof. induction s as [|c s IH]; simpl; [reflexivity|]. rewrite IH. reflexivity. Qed.

(** What [add_city_to_database] leaves in the file. *)
Lemma add_city_catalog `{Unicode} (city' state' country' : string) (file : DbFile) :
  load_cities_database (add_city_to_database city' state' country' file) =
    if existsb (same_city city' state' country') (load_cities_database file)
    then load_cities_database file
    else (load_cities_database file ++ [new_entry city' state' country'])%list.
Proof.
  unfold add_city_to_database.
  destruct (existsb (same_city city' state' country') (load_cities_database file));
    reflexivity.
Qed.

Lemma add_city_known `{Unicode} (city' state' country' : string) (file : DbFile) :
  existsb (same_city city' state' country')
    (load_cities_database (add_city_to_database city' state' country' file)) = true.
Proof.
  rewrite add_city_catalog.
  destruct (existsb (same_city city' state' country') (load_cities_database file))
    eqn:E; [exact E|].
  rewrite existsb_app. cbn [existsb]. rewrite same_city_new_entry. apply orb_true_r.
Qed.

(** A record whose lowercased city starts with the lowercased query
    scores 1 or more. *)
Lemma prefix_scores_one `{Unicode} `{Difflib} (query : string) (c : CityRecord) :
  (exists t, lower (city c) = lower query ++ t) -> (1 <= score query c)%Q.
Proof.
  intro Hs. apply startswith_spec in Hs. unfold score. rewrite Hs.
  apply float_add_ge, one_is_float.
Qed.

End RankingFacts.

Import RankingFacts.

(** X1.  A record whose city starts with the query, case apart, scores at
    least 1.0; a record whose search string holds the lowercased query
    scores at least 0.8; no record scores below 0.  Either kind of literal
    match is therefore above the 0.3 that [find_best_matches] asks for. *)
Theorem literal_match_scores_high `{Unicode} `{Difflib} (query : string)
    (c : CityRecord) :
  ((exists t, lower (city c) = lower query ++ t) -> (1 <= score query c)%Q) /\
  ((exists a b, search_string c = a ++ lower query ++ b) ->
   (8 # 10 <= score query c)%Q) /\
  (0 <= score query c)%Q.
Proof.
  assert (Hr : forall s, (0 <= similarity_score query s)%Q)
    by (intro s; apply ratio_nonneg).
  assert (H1 : forall s, (1 <= float_add 1 (similarity_score query s))%Q)
    by (intro s; apply float_add_ge, one_is_float).
  assert (H8 : forall s, (8 # 10 <= float_add (nearest_float (8 # 10))
                                      (similarity_score query s))%Q).
  { intro s. apply Qle_trans with (nearest_float (8 # 10)); [apply eight_tenths|].
    apply float_add_ge, FloatFacts.nearest_float_idem. }
  split; [apply prefix_scores_one|]. split.
  - intro Hin. apply contains_spec in Hin. unfold score.
    destruct (startswith (lower (city c)) (lower query)).
    + apply Qle_trans with 1%Q; [discriminate|apply H1].
    + rewrite Hin. apply H8.
  - unfold score. destruct (startswith (lower (city c)) (lower query)).
    + apply Qle_trans with 1%Q; [discriminate|apply H1].
    + destruct (contains (search_string c) (lower query)); [|apply Hr].
      apply Qle_trans with (8 # 10)%Q; [discriminate|apply H8].
Qed.

(** X2.  For a limit that is not negative, [find_best_matches] leaves out
    only what it must: a result shorter than the limit holds every record of
    the catalog that scores above 0.3, and a record of the catalog that is
    not in the result never scores above one that is. *)
Theorem best_matches_are_the_best `{Unicode} `{Difflib} (file : DbFile)
    (query : string) (limit : Z) :
  (0 <= limit)%Z ->
  ((Z.of_nat (List.length (find_best_matches file query limit)) < limit)%Z ->
   forall c, In c (load_cities_database file) -> (3 # 10 < score query c)%Q ->
             In c (find_best_matches file query limit)) /\
  (forall c c',
     In c (find_best_matches file query limit) ->
     In c' (load_cities_database file) ->
     ~ In c' (find_best_matches file query limit) ->
     (score query c' <= score query c)%Q).
Proof.
  intro Hl. split.
  - intros Hshort c Hc Hgood. apply short_result_is_complete; assumption.
  - intros c c'. apply left_out_is_worse.
Qed.

(** X3.  [autocomplete] answers a query of fewer than three characters
    with no suggestion, whatever the catalog holds, and any query with at
    most five records of the catalog, each scoring above 0.3. *)
Theorem autocomplete_suggestions `{Unicode} `{Difflib} (args : Args) (file : DbFile) :
  ((len (get_default args "query" "") < 3)%nat -> autocomplete args file = []) /\
  (List.length (autocomplete args file) <= 5)%nat /\
  Forall (fun c => In c (load_cities_database file) /\
                   (3 # 10 < score (get_default args "query" "") c)%Q)
         (autocomplete args file).
Proof.
  unfold autocomplete.
  destruct (Nat.ltb_spec (len (get_default args "query" "")) 3) as [Hshort|Hlong].
  - repeat split; try reflexivity; simpl; try lia. constructor.
  - split; [intro; lia|]. split.
    + pose proof (matches_length (get_default args "query" "") file 5
                    ltac:(discriminate)). lia.
    + pose proof (matches_above_threshold (get_default args "query" "") file 5) as Ha.
      rewrite Forall_forall in *. intros c Hc. split.
      * eapply matches_from_catalog. exact Hc.
      * apply Ha. exact Hc.
Qed.

(** X4.  [add_city_to_database] keeps what the catalog holds: the records
    of the old catalog are the first records of the new one, in the same
    order; when they all have the derived search string, so have the new
    ones; and afterwards the catalog knows the city, case apart. *)
Theorem add_city_keeps_catalog `{Unicode} (city' state' country' : string)
    (file : DbFile) :
  prefix_of (load_cities_database file)
            (load_cities_database (add_city_to_database city' state' country' file)) /\
  (Forall derived (load_cities_database file) ->
   Forall derived
     (load_cities_database (add_city_to_database city' state' country' file))) /\
  existsb (same_city city' state' country')
    (load_cities_database (add_city_to_database city' state' country' file)) = true.
Proof.
  split; [|split; [|apply add_city_known]]; rewrite add_city_catalog.
  - destruct (existsb (same_city city' state' country') (load_cities_database file)).
    + exists []. symmetry. apply app_nil_r.
    + eexists. reflexivity.
  - intro Hd.
    destruct (existsb (same_city city' state' country') (load_cities_database file));
      [exact Hd|].
    apply Forall_app. split; [exact Hd|]. constructor; [reflexivity|constructor].
Qed.

(** X5.  A city that was added is found again: [autocomplete] of its name
    (three characters or more) on the catalog after
    [add_city_to_database] suggests a record of that city, case apart, or
    else five records that all score 1.0 or more. *)
Theorem added_city_is_suggested `{Unicode} `{Difflib} (city' state' country' : string)
    (file : DbFile) :
  (3 <= len city')%nat ->
  let suggestions :=
    autocomplete [("query", city')] (add_city_to_database city' state' country' file) in
  (exists c, In c suggestions /\ same_city city' state' country' c = true) \/
  (List.length suggestions = 5%nat /\
   Forall (fun c => (1 <= score city' c)%Q) suggestions).
Proof.
  intros Hlen suggestions.
  set (file' := add_city_to_database city' state' country' file) in *.
  assert (Hknown : existsb (same_city city' state' country')
                     (load_cities_database file') = true).
  { apply add_city_known. }
  apply existsb_exists in Hknown. destruct Hknown as (m & Hm & Hsame).
  assert (Hscore : (1 <= score city' m)%Q).
  { apply prefix_scores_one. exists "". rewrite append_empty.
    unfold same_city in Hsame. apply andb_true_iff in Hsame. destruct Hsame as [Hs _].
    apply andb_true_iff in Hs. destruct Hs as [Hs _]. apply String.eqb_eq. exact Hs. }
  assert (Heq : suggestions = find_best_matches file' city' 5).
  { unfold suggestions, autocomplete, get_default. simpl.
    destruct (Nat.ltb_spec (len city') 3); [lia|reflexivity]. }
  rewrite Heq.
  destruct (in_dec (fun a b : CityRecord =>
              ltac:(decide equality; apply string_dec) : {a = b} + {a <> b})
              m (find_best_matches file' city' 5)) as [Hin|Hout].
  - left. exists m. split; assumption.
  - right.
    assert (Hfull : List.length (find_best_matches file' city' 5) = 5%nat).
    { pose proof (matches_length city' file' 5 ltac:(discriminate)) as Hle.
      destruct (Nat.eq_dec (List.length (find_best_matches file' city' 5)) 5)
        as [Hfive|Hless]; [exact Hfive|exfalso].
      apply Hout. apply short_result_is_complete; [discriminate|lia|exact Hm|].
      eapply Qlt_le_trans; [|exact Hscore]. reflexivity. }
    split; [exact Hfull|]. rewrite Forall_forall. intros c Hc.
    eapply Qle_trans; [exact Hscore|]. eapply left_out_is_worse; eassumption.
Qed.

(* ===================================================================== *)
(** * Further properties of the reconciler *)
(* ===================================================================== *)

Module SeriesFacts.

Lemma keys_add_history (l : list DailyAqiEntry) :
  forall d k, In k (keys (add_history d l)) <-> In k (keys d) \/ In k (map date l).
Proof.
  induction l as [|e l IH]; intros d k; simpl; [tauto|].
  rewrite IH, in_keys_set. intuition.
Qed.

Lemma keys_add_forecast (l : list DailyAqiEntry) :
  forall d k, In k (keys (add_forecast d l)) <-> In k (keys d) \/ In k (map date l).
Proof.
  induction l as [|e l IH]; intros d k; simpl; [tauto|].
  rewrite IH. destruct (mem d (date e)) eqn:E.
  - apply mem_true in E. split; [tauto|]. intros [Hk|[<-|Hk]]; tauto.
  - rewrite in_keys_set. intuition.
Qed.

Lemma keys_add_current (d : dict DailyAqiEntry) (aqi_us : option Z)
    (current_date k : string) :
  In k (keys (add_current d aqi_us current_date)) <->
  In k (keys d) \/ (aqi_us <> None /\ k = current_date).
Proof.
  unfold add_current. destruct aqi_us as [x|].
  - rewrite in_keys_set. split.
    + intros [->|Hk]; [right; split; [discriminate|reflexivity]|left; exact Hk].
    + intros [Hk|[_ ->]]; tauto.
  - split; [tauto|]. intros [Hk|[Hx _]]; [exact Hk|contradiction].
Qed.

Lemma combine_dates (history_averages forecast_aqis : list DailyAqiEntry)
    (aqi_us : option Z) (current_date d : string) :
  In d (map date (combine_daily_aqi history_averages forecast_aqis aqi_us current_date))
  <-> In d (map date history_averages) \/ In d (map date forecast_aqis) \/
      (aqi_us <> None /\ d = current_date).
Proof.
  unfold combine_daily_aqi.
  set (all := add_current _ _ _).
  assert (Hk : keyed all).
  { apply keyed_add_current, keyed_add_forecast, keyed_add_history, keyed_nil. }
  assert (Hp : Permutation (keys all) (map date (sorted date (values all)))).
  { rewrite <- (keyed_values_dates all Hk). apply Permutation_map, sorted_perm. }
  split.
  - intro Hd. apply (Permutation_in _ (Permutation_sym Hp)) in Hd.
    unfold all in Hd.
    rewrite keys_add_current, keys_add_forecast, keys_add_history in Hd.
    simpl in Hd. tauto.
  - intro Hd. apply (Permutation_in _ Hp). unfold all.
    rewrite keys_add_current, keys_add_forecast, keys_add_history. tauto.
Qed.

(** What [calculate_daily_history_averages] returns when it returns: no
    entry, or the averages of the paired readings of two arrays. *)
Lemma history_result (history_data : option History) (averages : list DailyAqiEntry) :
  calculate_daily_history_averages history_data = Ok averages ->
  averages = [] \/
  exists ts aqius sums counts,
    history_data = history_of ts aqius /\
    all_numbers (zip ts aqius) /\
    accumulated ([], []) (sums, counts) (zip ts aqius) /\
    averages = map (average_entry sums counts) (sorted (fun d => d) (keys sums)).
Proof.
  intro H.
  destruct history_data as [[[[[ts|] [aqius|]]|]]|]; simpl in H;
    try (injection H as <-; left; reflexivity).
  destruct aqius as [|a aqius]; [injection H as <-; left; reflexivity|].
  destruct (history_loop ([], []) (zip ts (a :: aqius))) as [[sums counts]|e] eqn:Hrun;
    [|discriminate].
  pose proof (history_loop_inv _ _ _ Hrun) as Hall.
  destruct (history_loop_ok _ ([], []) Hall) as (acc' & Hrun' & Hacc).
  rewrite Hrun in Hrun'. injection Hrun' as <-.
  cbn [bind] in H. apply history_entries_inv in H. subst averages.
  right. exists ts, (a :: aqius), sums, counts.
  split; [reflexivity|]. split; [exact Hall|]. split; [exact Hacc|reflexivity].
Qed.

Lemma sorted_keys_ascending (sums counts : dict Z) :
  NoDup (keys sums) ->
  strictly_ascending (map (average_entry sums counts) (sorted (fun d => d) (keys sums))).
Proof.
  intro Hnd. unfold strictly_ascending.
  apply (StronglySorted_map (fun a b : string => str_lt a b = true)).
  - intros a b Hab. exact Hab.
  - apply (sorted_strict (fun d : string => d)). rewrite map_id. exact Hnd.
Qed.

(** The mean of integers between two bounds, rounded, is between them. *)
Lemma total_bounds (lo hi : Z) (l : list Z) :
  (forall r, In r l -> lo <= r <= hi) ->
  count l * lo <= total l <= count l * hi.
Proof.
  unfold count, total. induction l as [|x l IH]; intro H; [simpl; lia|].
  assert (Hx : lo <= x <= hi) by (apply H; left; reflexivity).
  assert (Hl : forall r, In r l -> lo <= r <= hi) by (intros; apply H; right; assumption).
  specialize (IH Hl). simpl fold_right. rewrite length_cons, Nat2Z.inj_succ. nia.
Qed.

Lemma rounded_mean_bounds (lo hi : Z) (l : list Z) :
  0 < count l ->
  (forall r, In r l -> lo <= r <= hi) ->
  lo <= round_half_even (total l) (count l) <= hi.
Proof.
  intros Hc Hl. pose proof (total_bounds lo hi l Hl) as Ht.
  destruct (round_half_even_nearest (total l) (count l) Hc) as [Hn _].
  set (m := round_half_even (total l) (count l)) in *.
  set (s := total l) in *. set (c := count l) in *.
  split; nia.
Qed.

Lemma history_loop_type_error (pairs : list (string * option Z)) :
  forall acc, ~ all_numbers pairs ->
  history_loop acc pairs =
    Raise (TypeError "unsupported operand type(s) for +: 'int' and 'NoneType'").
Proof.
  induction pairs as [|[t [a|]] pairs IH]; intros [sums counts] Hnot.
  - exfalso. apply Hnot. constructor.
  - simpl. apply IH. intro H. apply Hnot. constructor; [discriminate|exact H].
  - reflexivity.
Qed.

Lemma history_type_error (ts : list string) (aqius : list (option Z)) :
  ~ all_numbers (zip ts aqius) ->
  calculate_daily_history_averages (history_of ts aqius) =
    Raise (TypeError "unsupported operand type(s) for +: 'int' and 'NoneType'").
Proof.
  intro Hnot. unfold calculate_daily_history_averages, history_of.
  cbn [h_pollution hp_ts hp_aqius].
  destruct aqius as [|a aqius].
  - exfalso. apply Hnot. destruct ts; constructor.
  - rewrite (history_loop_type_error _ _ Hnot). reflexivity.
Qed.

(** The second loop on readings of any size: the entries, or the
    [OverflowError] of a quotient beyond the floats. *)
Lemma history_entries_cases (sums counts : dict Z) (dates : list string) :
  (forall d, In d dates ->
     In d (keys sums) /\ In d (keys counts) /\ 0 < get_default counts d 0) ->
  history_entries sums counts dates = Ok (map (average_entry sums counts) dates) \/
  history_entries sums counts dates =
    Raise (OverflowError "integer division result too large for a float").
Proof.
  induction dates as [|d dates IH]; intro H; simpl.
  - left. reflexivity.
  - destruct (H d (or_introl eq_refl)) as (Hs & Hc & Hpos).
    rewrite (item_in sums d 0 Hs), (item_in counts d 0 Hc). cbn [bind].
    unfold true_divide.
    destruct (Z.eqb_spec (get_default counts d 0) 0) as [E|_]; [lia|].
    destruct (Qle_bool _ _); [right; reflexivity|]. cbn [bind].
    destruct IH as [-> | ->]; [intros; apply H; right; assumption| |].
    + left. reflexivity.
    + right. reflexivity.
Qed.

Lemma forecast_entries_key_error (days : list ForecastDay) :
  Exists (fun day => fd_ts day = None) days ->
  forecast_entries days = Raise (KeyError "ts").
Proof.
  induction 1 as [day days Hday|day days _ IH]; simpl.
  - rewrite Hday. reflexivity.
  - destruct (fd_ts day); [|reflexivity]. rewrite IH. reflexivity.
Qed.

End SeriesFacts.

Import SeriesFacts.

(** X6.  The dates of the series are the dates of the history averages,
    the dates of the forecast entries and, when there is a current AQI, the
    current date: no date is lost and none is made up. *)
Theorem series_has_every_date (history_data : option History)
    (forecast_data : option Forecast) (aqi_us : option Z) (current_date : string)
    (history_averages forecast_aqis : list DailyAqiEntry) :
  calculate_daily_history_averages history_data = Ok history_averages ->
  calculate_daily_forecast_aqi forecast_data = Ok forecast_aqis ->
  exists series,
    daily_aqi_summary history_data forecast_data aqi_us current_date = Ok series /\
    forall d,
      In d (map date series) <->
      In d (map date history_averages) \/ In d (map date forecast_aqis) \/
      (aqi_us <> None /\ d = current_date).
Proof.
  intros Hh Hf. unfold daily_aqi_summary. rewrite Hh, Hf. cbn [bind].
  eexists. split; [reflexivity|]. intro d. apply combine_dates.
Qed.

(** X7.  Whatever [calculate_daily_history_averages] returns has strictly
    ascending dates; on two arrays [ts] and [aqius] its dates are the dates
    of the paired timestamps, no other and each one once. *)
Theorem history_averages_by_date :
  (forall history_data averages,
     calculate_daily_history_averages history_data = Ok averages ->
     strictly_ascending averages) /\
  (forall ts aqius averages,
     calculate_daily_history_averages (history_of ts aqius) = Ok averages ->
     forall d, In d (map date averages) <-> In d (dates_of (zip ts aqius))).
Proof.
  split.
  - intros history_data averages H.
    destruct (history_result _ _ H) as [->|(ts & aqius & sums & counts & _ & _ & Hacc & ->)].
    + constructor.
    + apply sorted_keys_ascending. apply (acc_nodup _ _ _ Hacc). constructor.
  - intros ts aqius averages H d.
    destruct (history_result _ _ H)
      as [->|(ts' & aqius' & sums & counts & Heq & Hall & Hacc & ->)].
    + simpl. split; [contradiction|]. intro Hd. exfalso.
      pose proof (history_loop_inv (zip ts aqius) ([], [])) as Hinv.
      unfold calculate_daily_history_averages, history_of in H.
      cbn [h_pollution hp_ts hp_aqius] in H.
      destruct aqius as [|a aqius]; [destruct ts; contradiction|].
      destruct (history_loop ([], []) (zip ts (a :: aqius))) as [[sums counts]|e] eqn:Hrun;
        [|discriminate].
      specialize (Hinv _ eq_refl).
      destruct (history_loop_ok _ ([], []) Hinv) as (acc' & Hrun' & Hacc).
      rewrite Hrun in Hrun'. injection Hrun' as <-.
      cbn [bind] in H. apply history_entries_inv in H.
      assert (Hin : In d (sorted (fun x => x) (keys sums))).
      { apply (Permutation_in _ (sorted_perm _ _)).
        apply (acc_keys_sums _ _ _ Hacc). right. exact Hd. }
      destruct (sorted (fun x => x) (keys sums)); [contradiction|discriminate].
    + injection Heq as <- <-. rewrite map_date_average. split.
      * intro Hd. apply (Permutation_in _ (Permutation_sym (sorted_perm _ _))) in Hd.
        apply (acc_keys_sums _ _ _ Hacc) in Hd. destruct Hd as [[]|Hd]. exact Hd.
      * intro Hd. apply (Permutation_in _ (sorted_perm _ _)).
        apply (acc_keys_sums _ _ _ Hacc). right. exact Hd.
Qed.

(** X8.  An average never leaves the range of the readings it is made of:
    when the readings are numbers whose sizes add up to less than [2^52] and
    all the readings of a date lie between [lo] and [hi], so does the [aqi]
    of the entry of that date. *)
Theorem history_average_within_readings (ts : list string) (aqius : list (option Z)) :
  all_numbers (zip ts aqius) ->
  magnitude (zip ts aqius) < 2 ^ 52 ->
  exists averages,
    calculate_daily_history_averages (history_of ts aqius) = Ok averages /\
    forall e, In e averages ->
    forall lo hi,
      (forall r, In r (readings_on (date e) (zip ts aqius)) -> lo <= r <= hi) ->
      exists m, aqi e = Some m /\ lo <= m <= hi.
Proof.
  intros Hall Hsmall.
  destruct (history_averages_ok ts aqius Hall Hsmall) as (sums & counts & Hacc & Heq).
  eexists. split; [exact Heq|]. intros e He lo hi Hr.
  apply in_map_iff in He. destruct He as (d & <- & Hd).
  apply (Permutation_in _ (Permutation_sym (sorted_perm _ _))) in Hd.
  apply (acc_keys_sums _ _ _ Hacc) in Hd. destruct Hd as [[]|Hd].
  rewrite (average_entry_of_run _ _ _ _ Hacc Hall Hsmall Hd) in Hr |- *.
  cbn [date aqi] in Hr |- *. eexists. split; [reflexivity|].
  apply rounded_mean_bounds; [apply readings_on_pos; assumption|exact Hr].
Qed.

(** X26.  Readings of any size.  When the paired readings are numbers,
    either the function returns its entries, and the [aqi] of each is the
    integer that [round] gives for the float nearest to the mean of the
    readings of its date, or it raises the [OverflowError] of a quotient
    that no float holds. *)
Theorem history_average_rounds_the_float (ts : list string) (aqius : list (option Z)) :
  all_numbers (zip ts aqius) ->
  (exists averages,
     calculate_daily_history_averages (history_of ts aqius) = Ok averages /\
     forall e, In e averages ->
       aqi e = Some (round_float (nearest_float
                 (inject_Z (total (readings_on (date e) (zip ts aqius))) /
                  inject_Z (count (readings_on (date e) (zip ts aqius))))))) \/
  calculate_daily_history_averages (history_of ts aqius) =
    Raise (OverflowError "integer division result too large for a float").
Proof.
  intro Hall.
  destruct (history_loop_ok (zip ts aqius) ([], []) Hall) as ([sums counts] & Hrun & Hacc).
  destruct aqius as [|a aqius].
  - left. exists []. split; [reflexivity|]. intros e [].
  - unfold calculate_daily_history_averages, history_of.
    cbn [h_pollution hp_ts hp_aqius]. rewrite Hrun. cbn [bind].
    destruct (history_entries_cases sums counts (sorted (fun d => d) (keys sums)))
      as [Hok|Hover].
    + intros d Hd.
      apply (Permutation_in _ (Permutation_sym (sorted_perm (fun d => d) (keys sums))))
        in Hd.
      assert (Hdate : In d (dates_of (zip ts (a :: aqius)))).
      { apply (acc_keys_sums _ _ _ Hacc) in Hd. destruct Hd as [[]|Hd]. exact Hd. }
      split; [exact Hd|]. split; [apply (acc_keys_counts _ _ _ Hacc); right; exact Hdate|].
      rewrite (proj2 (accumulated_date sums counts _ d Hacc)).
      apply readings_on_pos; assumption.
    + left. eexists. split; [exact Hok|]. intros e He.
      apply in_map_iff in He. destruct He as (d & <- & _).
      unfold average_entry. cbn [date aqi].
      destruct (accumulated_date sums counts _ d Hacc) as [-> ->]. reflexivity.
    + right. exact Hover.
Qed.

(* ===================================================================== *)
(** * Further properties of the client *)
(* ===================================================================== *)

Module RetryFacts.

Lemma sleep_negative (d : Z) (w : World) :
  - sleep_max <= d < 0 ->
  sleep d w = Raise (ValueError "sleep length must be non-negative").
Proof.
  intro H. unfold sleep.
  destruct (Z.ltb_spec d (- sleep_max)); [lia|].
  destruct (Z.ltb_spec sleep_max d); [lia|].
  destruct (Z.ltb_spec d 0); [reflexivity|lia].
Qed.

Lemma sleep_too_long (d : Z) (w : World) :
  d < - sleep_max \/ sleep_max < d ->
  sleep d w = Raise (OverflowError "timestamp too large to convert to C _PyTime_t").
Proof.
  intro H. unfold sleep.
  destruct (Z.ltb_spec d (- sleep_max)); [reflexivity|].
  destruct (Z.ltb_spec sleep_max d); [reflexivity|lia].
Qed.

Lemma after_one (w : World) :
  mkWorld (S (requests_made w)) (slept w) = after w 1 [].
Proof. unfold after. rewrite Nat.add_1_r, app_nil_r. reflexivity. Qed.

Lemma after_one_sleep (w : World) (d : Z) :
  mkWorld (S (requests_made w)) (slept w ++ [d]) = after w 1 [d].
Proof. unfold after. rewrite Nat.add_1_r. reflexivity. Qed.

(** [time.sleep] takes the delays from 0 to [sleep_max] and raises on the
    others. *)
Lemma sleep_cases (d : Z) (w : World) :
  (sleepable d /\ sleep d w = Ok (mkWorld (requests_made w) (slept w ++ [d]))) \/
  (~ sleepable d /\
   (sleep d w = Raise (ValueError "sleep length must be non-negative") \/
    sleep d w = Raise (OverflowError "timestamp too large to convert to C _PyTime_t"))).
Proof.
  unfold sleep, sleepable.
  assert (Hmax : 0 < sleep_max) by reflexivity.
  destruct (Z.ltb_spec d (- sleep_max)); [right; split; [lia|right; reflexivity]|].
  destruct (Z.ltb_spec sleep_max d); [right; split; [lia|right; reflexivity]|].
  destruct (Z.ltb_spec d 0); [right; split; [lia|left; reflexivity]|].
  left. split; [lia|reflexivity].
Qed.

(** How one turn can end, and the world it leaves. *)
Lemma attempt_once_cases (env : Env) (city state country : string)
    (initial_delay : Z) (w w' : World) (step : Step) :
  attempt_once env city state country initial_delay w = (step, w') ->
  (exists r, step = Return r /\ w' = after w 1 []) \/
  (step = Continue (initial_delay * 2) /\ w' = after w 1 [initial_delay]
   /\ sleepable initial_delay) \/
  (exists e, step = Propagate e /\ w' = after w 1 [] /\ ~ sleepable initial_delay).
Proof.
  unfold attempt_once, try_block. cbv zeta.
  destruct (sleep_cases initial_delay (mkWorld (S (requests_made w)) (slept w)))
    as [[Hs E]|[Hs [E|E]]]; cbn [requests_made slept] in E;
    (destruct (requests_get env (requests_made w)) as [response|e0];
     [destruct (raise_for_status response) as [msg|];
      [destruct (status_code response =? 429)
      |destruct (json_body response) as [data|e0];
       [destruct (is_success data) as [[|]|e0];
        [destruct (build_success env city state country data) as [r|e0];
         [|destruct e0 as [code ?|?|?|?|?|?|?|?]; [destruct (code =? 429)| | | | | | |]]
        |destruct (status_code response =? 429); [|destruct data as [status [d|]|j]]
        |destruct e0 as [code ?|?|?|?|?|?|?|?]; [destruct (code =? 429)| | | | | | |]]
       |destruct e0 as [code ?|?|?|?|?|?|?|?]; [destruct (code =? 429)| | | | | | |]]]
     |destruct e0 as [code ?|?|?|?|?|?|?|?]; [destruct (code =? 429)| | | | | | |]]);
    rewrite ?E; unfold no_get; cbv beta iota;
    intros [= <- <-]; rewrite ?after_one, ?after_one_sleep;
    first [ left; eexists; split; reflexivity
          | right; left; split; [reflexivity|split; [reflexivity|exact Hs]]
          | right; right; eexists; split; [reflexivity|split; [reflexivity|exact Hs]] ].
Qed.

(** When every delay of the backoff can be slept, a turn returns or goes
    on. *)
Lemma retry_loop_returns (env : Env) (city state country : string) (max_retries : Z)
    (n : nat) :
  forall initial_delay w,
  Forall sleepable (backoff n initial_delay) ->
  exists r w',
    retry_loop env city state country max_retries n initial_delay w = (Returned r, w').
Proof.
  induction n as [|n IH]; intros d w Hd; simpl.
  - eexists. eexists. reflexivity.
  - cbn [backoff] in Hd. inversion Hd as [|? ? Hd0 Hd']; subst.
    destruct (attempt_once env city state country d w) as [step w1] eqn:E.
    destruct (attempt_once_cases _ _ _ _ _ _ _ _ E)
      as [(r & -> & _)|[(-> & _ & _)|(e & _ & _ & Hno)]].
    + eexists. eexists. reflexivity.
    + apply IH. exact Hd'.
    + contradiction.
Qed.

(** The requests and the sleeps of a call. *)
Lemma retry_loop_world (env : Env) (city state country : string) (max_retries : Z)
    (n : nat) :
  forall initial_delay w,
  exists k,
    (k <= n)%nat /\
    snd (retry_loop env city state country max_retries n initial_delay w) =
      after w (Nat.min n (k + 1)) (backoff k initial_delay).
Proof.
  induction n as [|n IH]; intros d w; simpl.
  - exists 0%nat. split; [lia|]. simpl. symmetry. apply after_nothing.
  - destruct (attempt_once env city state country d w) as [step w1] eqn:E.
    destruct (attempt_once_cases _ _ _ _ _ _ _ _ E)
      as [(r & -> & ->)|[(-> & -> & _)|(e & -> & -> & _)]].
    + exists 0%nat. split; [lia|]. simpl. destruct n; reflexivity.
    + destruct (IH (d * 2) (after w 1 [d])) as (k & Hk & Hw).
      exists (S k). split; [lia|]. rewrite Hw, after_after. cbn [backoff app].
      f_equal; lia.
    + exists 0%nat. split; [lia|]. simpl. destruct n; reflexivity.
Qed.

(** A call whose first turn returns, or lets an exception go, ends there. *)
Lemma first_turn_returns (env : Env) (city state country : string)
    (max_retries initial_delay : Z) (w w' : World) (r : FetchResult) :
  0 < max_retries ->
  attempt_once env city state country initial_delay w = (Return r, w') ->
  get_air_quality_data env city state country max_retries initial_delay w
    = (Returned r, w').
Proof.
  intros Hm Ha. unfold get_air_quality_data.
  destruct (Z.to_nat max_retries) as [|n] eqn:E; [lia|].
  simpl. rewrite Ha. reflexivity.
Qed.

Lemma first_turn_raises (env : Env) (city state country : string)
    (max_retries initial_delay : Z) (w w' : World) (e : exn) :
  0 < max_retries ->
  attempt_once env city state country initial_delay w = (Propagate e, w') ->
  get_air_quality_data env city state country max_retries initial_delay w
    = (Raised e, w').
Proof.
  intros Hm Ha. unfold get_air_quality_data.
  destruct (Z.to_nat max_retries) as [|n] eqn:E; [lia|].
  simpl. rewrite Ha. reflexivity.
Qed.

(** A success payload whose processing raises an exception that is not one
    of [requests]. *)
Lemma attempt_once_processing_raises (env : Env) (city state country : string)
    (initial_delay : Z) (w : World) (response : Response) (data : Payload) (e : exn) :
  requests_get env (requests_made w) = Ok response ->
  raise_for_status response = None ->
  json_body response = Ok data ->
  is_success data = Ok true ->
  build_success env city state country data = Raise e ->
  is_other_exception e = true ->
  attempt_once env city state country initial_delay w
    = (Return (unexpected_text e), after w 1 []).
Proof.
  intros Ho Hraise Hjson Hs Hb He. unfold attempt_once, try_block.
  rewrite Ho, Hraise, Hjson, Hs, Hb, after_one.
  destruct e; try discriminate; reflexivity.
Qed.

End RetryFacts.

Import RetryFacts.

(** X9.  When every delay of the backoff is one that [time.sleep] takes,
    not negative and not above [sleep_max], as the 1, 2 and 4 of the defaults
    are, a call of [get_air_quality_data] always returns a result: no
    exception reaches its caller, whatever the remote does. *)
Theorem no_exception_leaves_the_client (env : Env) (city state country : string)
    (max_retries initial_delay : Z) (w : World) :
  Forall sleepable (backoff (Z.to_nat max_retries) initial_delay) ->
  exists r w',
    get_air_quality_data env city state country max_retries initial_delay w
      = (Returned r, w').
Proof. intro Hd. apply retry_loop_returns. exact Hd. Qed.

(** X10.  A call sends at most [max_retries] requests, and none when
    [max_retries] is 0 or less.  It sleeps only between them: for some [k]
    that is at most [max_retries], it has slept [k] times, the delay first
    and twice the time before from then on, and has sent [k + 1] requests,
    or [k] when [k] is [max_retries]. *)
Theorem requests_and_sleeps_of_a_call (env : Env) (city state country : string)
    (max_retries initial_delay : Z) (w : World) :
  exists k,
    (k <= Z.to_nat max_retries)%nat /\
    snd (get_air_quality_data env city state country max_retries initial_delay w) =
      after w (Nat.min (Z.to_nat max_retries) (k + 1)) (backoff k initial_delay).
Proof. apply retry_loop_world. Qed.

(** X11.  With a negative delay, down to [- sleep_max], the two ways of
    meeting a 429 part: a 429 raised by [raise_for_status] makes
    [time.sleep] raise inside the [except] clause, and that [ValueError]
    reaches the caller; a 429 left as the status of a response makes it
    raise inside the [try] block, and the call returns a failure result.
    Either way one request was sent and nothing was slept. *)
Theorem negative_delay_on_429 (env : Env) (city state country : string)
    (max_retries initial_delay : Z) (w : World) (response : Response) :
  - sleep_max <= initial_delay < 0 ->
  0 < max_retries ->
  requests_get env (requests_made w) = Ok response ->
  status_code response = 429 ->
  (forall msg,
     raise_for_status response = Some msg ->
     get_air_quality_data env city state country max_retries initial_delay w =
       (Raised (ValueError "sleep length must be non-negative"), after w 1 [])) /\
  (forall data,
     raise_for_status response = None ->
     json_body response = Ok data ->
     is_success data = Ok false ->
     get_air_quality_data env city state country max_retries initial_delay w =
       (Returned (unexpected_text (ValueError "sleep length must be non-negative")),
        after w 1 [])).
Proof.
  intros Hd Hm Ho Hcode. split.
  - intros msg Hraise. apply first_turn_raises; [exact Hm|].
    unfold attempt_once, try_block. rewrite Ho, Hraise, Hcode, after_one.
    cbn [Z.eqb Pos.eqb]. rewrite sleep_negative by exact Hd. reflexivity.
  - intros data Hraise Hjson Hs. apply first_turn_returns; [exact Hm|].
    unfold attempt_once, try_block. rewrite Ho, Hraise, Hjson, Hs, Hcode.
    cbn [Z.eqb Pos.eqb]. rewrite sleep_negative by exact Hd.
    rewrite after_one. reflexivity.
Qed.

(** X25.  With a delay beyond [sleep_max], on either side of 0,
    [time.sleep] raises [OverflowError] at the first 429 and nothing is
    retried: a 429 raised by [raise_for_status] lets the exception reach the
    caller, a 429 left as the status of a response gives a failure result.
    Either way one request was sent and nothing was slept. *)
Theorem oversized_delay_on_429 (env : Env) (city state country : string)
    (max_retries initial_delay : Z) (w : World) (response : Response) :
  initial_delay < - sleep_max \/ sleep_max < initial_delay ->
  0 < max_retries ->
  requests_get env (requests_made w) = Ok response ->
  status_code response = 429 ->
  (forall msg,
     raise_for_status response = Some msg ->
     get_air_quality_data env city state country max_retries initial_delay w =
       (Raised (OverflowError "timestamp too large to convert to C _PyTime_t"),
        after w 1 [])) /\
  (forall data,
     raise_for_status response = None ->
     json_body response = Ok data ->
     is_success data = Ok false ->
     get_air_quality_data env city state country max_retries initial_delay w =
       (Returned (unexpected_text
                    (OverflowError "timestamp too large to convert to C _PyTime_t")),
        after w 1 [])).
Proof.
  intros Hd Hm Ho Hcode. split.
  - intros msg Hraise. apply first_turn_raises; [exact Hm|].
    unfold attempt_once, try_block. rewrite Ho, Hraise, Hcode, after_one.
    cbn [Z.eqb Pos.eqb]. rewrite sleep_too_long by exact Hd. reflexivity.
  - intros data Hraise Hjson Hs. apply first_turn_returns; [exact Hm|].
    unfold attempt_once, try_block. rewrite Ho, Hraise, Hjson, Hs, Hcode.
    cbn [Z.eqb Pos.eqb]. rewrite sleep_too_long by exact Hd.
    rewrite after_one. reflexivity.
Qed.

(** X12.  What the failure result of a first attempt says: a network
    failure gives "API Request Error: " and its text; an HTTP error other
    than 429 gives "API HTTP Error: " and its text; a payload whose status
    is not "success" gives the payload's own ["data"], or "City data not
    available. Status: " and the status code when it has none; any other
    exception gives "An unexpected error occurred: " and its text.  One
    request was sent and nothing was slept. *)
Theorem failure_says_why (env : Env) (city state country : string)
    (max_retries initial_delay : Z) (w : World) :
  0 < max_retries ->
  let call := get_air_quality_data env city state country max_retries initial_delay w in
  (forall msg,
     requests_get env (requests_made w) = Raise (RequestException msg) ->
     call = (Returned (Failure (ErrorText ("API Request Error: " ++ msg))),
             after w 1 [])) /\
  (forall response msg,
     requests_get env (requests_made w) = Ok response ->
     raise_for_status response = Some msg ->
     status_code response <> 429 ->
     call = (Returned (Failure (ErrorText ("API HTTP Error: " ++ msg))),
             after w 1 [])) /\
  (forall response status d,
     requests_get env (requests_made w) = Ok response ->
     raise_for_status response = None ->
     json_body response = Ok (PayloadObject status (Some d)) ->
     status <> Some "success" ->
     status_code response <> 429 ->
     call = (Returned (Failure (ErrorData d)), after w 1 [])) /\
  (forall response status,
     requests_get env (requests_made w) = Ok response ->
     raise_for_status response = None ->
     json_body response = Ok (PayloadObject status None) ->
     status <> Some "success" ->
     status_code response <> 429 ->
     call = (Returned (Failure (ErrorText ("City data not available. Status: "
                                             ++ str_int (status_code response)))),
             after w 1 [])) /\
  (forall response e,
     requests_get env (requests_made w) = Ok response ->
     raise_for_status response = None ->
     json_body response = Raise e ->
     is_other_exception e = true ->
     call = (Returned (unexpected_text e), after w 1 [])).
Proof.
  intros Hm call.
  assert (Hfail : forall status, status <> Some "success" ->
            forall d, is_success (PayloadObject status d) = Ok false).
  { intros [s|] Hs d; [|reflexivity]. simpl.
    destruct (String.eqb_spec s "success") as [->|_]; [contradiction|reflexivity]. }
  repeat split.
  - intros msg Ho. apply first_turn_returns; [exact Hm|].
    unfold attempt_once, try_block. rewrite Ho, after_one. reflexivity.
  - intros response msg Ho Hraise Hcode. apply first_turn_returns; [exact Hm|].
    unfold attempt_once, try_block. rewrite Ho, Hraise, after_one.
    destruct (Z.eqb_spec (status_code response) 429); [contradiction|reflexivity].
  - intros response status d Ho Hraise Hjson Hs Hcode.
    apply first_turn_returns; [exact Hm|].
    unfold attempt_once, try_block.
    rewrite Ho, Hraise, Hjson, (Hfail status Hs), after_one.
    destruct (Z.eqb_spec (status_code response) 429); [contradiction|reflexivity].
  - intros response status Ho Hraise Hjson Hs Hcode.
    apply first_turn_returns; [exact Hm|].
    unfold attempt_once, try_block.
    rewrite Ho, Hraise, Hjson, (Hfail status Hs), after_one.
    destruct (Z.eqb_spec (status_code response) 429); [contradiction|reflexivity].
  - intros response e Ho Hraise Hjson He. apply first_turn_returns; [exact Hm|].
    unfold attempt_once, try_block. rewrite Ho, Hraise, Hjson, after_one.
    destruct e; try discriminate; reflexivity.
Qed.

(** X13.  One [null] among the readings that [zip] pairs with a timestamp
    fails the whole lookup: the payload may say "success", the call returns
    the failure result of the [TypeError] that the sum raised, after one
    request and no sleep. *)
Theorem null_reading_fails_the_lookup (env : Env) (city state country : string)
    (max_retries initial_delay : Z) (w : World) (response : Response)
    (current : option Current) (ts : list string) (aqius : list (option Z))
    (forecast : option Forecast) :
  0 < max_retries ->
  requests_get env (requests_made w) = Ok response ->
  raise_for_status response = None ->
  json_body response =
    Ok (PayloadObject (Some "success")
          (Some (DataObject (mkCityData current (history_of ts aqius) forecast)))) ->
  ~ all_numbers (zip ts aqius) ->
  get_air_quality_data env city state country max_retries initial_delay w =
    (Returned (Failure (ErrorText
       "An unexpected error occurred: unsupported operand type(s) for +: 'int' and 'NoneType'")),
     after w 1 []).
Proof.
  intros Hm Ho Hraise Hjson Hnull. apply first_turn_returns; [exact Hm|].
  apply (attempt_once_processing_raises env city state country initial_delay w
           response _ (TypeError "unsupported operand type(s) for +: 'int' and 'NoneType'")
           Ho Hraise Hjson eq_refl); [|reflexivity].
  unfold build_success, daily_aqi_summary. cbn [cd_history].
  rewrite (history_type_error ts aqius Hnull). reflexivity.
Qed.

(** X14.  A forecast day without ["ts"] fails the whole lookup as well:
    when the history is read without error, the call returns the failure
    result of the [KeyError], whose text is ['ts'] in quotes. *)
Theorem forecast_day_without_ts_fails_the_lookup (env : Env)
    (city state country : string) (max_retries initial_delay : Z) (w : World)
    (response : Response) (city_data : CityData) (daily : list ForecastDay)
    (history_averages : list DailyAqiEntry) :
  0 < max_retries ->
  requests_get env (requests_made w) = Ok response ->
  raise_for_status response = None ->
  json_body response = Ok (PayloadObject (Some "success") (Some (DataObject city_data))) ->
  calculate_daily_history_averages (cd_history city_data) = Ok history_averages ->
  cd_forecast city_data = Some (mkForecast (Some daily)) ->
  Exists (fun day => fd_ts day = None) daily ->
  get_air_quality_data env city state country max_retries initial_delay w =
    (Returned (Failure (ErrorText "An unexpected error occurred: 'ts'")),
     after w 1 []).
Proof.
  intros Hm Ho Hraise Hjson Hh Hf Hday. apply first_turn_returns; [exact Hm|].
  apply (attempt_once_processing_raises env city state country initial_delay w
           response _ (KeyError "ts") Ho Hraise Hjson eq_refl); [|reflexivity].
  unfold build_success, daily_aqi_summary. rewrite Hh, Hf. cbn [bind].
  unfold calculate_daily_forecast_aqi. cbn [f_daily].
  rewrite (forecast_entries_key_error daily Hday). reflexivity.
Qed.

(* ===================================================================== *)
(** * Properties of the HTTP layer *)
(* ===================================================================== *)

Module HandlerFacts.

Lemma given_dec (args : Args) (k : string) :
  (exists s, get args k = Some s /\ nonempty s = true) \/ ~ given args k.
Proof.
  unfold given, nonempty. destruct (get args k) as [s|].
  - destruct (String.eqb_spec s "") as [->|Hne].
    + right. intros (s & [= <-] & Hs). apply Hs. reflexivity.
    + left. exists s. split; [reflexivity|].
      apply negb_true_iff, String.eqb_neq, Hne.
  - right. intros (s & Hs & _). discriminate.
Qed.

Lemma given_nonempty (args : Args) (k s : string) :
  given args k -> get args k = Some s -> nonempty s = true.
Proof.
  intros (s' & Hs' & Hne) Hs. rewrite Hs in Hs'. injection Hs' as <-.
  unfold nonempty. destruct (String.eqb_spec s ""); [contradiction|reflexivity].
Qed.

Lemma not_given (args : Args) (k : string) :
  ~ given args k ->
  get args k = None \/ exists s, get args k = Some s /\ nonempty s = false.
Proof.
  intro Hn. destruct (get args k) as [s|] eqn:E; [right|left; reflexivity].
  exists s. split; [reflexivity|]. unfold nonempty.
  destruct (String.eqb_spec s "") as [->|Hne]; [reflexivity|].
  exfalso. apply Hn. exists s. split; assumption.
Qed.

(** The two calls of [compare_cities] return. *)
Lemma default_call_returns (env : Env) (city state country : string) (w : World) :
  exists data w',
    get_air_quality_data env city state country 3 1 w = (Returned data, w').
Proof.
  apply RetryFacts.retry_loop_returns.
  repeat constructor; unfold sleep_max; lia.
Qed.

Lemma all_given_spec (args : Args) (ks : list string) :
  all_given args ks = true <-> Forall (given args) ks.
Proof.
  unfold all_given. rewrite forallb_forall, Forall_forall.
  split; intros Hall k Hk; specialize (Hall k Hk).
  - destruct (get args k) as [s|] eqn:E; [|discriminate].
    exists s. split; [exact E|]. intros ->. discriminate.
  - destruct Hall as (s & -> & Hs). unfold nonempty.
    destruct (String.eqb_spec s ""); [contradiction|reflexivity].
Qed.

(** [compare_cities], with the six tests as one. *)
Lemma compare_cities_eq (args : Args) (env : Env) (w : World) :
  compare_cities args env w =
  if all_given args compare_parameters then
    match get_air_quality_data env (parameter args "c1_city")
            (parameter args "c1_state") (parameter args "c1_country") 3 1 w with
    | (Raised e, w1) => (Raise e, w1)
    | (Returned data1, w1) =>
        match get_air_quality_data env (parameter args "c2_city")
                (parameter args "c2_state") (parameter args "c2_country") 3 1 w1 with
        | (Raised e, w2) => (Raise e, w2)
        | (Returned data2, w2) =>
            match conclude (parameter args "c1_city") (parameter args "c2_city")
                    data1 data2 with
            | Raise e => (Raise e, w2)
            | Ok c => (Ok (Compared (mkComparison data1 data2 c), 200), w2)
            end
        end
    end
  else (Ok (CompareRefused compare_refusal, 400), w).
Proof.
  unfold compare_cities, all_given, compare_parameters, parameter, get_default.
  cbn [forallb].
  destruct (get args "c1_city") as [a|]; [|reflexivity].
  destruct (get args "c1_state") as [b|]; [|rewrite ?andb_false_r; reflexivity].
  destruct (get args "c1_country") as [c|]; [|rewrite ?andb_false_r; reflexivity].
  destruct (get args "c2_city") as [d|]; [|rewrite ?andb_false_r; reflexivity].
  destruct (get args "c2_state") as [e|]; [|rewrite ?andb_false_r; reflexivity].
  destruct (get args "c2_country") as [f|]; [|rewrite ?andb_false_r; reflexivity].
  rewrite andb_true_r.
  destruct (nonempty a), (nonempty b), (nonempty c), (nonempty d), (nonempty e),
    (nonempty f); reflexivity.
Qed.

End HandlerFacts.

Import HandlerFacts.

(** X15.  [city_resume] always answers, with 400 or with 200.  It answers
    400, with its own message and without sending a request, exactly when one
    of [city], [state], [country] is missing or empty; otherwise the body is
    what [get_air_quality_data] returns for the three with its defaults. *)
Theorem city_resume_answers (args : Args) (env : Env) (w : World) :
  exists data status w',
    city_resume args env w = (Ok (data, status), w') /\
    ((status = 400 /\ w' = w /\
      data = Failure (ErrorText "City, state, and country are required.") /\
      ~ Forall (given args) resume_parameters) \/
     (status = 200 /\
      exists city state country,
        get args "city" = Some city /\ get args "state" = Some state /\
        get args "country" = Some country /\
        Forall (given args) resume_parameters /\
        get_air_quality_data env city state country 3 1 w = (Returned data, w'))).
Proof.
  unfold city_resume, resume_parameters.
  assert (Hrefuse : forall k, In k ["city"; "state"; "country"] -> ~ given args k ->
            ~ Forall (given args) ["city"; "state"; "country"]).
  { intros k Hk Hn Hall. rewrite Forall_forall in Hall. exact (Hn (Hall k Hk)). }
  destruct (given_dec args "city") as [(city & Hc & Hcn)|Hc].
  2:{ destruct (not_given _ _ Hc) as [->|(s & -> & Hs)].
      - eexists. eexists. eexists. split; [reflexivity|]. left.
        repeat split. apply (Hrefuse "city"); simpl; auto.
      - destruct (get args "state"), (get args "country"); try rewrite Hs;
          cbn [andb]; eexists; eexists; eexists; (split; [reflexivity|]); left;
          repeat split; apply (Hrefuse "city"); simpl; auto. }
  rewrite Hc.
  destruct (given_dec args "state") as [(state & Hs & Hsn)|Hs].
  2:{ destruct (not_given _ _ Hs) as [->|(s & -> & Hse)].
      - eexists. eexists. eexists. split; [reflexivity|]. left.
        repeat split. apply (Hrefuse "state"); simpl; auto.
      - destruct (get args "country"); try rewrite Hse, andb_false_r;
          cbn [andb]; eexists; eexists; eexists; (split; [reflexivity|]); left;
          repeat split; apply (Hrefuse "state"); simpl; auto. }
  rewrite Hs.
  destruct (given_dec args "country") as [(country & Hco & Hcon)|Hco].
  2:{ destruct (not_given _ _ Hco) as [->|(s & -> & Hse)].
      - eexists. eexists. eexists. split; [reflexivity|]. left.
        repeat split. apply (Hrefuse "country"); simpl; auto.
      - rewrite Hse, andb_false_r. eexists. eexists. eexists.
        split; [reflexivity|]. left.
        repeat split. apply (Hrefuse "country"); simpl; auto. }
  rewrite Hco, Hcn, Hsn, Hcon. cbn [andb].
  destruct (default_call_returns env city state country w) as (data & w' & Hcall).
  rewrite Hcall. exists data, 200, w'. split; [reflexivity|]. right.
  split; [reflexivity|]. exists city, state, country.
  assert (Hg : forall k s, get args k = Some s -> nonempty s = true -> given args k).
  { intros k s Hk Hn. exists s. split; [exact Hk|]. intros ->. discriminate. }
  repeat split; try assumption.
  repeat constructor; eapply Hg; eassumption.
Qed.

(** X16.  [compare_cities] on a request that has its six parameters, when
    both lookups succeed with a current AQI: the answer is 200, holds both
    results, and concludes for the city of the lower AQI, the first city
    when the first AQI is lower, the second when the second is, and says
    that both have the same AQI, quoting it, when they are equal. *)
Theorem compare_cities_concludes (args : Args) (env : Env) (w w1 w2 : World)
    (r1 r2 : AirQuality) (a1 a2 : Z) :
  let c1_city := parameter args "c1_city" in
  let c2_city := parameter args "c2_city" in
  Forall (given args) compare_parameters ->
  get_air_quality_data env c1_city (parameter args "c1_state")
    (parameter args "c1_country") 3 1 w = (Returned (Success r1), w1) ->
  get_air_quality_data env c2_city (parameter args "c2_state")
    (parameter args "c2_country") 3 1 w1 = (Returned (Success r2), w2) ->
  r_aqi_us r1 = Some a1 ->
  r_aqi_us r2 = Some a2 ->
  exists text,
    compare_cities args env w =
      (Ok (Compared (mkComparison (Success r1) (Success r2) (Some text)), 200), w2) /\
    (a1 < a2 ->
     text = c1_city ++ " has better air quality (lower Current AQI) than "
              ++ c2_city ++ ".") /\
    (a2 < a1 ->
     text = c2_city ++ " has better air quality (lower Current AQI) than "
              ++ c1_city ++ ".") /\
    (a1 = a2 ->
     text = "Both cities have the same Current AQI (" ++ str_int a1 ++ ").").
Proof.
  intros c1_city c2_city Hall H1 H2 Ha1 Ha2.
  rewrite compare_cities_eq. rewrite (proj2 (all_given_spec _ _) Hall).
  fold c1_city c2_city. rewrite H1, H2.
  unfold conclude. rewrite Ha1, Ha2. cbn [aqi_lt aqi_gt bind str_aqi].
  destruct (Z.ltb_spec a1 a2) as [Hlt|Hge].
  - eexists. split; [reflexivity|]. repeat split; intros; first [reflexivity|lia].
  - destruct (Z.ltb_spec a2 a1) as [Hgt|Hle].
    + eexists. split; [reflexivity|]. repeat split; intros; first [reflexivity|lia].
    + eexists. split; [reflexivity|]. repeat split; intros; first [reflexivity|lia].
Qed.

(** X17.  When one of the two lookups fails, [compare_cities] still
    answers 200 with both results, and draws no conclusion. *)
Theorem compare_cities_without_conclusion (args : Args) (env : Env) (w w1 w2 : World)
    (data1 data2 : FetchResult) :
  Forall (given args) compare_parameters ->
  get_air_quality_data env (parameter args "c1_city") (parameter args "c1_state")
    (parameter args "c1_country") 3 1 w = (Returned data1, w1) ->
  get_air_quality_data env (parameter args "c2_city") (parameter args "c2_state")
    (parameter args "c2_country") 3 1 w1 = (Returned data2, w2) ->
  (exists error, data1 = Failure error) \/ (exists error, data2 = Failure error) ->
  compare_cities args env w =
    (Ok (Compared (mkComparison data1 data2 None), 200), w2).
Proof.
  intros Hall H1 H2 Hfail.
  rewrite compare_cities_eq, (proj2 (all_given_spec _ _) Hall), H1, H2.
  destruct Hfail as [(error & ->)|(error & ->)]; [reflexivity|].
  destruct data1; reflexivity.
Qed.

(** X18.  When both lookups succeed and one of the two results has no
    current AQI, the comparison [aqi1 < aqi2] raises: [compare_cities]
    answers nothing, a [TypeError] leaves the handler after both lookups
    were made. *)
Theorem compare_cities_needs_both_aqi (args : Args) (env : Env) (w w1 w2 : World)
    (r1 r2 : AirQuality) :
  Forall (given args) compare_parameters ->
  get_air_quality_data env (parameter args "c1_city") (parameter args "c1_state")
    (parameter args "c1_country") 3 1 w = (Returned (Success r1), w1) ->
  get_air_quality_data env (parameter args "c2_city") (parameter args "c2_state")
    (parameter args "c2_country") 3 1 w1 = (Returned (Success r2), w2) ->
  r_aqi_us r1 = None \/ r_aqi_us r2 = None ->
  compare_cities args env w =
    (Raise (TypeError ("'<' not supported between instances of '"
                         ++ aqi_type (r_aqi_us r1) ++ "' and '"
                         ++ aqi_type (r_aqi_us r2) ++ "'")), w2).
Proof.
  intros Hall H1 H2 Hnone.
  rewrite compare_cities_eq, (proj2 (all_given_spec _ _) Hall), H1, H2.
  unfold conclude.
  destruct (r_aqi_us r1) as [a1|], (r_aqi_us r2) as [a2|]; try reflexivity.
  destruct Hnone; discriminate.
Qed.

(** X19.  [compare_cities] answers 400, with its own message and without
    sending a request, when one of its six parameters is missing or
    empty. *)
Theorem compare_cities_refuses (args : Args) (env : Env) (w : World) :
  ~ Forall (given args) compare_parameters ->
  compare_cities args env w = (Ok (CompareRefused compare_refusal, 400), w).
Proof.
  intro Hn. rewrite compare_cities_eq.
  destruct (all_given args compare_parameters) eqn:E; [|reflexivity].
  exfalso. apply Hn, all_given_spec, E.
Qed.

(* ===================================================================== *)
(** * Properties of the first population of the catalog *)
(* ===================================================================== *)

Module PopulateFacts.

Lemma requests_of_app (t1 t2 : list Event) :
  requests_of (t1 ++ t2) = (requests_of t1 ++ requests_of t2)%list.
Proof.
  induction t1 as [|[r|d] t1 IH]; simpl; [reflexivity| |exact IH].
  now rewrite IH.
Qed.

Lemma names_of_some (key : string) (names : list string) :
  names_of key (map Some names) = Ok names.
Proof.
  induction names as [|name names IH]; simpl; [reflexivity|].
  now rewrite IH.
Qed.

Lemma names_of_missing (key : string) (data : list (option string)) :
  In None data -> names_of key data = Raise (KeyError key).
Proof.
  induction data as [|[name|] data IH]; simpl; intros Hin.
  - contradiction.
  - destruct Hin as [Hin|Hin]; [discriminate|]. now rewrite (IH Hin).
  - reflexivity.
Qed.

Lemma spaced_app (p : Z) (t1 : list Event) :
  forall rest t2,
    spaced p rest (t1 ++ t2) <->
    spaced p rest t1 /\ spaced p (rest_after rest t1) t2.
Proof.
  induction t1 as [|[r|d] t1 IH]; intros rest t2; simpl.
  - tauto.
  - rewrite IH. tauto.
  - apply IH.
Qed.

Lemma rest_after_app (t1 : list Event) :
  forall rest t2,
    rest_after rest (t1 ++ t2) = rest_after (rest_after rest t1) t2.
Proof.
  induction t1 as [|[r|d] t1 IH]; intros rest t2; simpl; auto.
Qed.

Lemma follows_app (a : Z) (t1 t2 : list Event) :
  follows a t1 -> follows 0 t2 -> follows a (t1 ++ t2)%list.
Proof.
  intros F1 F2 rest Hrest.
  destruct (F1 rest Hrest) as [S1 R1].
  destruct (F2 _ R1) as [S2 R2].
  rewrite spaced_app, rest_after_app. auto.
Qed.

Lemma follows_nil (a : Z) : 0 <= a -> follows a [].
Proof. intros Ha rest Hrest. simpl. split; [exact I|lia]. Qed.

Lemma follows_sent (r : Request) : follows 60 [Sent r].
Proof. intros rest Hrest. simpl. repeat split; lia. Qed.

Lemma follows_slept (d : Z) : 0 <= d -> follows 0 [Slept d].
Proof. intros Hd rest Hrest. simpl. split; [exact I|lia]. Qed.

Lemma follows_slept_60 (t : list Event) :
  follows 60 t -> follows 0 (Slept 60 :: t).
Proof. intros F rest Hrest. simpl. apply F. lia. Qed.

Lemma follows_weaken (a b : Z) (t : list Event) :
  a <= b -> follows a t -> follows b t.
Proof. intros Hab F rest Hrest. apply F. lia. Qed.

(** What a turn adds to the run, whatever the remote answers. *)
Lemma states_turn_events (remote : ListRemote) (country : string) (w : Run) :
  exists tail,
    snd (states_turn remote country w) =
      mkRun (trace w ++ Sent (StatesRequest country) :: tail) (db_file w) /\
    follows 0 tail.
Proof.
  unfold states_turn, send, nap.
  repeat match goal with
         | |- context [match ?x with _ => _ end] => destruct x
         | |- context [if ?x then _ else _] => destruct x
         end; simpl;
    first [ exists []; split; [reflexivity|apply follows_nil; lia]
          | exists [Slept 60]; split;
            [now rewrite <- app_assoc|apply follows_slept; lia] ].
Qed.

Lemma cities_turn_events (remote : ListRemote) (state country : string) (w : Run) :
  exists tail,
    snd (cities_turn remote state country w) =
      mkRun (trace w ++ Sent (CitiesRequest state country) :: tail) (db_file w) /\
    follows 0 tail.
Proof.
  unfold cities_turn, send, nap.
  repeat match goal with
         | |- context [match ?x with _ => _ end] => destruct x
         | |- context [if ?x then _ else _] => destruct x
         end; simpl;
    first [ exists []; split; [reflexivity|apply follows_nil; lia]
          | exists [Slept 5]; split;
            [now rewrite <- app_assoc|apply follows_slept; lia] ].
Qed.

Lemma first_events (attempt : nat) (r : Request) (w : Run) :
  exists pre,
    match attempt with O => w | S _ => nap 60 w end =
      mkRun (trace w ++ pre) (db_file w) /\
    follows (match attempt with O => 60 | S _ => 0 end) (pre ++ [Sent r])%list.
Proof.
  destruct attempt as [|attempt].
  - exists []. split; [destruct w; simpl; now rewrite app_nil_r|apply follows_sent].
  - exists [Slept 60]. split; [reflexivity|].
    apply follows_slept_60, follows_sent.
Qed.

Lemma states_loop_events (remote : ListRemote) (country : string) (n : nat) :
  forall attempt w,
  exists new,
    snd (states_loop remote country n attempt w) =
      mkRun (trace w ++ new) (db_file w) /\
    follows (match attempt with O => 60 | S _ => 0 end) new.
Proof.
  induction n as [|n IH]; intros attempt w.
  - exists []. split; [destruct w; simpl; now rewrite app_nil_r|].
    apply follows_nil. destruct attempt; lia.
  - cbn [states_loop].
    destruct (first_events attempt (StatesRequest country) w) as [pre [E0 F0]].
    rewrite E0.
    destruct (states_turn_events remote country (mkRun (trace w ++ pre) (db_file w)))
      as [tail [E1 F1]].
    cbn [trace db_file] in E1.
    destruct (states_turn remote country (mkRun (trace w ++ pre) (db_file w)))
      as [[states| |e] w1]; cbn [snd] in E1 |- *; subst w1.
    + exists ((pre ++ [Sent (StatesRequest country)]) ++ tail)%list.
      split; [now rewrite <- !app_assoc|apply follows_app; assumption].
    + destruct (IH (S attempt)
                  (mkRun ((trace w ++ pre) ++ Sent (StatesRequest country) :: tail)
                         (db_file w))) as [new [E2 F2]].
      rewrite E2. cbn [trace db_file].
      exists (((pre ++ [Sent (StatesRequest country)]) ++ tail) ++ new)%list.
      split; [now rewrite <- !app_assoc|].
      apply follows_app; [apply follows_app; assumption|exact F2].
    + exists ((pre ++ [Sent (StatesRequest country)]) ++ tail)%list.
      split; [now rewrite <- !app_assoc|apply follows_app; assumption].
Qed.

Lemma cities_loop_events (remote : ListRemote) (state country : string) (n : nat) :
  forall attempt w,
  exists new,
    snd (cities_loop remote state country n attempt w) =
      mkRun (trace w ++ new) (db_file w) /\
    follows (match attempt with O => 60 | S _ => 0 end) new.
Proof.
  induction n as [|n IH]; intros attempt w.
  - exists []. split; [destruct w; simpl; now rewrite app_nil_r|].
    apply follows_nil. destruct attempt; lia.
  - cbn [cities_loop].
    destruct (first_events attempt (CitiesRequest state country) w) as [pre [E0 F0]].
    rewrite E0.
    destruct (cities_turn_events remote state country
                (mkRun (trace w ++ pre) (db_file w))) as [tail [E1 F1]].
    cbn [trace db_file] in E1.
    destruct (cities_turn remote state country (mkRun (trace w ++ pre) (db_file w)))
      as [[cities| |e] w1]; cbn [snd] in E1 |- *; subst w1.
    + exists ((pre ++ [Sent (CitiesRequest state country)]) ++ tail)%list.
      split; [now rewrite <- !app_assoc|apply follows_app; assumption].
    + destruct (IH (S attempt)
                  (mkRun ((trace w ++ pre) ++ Sent (CitiesRequest state country) :: tail)
                         (db_file w))) as [new [E2 F2]].
      rewrite E2. cbn [trace db_file].
      exists (((pre ++ [Sent (CitiesRequest state country)]) ++ tail) ++ new)%list.
      split; [now rewrite <- !app_assoc|].
      apply follows_app; [apply follows_app; assumption|exact F2].
    + exists ((pre ++ [Sent (CitiesRequest state country)]) ++ tail)%list.
      split; [now rewrite <- !app_assoc|apply follows_app; assumption].
Qed.

Lemma city_entries_brazilian `{Unicode} (state' : string) (cities : list string) :
  Forall brazilian (city_entries state' "Brazil" cities).
Proof.
  unfold city_entries. apply Forall_forall. intros c Hc.
  apply in_map_iff in Hc. destruct Hc as [city' [<- _]].
  split; reflexivity.
Qed.

Lemma states_cities_events `{Unicode} (remote : ListRemote) (n : nat)
    (states : list string) :
  forall cities_db w,
    Forall brazilian cities_db ->
    exists new,
      snd (states_cities remote "Brazil" n states cities_db w) =
        mkRun (trace w ++ new) (db_file w) /\
      follows 0 new /\
      Forall brazilian (snd (fst (states_cities remote "Brazil" n states cities_db w))).
Proof.
  induction states as [|state' states IH]; intros cities_db w Hdb.
  - exists []. split; [destruct w; simpl; now rewrite app_nil_r|].
    split; [apply follows_nil; lia|exact Hdb].
  - cbn [states_cities].
    destruct (cities_loop_events remote state' "Brazil" n 0 (nap 60 w))
      as [new1 [E1 F1]].
    destruct (cities_loop remote state' "Brazil" n 0 (nap 60 w)) as [[cities|e] w1];
      cbn [snd] in E1; subst w1; cbn [nap trace db_file].
    + destruct (IH (cities_db ++ city_entries state' "Brazil" cities)%list
                  (mkRun ((trace w ++ [Slept 60]) ++ new1) (db_file w)))
        as [new2 [E2 [F2 B2]]].
      { apply Forall_app. split; [exact Hdb|apply city_entries_brazilian]. }
      rewrite E2. cbn [trace db_file].
      exists ((Slept 60 :: new1) ++ new2)%list.
      split; [now rewrite <- !app_assoc|].
      split; [|exact B2].
      apply follows_app; [apply follows_slept_60, F1|exact F2].
    + exists (Slept 60 :: new1). cbn [snd fst].
      split; [now rewrite <- !app_assoc|].
      split; [apply follows_slept_60, F1|exact Hdb].
Qed.

(** What a turn does with the answers of the statements. *)
Lemma states_turn_lists (remote : ListRemote) (country : string) (w : Run)
    (names : list string) :
  lists names (remote (List.length (requests_of (trace w))) (StatesRequest country)) ->
  states_turn remote country w =
    (Break names, mkRun (trace w ++ [Sent (StatesRequest country)]) (db_file w)).
Proof.
  intros [resp [E [Hc [Hr Hj]]]].
  unfold states_turn, send. rewrite E, Hc, Hr, Hj. cbn [Z.eqb Pos.eqb].
  unfold listed. cbn [String.eqb Ascii.eqb Bool.eqb].
  now rewrite names_of_some.
Qed.

Lemma states_turn_429 (remote : ListRemote) (country : string) (w : Run) :
  has_status 429 (remote (List.length (requests_of (trace w))) (StatesRequest country)) ->
  states_turn remote country w =
    (Next, mkRun (trace w ++ [Sent (StatesRequest country)]) (db_file w)).
Proof.
  intros [resp [E Hc]].
  unfold states_turn, send. now rewrite E, Hc.
Qed.

Lemma cities_turn_answered (remote : ListRemote) (state country : string) (w : Run)
    (answer : option (list string)) :
  answered answer
    (remote (List.length (requests_of (trace w))) (CitiesRequest state country)) ->
  cities_turn remote state country w =
    (Break (cities_of answer),
     mkRun (trace w ++ [Sent (CitiesRequest state country)]) (db_file w)).
Proof.
  destruct answer as [cities|]; cbn [answered cities_of].
  - intros [resp [E [Hc [Hr Hj]]]].
    unfold cities_turn, send. rewrite E, Hc, Hr, Hj. cbn [Z.eqb Pos.eqb].
    unfold listed. cbn [String.eqb Ascii.eqb Bool.eqb].
    now rewrite names_of_some.
  - intros [resp [E Hc]].
    unfold cities_turn, send. now rewrite E, Hc.
Qed.

Lemma cities_turn_unreadable (remote : ListRemote) (state country : string) (w : Run) :
  unreadable "city"
    (remote (List.length (requests_of (trace w))) (CitiesRequest state country)) ->
  exists e,
    cities_turn remote state country w =
      (Abort e, mkRun (trace w ++ [Sent (CitiesRequest state country)]) (db_file w)).
Proof.
  intros [resp [E [Hc [Hr Hj]]]].
  unfold cities_turn, send. rewrite E, Hc, Hr. cbn [Z.eqb Pos.eqb].
  destruct Hj as [[j Hj]|[data [Hj Hin]]]; rewrite Hj.
  - eexists. reflexivity.
  - unfold listed. cbn [String.eqb Ascii.eqb Bool.eqb].
    rewrite (names_of_missing "city" data Hin). eexists. reflexivity.
Qed.

Lemma run_eta (w : Run) : mkRun (trace w ++ []) (db_file w) = w.
Proof. destruct w. simpl. now rewrite app_nil_r. Qed.

(** The states of a plan, each answered at its first request. *)
Lemma states_cities_plan `{Unicode} (remote : ListRemote) (country : string) (n : nat)
    (plan : list (string * option (list string))) (rest : list string) :
  forall cities_db w,
    (forall i state' answer,
        nth_error plan i = Some (state', answer) ->
        answered answer
          (remote (List.length (requests_of (trace w)) + i)%nat
                  (CitiesRequest state' country))) ->
    states_cities remote country (S n) (map fst plan ++ rest) cities_db w =
    states_cities remote country (S n) rest
      (cities_db ++ plan_entries country plan)
      (mkRun (trace w ++ plan_events country plan) (db_file w)).
Proof.
  induction plan as [|[state' answer] plan IH]; intros cities_db w Hplan.
  - cbn. now rewrite app_nil_r, run_eta.
  - cbn [map fst app states_cities cities_loop].
    rewrite (cities_turn_answered remote state' country (nap 60 w) answer).
    + rewrite IH.
      * unfold plan_entries, plan_events. cbn [flat_map fst snd nap trace db_file].
        now rewrite <- !app_assoc.
      * intros i s a Hi. cbn [nap trace db_file].
        rewrite !requests_of_app. cbn [requests_of]. rewrite !length_app.
        cbn [List.length]. rewrite Nat.add_0_r, <- Nat.add_assoc.
        apply (Hplan (S i)). exact Hi.
    + cbn [nap trace]. rewrite requests_of_app. cbn [requests_of].
      rewrite app_nil_r. rewrite <- (Nat.add_0_r (List.length _)).
      apply (Hplan 0%nat). reflexivity.
Qed.

Lemma states_loop_429 (remote : ListRemote) (country : string) (n : nat) :
  forall attempt w,
    (forall i, (i < n)%nat ->
       has_status 429
         (remote (List.length (requests_of (trace w)) + i)%nat (StatesRequest country))) ->
    states_loop remote country n (S attempt) w =
      (Ok [], mkRun (trace w ++
                     List.concat (repeat [Slept 60; Sent (StatesRequest country)] n))
                    (db_file w)).
Proof.
  induction n as [|n IH]; intros attempt w Hbusy.
  - cbn. now rewrite run_eta.
  - cbn [states_loop].
    rewrite states_turn_429.
    + rewrite IH.
      * cbn [repeat List.concat nap trace db_file]. now rewrite <- !app_assoc.
      * intros i Hi. cbn [nap trace db_file].
        rewrite !requests_of_app. cbn [requests_of]. rewrite !length_app.
        cbn [List.length]. rewrite Nat.add_0_r, <- Nat.add_assoc.
        apply (Hbusy (S i)). lia.
    + cbn [nap trace]. rewrite requests_of_app. cbn [requests_of].
      rewrite app_nil_r. rewrite <- (Nat.add_0_r (List.length _)).
      apply (Hbusy 0%nat). lia.
Qed.

Lemma populate_events `{Unicode} (remote : ListRemote) (max_retries : Z) (w : Run) :
  exists new,
    trace (populate_initial_database remote max_retries w) = (trace w ++ new)%list /\
    follows 60 new /\
    (db_file (populate_initial_database remote max_retries w) = db_file w \/
     exists cities_db,
       db_file (populate_initial_database remote max_retries w) = FileJson cities_db /\
       Forall brazilian cities_db).
Proof.
  unfold populate_initial_database.
  destruct (load_cities_database (db_file w)) as [|c db].
  2:{ exists []. rewrite app_nil_r. split; [reflexivity|].
      split; [apply follows_nil; lia|now left]. }
  destruct (states_loop_events remote "Brazil" (Z.to_nat max_retries) 0 w)
    as [new1 [E1 F1]].
  destruct (states_loop remote "Brazil" (Z.to_nat max_retries) 0 w)
    as [[[|state' states]|e] w1]; cbn [snd] in E1; subst w1.
  - exists new1. cbn [trace db_file]. split; [reflexivity|]. split; [exact F1|now left].
  - destruct (states_cities_events remote (Z.to_nat max_retries) (state' :: states)
                [] (mkRun (trace w ++ new1) (db_file w)) (Forall_nil _))
      as [new2 [E2 [F2 B2]]].
    destruct (states_cities remote "Brazil" (Z.to_nat max_retries) (state' :: states)
                [] (mkRun (trace w ++ new1) (db_file w))) as [[[e|] cities_db] w2];
      cbn [snd fst] in E2, B2; subst w2; cbn [trace db_file] in *.
    + destruct cities_db as [|c cities_db]; cbn [save_run trace db_file];
        exists (new1 ++ new2)%list;
        (split; [now rewrite <- app_assoc|]);
        (split; [apply follows_app; assumption|]).
      * now left.
      * right. eexists. split; [reflexivity|exact B2].
    + cbn [save_run trace db_file]. exists (new1 ++ new2)%list.
      split; [now rewrite <- app_assoc|].
      split; [apply follows_app; assumption|].
      right. eexists. split; [reflexivity|exact B2].
  - exists new1. cbn [trace db_file]. split; [reflexivity|]. split; [exact F1|now left].
Qed.

End PopulateFacts.

Import PopulateFacts.

(** X20.  When the remote lists the states of Brazil at the first request
    and answers the request for the cities of each state at once, with the
    list of its cities or with a 400, the population saves the records of
    the listed cities, state by state in the order of the states and with no
    record for a state answered by a 400; it sleeps 60 seconds before each
    request for cities and sends one request per state. *)
Theorem populate_lists_every_state `{Unicode} (remote : ListRemote) (max_retries : Z)
    (w : Run) (plan : list (string * option (list string))) :
  load_cities_database (db_file w) = [] ->
  0 < max_retries ->
  plan <> [] ->
  lists (map fst plan)
    (remote (List.length (requests_of (trace w))) (StatesRequest "Brazil")) ->
  (forall i state' answer,
      nth_error plan i = Some (state', answer) ->
      answered answer
        (remote (S (List.length (requests_of (trace w)) + i))
                (CitiesRequest state' "Brazil"))) ->
  populate_initial_database remote max_retries w =
    mkRun (trace w ++ Sent (StatesRequest "Brazil") :: plan_events "Brazil" plan)
          (FileJson (plan_entries "Brazil" plan)).
Proof.
  intros Hload Hmax Hne Hstates Hplan.
  unfold populate_initial_database. rewrite Hload.
  destruct (Z.to_nat max_retries) as [|n] eqn:En; [lia|].
  cbn [states_loop]. rewrite (states_turn_lists _ _ _ _ Hstates).
  destruct plan as [|p plan]; [contradiction|].
  cbn [map].
  change (fst p :: map fst plan) with (map fst (p :: plan)).
  rewrite <- (app_nil_r (map fst (p :: plan))).
  rewrite states_cities_plan.
  - cbn [states_cities save_run trace db_file save_cities_database app].
    now rewrite <- app_assoc.
  - intros i s a Hi. cbn [trace]. rewrite requests_of_app, length_app.
    cbn [requests_of List.length].
    replace (List.length (requests_of (trace w)) + 1 + i)%nat
      with (S (List.length (requests_of (trace w)) + i)) by lia.
    apply Hplan, Hi.
Qed.

(** X21.  When the list of the cities of a state cannot be read (the
    payload is no object, or one of its items has no ["city"]), the
    population stops at that state: the states before it having been
    answered at once, their records are saved if there is one, and the file
    is left as it was if there is none; no request is sent for the states
    after it. *)
Theorem unreadable_state_ends_population `{Unicode} (remote : ListRemote)
    (max_retries : Z) (w : Run) (plan : list (string * option (list string)))
    (state' : string) (rest : list string) :
  load_cities_database (db_file w) = [] ->
  0 < max_retries ->
  lists (map fst plan ++ state' :: rest)
    (remote (List.length (requests_of (trace w))) (StatesRequest "Brazil")) ->
  (forall i s answer,
      nth_error plan i = Some (s, answer) ->
      answered answer
        (remote (S (List.length (requests_of (trace w)) + i))
                (CitiesRequest s "Brazil"))) ->
  unreadable "city"
    (remote (S (List.length (requests_of (trace w)) + List.length plan))
            (CitiesRequest state' "Brazil")) ->
  populate_initial_database remote max_retries w =
    mkRun (trace w ++ Sent (StatesRequest "Brazil") :: plan_events "Brazil" plan ++
             [Slept 60; Sent (CitiesRequest state' "Brazil")])
          (match plan_entries "Brazil" plan with
           | [] => db_file w
           | cities_db => FileJson cities_db
           end).
Proof.
  intros Hload Hmax Hstates Hplan Hbad.
  unfold populate_initial_database. rewrite Hload.
  destruct (Z.to_nat max_retries) as [|n] eqn:En; [lia|].
  cbn [states_loop]. rewrite (states_turn_lists _ _ _ _ Hstates).
  assert (Hcities :
    states_cities remote "Brazil" (S n) (map fst plan ++ state' :: rest) []
      (mkRun (trace w ++ [Sent (StatesRequest "Brazil")]) (db_file w)) =
    states_cities remote "Brazil" (S n) (state' :: rest)
      ([] ++ plan_entries "Brazil" plan)
      (mkRun ((trace w ++ [Sent (StatesRequest "Brazil")]) ++ plan_events "Brazil" plan)
             (db_file w))).
  { apply (states_cities_plan remote "Brazil" n plan (state' :: rest) []
             (mkRun (trace w ++ [Sent (StatesRequest "Brazil")]) (db_file w))).
    intros i s a Hi. cbn [trace]. rewrite requests_of_app, length_app.
    cbn [requests_of List.length].
    replace (List.length (requests_of (trace w)) + 1 + i)%nat
      with (S (List.length (requests_of (trace w)) + i)) by lia.
    apply Hplan, Hi. }
  assert (Hlen : List.length (requests_of (plan_events "Brazil" plan)) = List.length plan).
  { clear. induction plan as [|p plan IH]; [reflexivity|].
    unfold plan_events in *. cbn. now rewrite IH. }
  destruct (cities_turn_unreadable remote state' "Brazil"
              (nap 60 (mkRun ((trace w ++ [Sent (StatesRequest "Brazil")]) ++
                              plan_events "Brazil" plan) (db_file w)))) as [e He].
  { cbn [nap trace]. rewrite !requests_of_app, !length_app, Hlen.
    cbn [requests_of List.length].
    replace (List.length (requests_of (trace w)) + 1 + List.length plan + 0)%nat
      with (S (List.length (requests_of (trace w)) + List.length plan)) by lia.
    exact Hbad. }
  assert (Hend :
    states_cities remote "Brazil" (S n) (state' :: rest)
      ([] ++ plan_entries "Brazil" plan)
      (mkRun ((trace w ++ [Sent (StatesRequest "Brazil")]) ++ plan_events "Brazil" plan)
             (db_file w)) =
    (Some e, plan_entries "Brazil" plan,
     mkRun (trace w ++ Sent (StatesRequest "Brazil") :: plan_events "Brazil" plan ++
              [Slept 60; Sent (CitiesRequest state' "Brazil")]) (db_file w))).
  { cbn [states_cities cities_loop]. rewrite He. cbn [nap trace db_file app].
    now rewrite <- !app_assoc. }
  destruct (map fst plan ++ state' :: rest)%list as [|s0 states] eqn:Es.
  { destruct plan; discriminate. }
  rewrite Hcities, Hend.
  destruct (plan_entries "Brazil" plan); reflexivity.
Qed.

(** X22.  When the remote answers every request for the states with a 429,
    the population gives up after [max_retries] requests, 60 seconds after
    one another, and writes nothing. *)
Theorem rate_limited_states_give_up `{Unicode} (remote : ListRemote) (max_retries : Z)
    (w : Run) :
  load_cities_database (db_file w) = [] ->
  (forall i, (i < Z.to_nat max_retries)%nat ->
     has_status 429
       (remote (List.length (requests_of (trace w)) + i)%nat (StatesRequest "Brazil"))) ->
  populate_initial_database remote max_retries w =
    mkRun (trace w ++ attempts (StatesRequest "Brazil") (Z.to_nat max_retries))
          (db_file w).
Proof.
  intros Hload Hbusy.
  unfold populate_initial_database. rewrite Hload.
  destruct (Z.to_nat max_retries) as [|n].
  - cbn. now rewrite run_eta.
  - cbn [states_loop attempts].
    rewrite states_turn_429.
    + rewrite states_loop_429.
      * cbn [trace db_file]. now rewrite <- app_assoc.
      * intros i Hi. cbn [trace]. rewrite requests_of_app, length_app.
        cbn [requests_of List.length]. rewrite <- Nat.add_assoc.
        apply (Hbusy (S i)). lia.
    + rewrite <- (Nat.add_0_r (List.length _)). apply (Hbusy 0%nat). lia.
Qed.

(** X23.  Whatever the remote answers, the population leaves the file of
    the catalog as it was or writes a catalog whose every record has the
    country Brazil and the search string derived from its names; it leaves
    a catalog that is not empty alone, and sends no request then. *)
Theorem populate_writes_brazilian_cities `{Unicode} (remote : ListRemote)
    (max_retries : Z) (w : Run) :
  let w' := populate_initial_database remote max_retries w in
  (load_cities_database (db_file w) <> [] -> w' = w) /\
  (db_file w' = db_file w \/
   exists cities_db, db_file w' = FileJson cities_db /\ Forall brazilian cities_db).
Proof.
  intros w'. split.
  - intros Hload. unfold w', populate_initial_database.
    destruct (load_cities_database (db_file w)); [contradiction|reflexivity].
  - destruct (populate_events remote max_retries w) as [new [_ [_ Hfile]]].
    exact Hfile.
Qed.

(** X24.  Whatever the remote answers, the population only adds events to
    the run, and it sends every request but its first after at least 60
    seconds of sleep since the request before. *)
Theorem requests_are_a_minute_apart `{Unicode} (remote : ListRemote)
    (max_retries : Z) (w : Run) :
  exists new,
    trace (populate_initial_database remote max_retries w) = (trace w ++ new)%list /\
    spaced 60 60 new.
Proof.
  destruct (populate_events remote max_retries w) as [new [E [F _]]].
  exists new. split; [exact E|].
  apply (F 60). lia.
Qed.

(* ===================================================================== *)
(** * The further properties on concrete inputs *)
(* ===================================================================== *)

(** X2 on the example: of the five cities, "Spring" with a limit of 2
    leaves out none that scores above the two it returns. *)
Lemma best_matches_are_the_best_on_example :
  (0 <= 2)%Z /\
  (forall c c',
     In c (ascii_find_best_matches ex_db "Spring" 2) ->
     In c' (load_cities_database ex_db) ->
     ~ In c' (ascii_find_best_matches ex_db "Spring" 2) ->
     (ascii_score "Spring" c' <= ascii_score "Spring" c)%Q).
Proof.
  assert (Hlim : (0 <= 2)%Z) by discriminate.
  split; [exact Hlim|].
  exact (proj2 (best_matches_are_the_best (H := ascii_unicode) (H0 := ascii_difflib)
                  ex_db "Spring" 2 Hlim)).
Defined.

(** X5 on the example: Springdale, added to the five cities. *)
Lemma added_city_is_suggested_on_example :
  (3 <= @len ascii_unicode "Springdale")%nat /\
  ((exists c,
      In c (ascii_autocomplete [("query", "Springdale")]
              (ascii_add_city "Springdale" "Arkansas" "USA" ex_db)) /\
      same_city (H := ascii_unicode) "Springdale" "Arkansas" "USA" c = true) \/
   (List.length (ascii_autocomplete [("query", "Springdale")]
                   (ascii_add_city "Springdale" "Arkansas" "USA" ex_db)) = 5%nat /\
    Forall (fun c => (1 <= ascii_score "Springdale" c)%Q)
           (ascii_autocomplete [("query", "Springdale")]
              (ascii_add_city "Springdale" "Arkansas" "USA" ex_db)))).
Proof.
  assert (Hlen : (3 <= @len ascii_unicode "Springdale")%nat) by (vm_compute; lia).
  split; [exact Hlen|].
  exact (added_city_is_suggested (H := ascii_unicode) (H0 := ascii_difflib)
           "Springdale" "Arkansas" "USA" ex_db Hlen).
Defined.

(** X6 on the example: the history, the forecast and a current AQI of 42. *)
Lemma series_has_every_date_on_example :
  exists series,
    daily_aqi_summary (history_of ex_ts ex_aqius) ex_forecast (Some 42) "2024-05-03"
      = Ok series /\
    forall d,
      In d (map date series) <->
      In d (map date ex_averages) \/ In d (map date ex_forecast_aqis) \/
      (Some 42 <> None /\ d = "2024-05-03").
Proof.
  exact (series_has_every_date (history_of ex_ts ex_aqius) ex_forecast (Some 42)
           "2024-05-03" ex_averages ex_forecast_aqis eq_refl eq_refl).
Defined.

(** X8 on the example. *)
Lemma history_average_within_readings_on_example :
  all_numbers (zip ex_ts ex_aqius) /\
  magnitude (zip ex_ts ex_aqius) < 2 ^ 52 /\
  exists averages,
    calculate_daily_history_averages (history_of ex_ts ex_aqius) = Ok averages /\
    forall e, In e averages ->
    forall lo hi,
      (forall r, In r (readings_on (date e) (zip ex_ts ex_aqius)) -> lo <= r <= hi) ->
      exists m, aqi e = Some m /\ lo <= m <= hi.
Proof.
  assert (Hall : all_numbers (zip ex_ts ex_aqius))
    by (repeat constructor; discriminate).
  assert (Hsmall : magnitude (zip ex_ts ex_aqius) < 2 ^ 52) by reflexivity.
  split; [exact Hall|]. split; [exact Hsmall|].
  exact (history_average_within_readings ex_ts ex_aqius Hall Hsmall).
Defined.

(** X26 on the examples: a reading of [2^53 + 1], which is no float, comes
    out as [2^53]; a reading of [10^400] is beyond the floats. *)
Lemma history_average_rounds_the_float_on_example :
  all_numbers (zip ["2024-05-01T00:00:00.000Z"] [Some (2 ^ 53 + 1)]) /\
  calculate_daily_history_averages
    (history_of ["2024-05-01T00:00:00.000Z"] [Some (2 ^ 53 + 1)]) =
    Ok [mkEntry "2024-05-01" "Avg. AQI (2024-05-01)" (Some (2 ^ 53))] /\
  calculate_daily_history_averages
    (history_of ["2024-05-01T00:00:00.000Z"] [Some (10 ^ 400)]) =
    Raise (OverflowError "integer division result too large for a float") /\
  ((exists averages,
      calculate_daily_history_averages
        (history_of ["2024-05-01T00:00:00.000Z"] [Some (2 ^ 53 + 1)]) = Ok averages /\
      forall e, In e averages ->
        aqi e = Some (round_float (nearest_float
                  (inject_Z (total (readings_on (date e)
                     (zip ["2024-05-01T00:00:00.000Z"] [Some (2 ^ 53 + 1)]))) /
                   inject_Z (count (readings_on (date e)
                     (zip ["2024-05-01T00:00:00.000Z"] [Some (2 ^ 53 + 1)]))))))) \/
   calculate_daily_history_averages
     (history_of ["2024-05-01T00:00:00.000Z"] [Some (2 ^ 53 + 1)]) =
     Raise (OverflowError "integer division result too large for a float")).
Proof.
  assert (Hall : all_numbers (zip ["2024-05-01T00:00:00.000Z"] [Some (2 ^ 53 + 1)]))
    by (repeat constructor; discriminate).
  split; [exact Hall|]. split; [vm_compute; reflexivity|].
  split; [vm_compute; reflexivity|].
  exact (history_average_rounds_the_float
           ["2024-05-01T00:00:00.000Z"] [Some (2 ^ 53 + 1)] Hall).
Defined.

(** X9 on the example: the defaults, whose delays are 1, 2 and 4. *)
Lemma no_exception_leaves_the_client_on_example :
  Forall sleepable [1; 2; 4] /\
  exists r w',
    get_air_quality_data ex_env "Springfield" "Illinois" "USA" 3 1 world0
      = (Returned r, w').
Proof.
  assert (Hdelay : Forall sleepable [1; 2; 4]) by (repeat constructor; discriminate).
  split; [exact Hdelay|].
  exact (no_exception_leaves_the_client ex_env "Springfield" "Illinois" "USA" 3 1
           world0 Hdelay).
Defined.

(** X11 on the examples: a delay of -1 and the two kinds of 429. *)
Lemma negative_delay_on_429_on_example :
  get_air_quality_data (always_env too_many_raised) "Springfield" "Illinois" "USA"
    3 (-1) world0 =
    (Raised (ValueError "sleep length must be non-negative"), mkWorld 1 []) /\
  get_air_quality_data (always_env too_many_status) "Springfield" "Illinois" "USA"
    3 (-1) world0 =
    (Returned (Failure (ErrorText
       "An unexpected error occurred: sleep length must be non-negative")),
     mkWorld 1 []).
Proof.
  assert (Hdelay : - sleep_max <= -1 < 0) by (split; [discriminate|reflexivity]).
  split.
  - exact (proj1 (negative_delay_on_429 (always_env too_many_raised)
                    "Springfield" "Illinois" "USA" 3 (-1) world0 too_many_raised
                    Hdelay eq_refl eq_refl eq_refl)
             "429 Client Error: Too Many Requests" eq_refl).
  - exact (proj2 (negative_delay_on_429 (always_env too_many_status)
                    "Springfield" "Illinois" "USA" 3 (-1) world0 too_many_status
                    Hdelay eq_refl eq_refl eq_refl)
             (PayloadObject (Some "fail") (Some (DataOther (JString "too_many_requests"))))
             eq_refl eq_refl eq_refl).
Defined.

(** X25 on the examples: a delay of ten thousand million seconds. *)
Lemma oversized_delay_on_429_on_example :
  get_air_quality_data (always_env too_many_raised) "Springfield" "Illinois" "USA"
    3 10000000000 world0 =
    (Raised (OverflowError "timestamp too large to convert to C _PyTime_t"),
     mkWorld 1 []) /\
  get_air_quality_data (always_env too_many_status) "Springfield" "Illinois" "USA"
    3 10000000000 world0 =
    (Returned (Failure (ErrorText
       "An unexpected error occurred: timestamp too large to convert to C _PyTime_t")),
     mkWorld 1 []).
Proof.
  assert (Hdelay : 10000000000 < - sleep_max \/ sleep_max < 10000000000)
    by (right; reflexivity).
  split.
  - exact (proj1 (oversized_delay_on_429 (always_env too_many_raised)
                    "Springfield" "Illinois" "USA" 3 10000000000 world0 too_many_raised
                    Hdelay eq_refl eq_refl eq_refl)
             "429 Client Error: Too Many Requests" eq_refl).
  - exact (proj2 (oversized_delay_on_429 (always_env too_many_status)
                    "Springfield" "Illinois" "USA" 3 10000000000 world0 too_many_status
                    Hdelay eq_refl eq_refl eq_refl)
             (PayloadObject (Some "fail") (Some (DataOther (JString "too_many_requests"))))
             eq_refl eq_refl eq_refl).
Defined.

(** X12 on the examples: a remote that cannot be reached and a server
    error. *)
Lemma failure_says_why_on_example :
  get_air_quality_data down_env "Springfield" "Illinois" "USA" 3 1 world0 =
    (Returned (Failure (ErrorText "API Request Error: Connection refused")),
     mkWorld 1 []) /\
  get_air_quality_data (always_env server_error) "Springfield" "Illinois" "USA" 3 1
    world0 =
    (Returned (Failure (ErrorText
       "API HTTP Error: 500 Server Error: Internal Server Error")),
     mkWorld 1 []).
Proof.
  split.
  - destruct (failure_says_why down_env "Springfield" "Illinois" "USA" 3 1 world0
                eq_refl) as [Hdown _].
    exact (Hdown "Connection refused" eq_refl).
  - destruct (failure_says_why (always_env server_error) "Springfield" "Illinois"
                "USA" 3 1 world0 eq_refl) as [_ [Hhttp _]].
    apply (Hhttp server_error "500 Server Error: Internal Server Error");
      [reflexivity|reflexivity|discriminate].
Defined.

(** X13 on the example: 41 and [null] on the same day. *)
Lemma null_reading_fails_the_lookup_on_example :
  get_air_quality_data (always_env null_reading_response) "Springfield" "Illinois"
    "USA" 3 1 world0 =
    (Returned (Failure (ErrorText
       "An unexpected error occurred: unsupported operand type(s) for +: 'int' and 'NoneType'")),
     mkWorld 1 []).
Proof.
  apply (null_reading_fails_the_lookup (always_env null_reading_response)
           "Springfield" "Illinois" "USA" 3 1 world0 null_reading_response None
           ["2024-05-02T10:00:00.000Z"; "2024-05-02T11:00:00.000Z"] [Some 41; None] None);
    try reflexivity.
  intros Hall. inversion Hall as [|p l _ Hl]. inversion Hl as [|p' l' Hnone _].
  apply Hnone. reflexivity.
Defined.

(** X14 on the example: a forecast of one day, which has no ["ts"]. *)
Lemma forecast_day_without_ts_fails_the_lookup_on_example :
  get_air_quality_data (always_env undated_forecast_response) "Springfield" "Illinois"
    "USA" 3 1 world0 =
    (Returned (Failure (ErrorText "An unexpected error occurred: 'ts'")), mkWorld 1 []).
Proof.
  apply (forecast_day_without_ts_fails_the_lookup (always_env undated_forecast_response)
           "Springfield" "Illinois" "USA" 3 1 world0 undated_forecast_response
           undated_forecast_data [mkForecastDay None (Some 50)] []);
    try reflexivity.
  constructor. reflexivity.
Defined.

(** X16 on the example: Springfield at 42 against Boston at 57. *)
Lemma compare_cities_concludes_on_example :
  compare_cities compare_args (then_env boston_response) world0 =
    (Ok (Compared (mkComparison (Success ex_result) (Success boston_result)
           (Some "Springfield has better air quality (lower Current AQI) than Boston.")),
         200),
     mkWorld 2 []).
Proof.
  assert (Hall : Forall (given compare_args) compare_parameters)
    by (apply all_given_spec; reflexivity).
  destruct (compare_cities_concludes compare_args (then_env boston_response)
              world0 (mkWorld 1 []) (mkWorld 2 []) ex_result boston_result 42 57
              Hall eq_refl eq_refl eq_refl eq_refl) as [text [Heq [Hlt _]]].
  rewrite Heq, (Hlt eq_refl). reflexivity.
Defined.

(** X17 on the example: the second lookup meets a server error. *)
Lemma compare_cities_without_conclusion_on_example :
  compare_cities compare_args (then_env server_error) world0 =
    (Ok (Compared (mkComparison (Success ex_result)
           (Failure (ErrorText "API HTTP Error: 500 Server Error: Internal Server Error"))
           None), 200),
     mkWorld 2 []).
Proof.
  apply (compare_cities_without_conclusion compare_args (then_env server_error)
           world0 (mkWorld 1 []) (mkWorld 2 [])).
  - apply all_given_spec. reflexivity.
  - reflexivity.
  - reflexivity.
  - right. eexists. reflexivity.
Defined.

(** X18 on the example: the second city has no current reading. *)
Lemma compare_cities_needs_both_aqi_on_example :
  compare_cities compare_args (then_env blank_response) world0 =
    (Raise (TypeError "'<' not supported between instances of 'int' and 'NoneType'"),
     mkWorld 2 []).
Proof.
  apply (compare_cities_needs_both_aqi compare_args (then_env blank_response)
           world0 (mkWorld 1 []) (mkWorld 2 []) ex_result blank_result).
  - apply all_given_spec. reflexivity.
  - reflexivity.
  - reflexivity.
  - right. reflexivity.
Defined.

(** X19 on the example: the state of the second city is empty. *)
Lemma compare_cities_refuses_on_example :
  compare_cities short_args ex_env world0 =
    (Ok (CompareRefused compare_refusal, 400), world0).
Proof.
  apply (compare_cities_refuses short_args ex_env world0).
  intros Hall. apply all_given_spec in Hall. discriminate Hall.
Defined.

(** X20 on the example: two states, the second answered by a 400. *)
Lemma populate_lists_every_state_on_example :
  ascii_populate ex_remote 5 run0 =
    mkRun [Sent (StatesRequest "Brazil");
           Slept 60; Sent (CitiesRequest "Acre" "Brazil");
           Slept 60; Sent (CitiesRequest "Alagoas" "Brazil")]
          (FileJson
             [mkCityRecord "Rio Branco" "Acre" "Brazil" "rio branco, acre, brazil";
              mkCityRecord "Cruzeiro do Sul" "Acre" "Brazil"
                "cruzeiro do sul, acre, brazil"]).
Proof.
  apply (populate_lists_every_state (H := ascii_unicode) ex_remote 5 run0 ex_plan).
  - reflexivity.
  - reflexivity.
  - discriminate.
  - exists (listing ["Acre"; "Alagoas"]). repeat split.
  - intros [|[|[|i]]] s a Hi; try discriminate Hi; injection Hi as <- <-.
    + exists (listing ["Rio Branco"; "Cruzeiro do Sul"]). repeat split.
    + exists bad_request. split; reflexivity.
Defined.

(** X21 on the example: the list of the cities of the second state is no
    object. *)
Lemma unreadable_state_ends_population_on_example :
  ascii_populate broken_remote 5 run0 =
    mkRun [Sent (StatesRequest "Brazil");
           Slept 60; Sent (CitiesRequest "Acre" "Brazil");
           Slept 60; Sent (CitiesRequest "Alagoas" "Brazil")]
          (FileJson
             [mkCityRecord "Rio Branco" "Acre" "Brazil" "rio branco, acre, brazil";
              mkCityRecord "Cruzeiro do Sul" "Acre" "Brazil"
                "cruzeiro do sul, acre, brazil"]).
Proof.
  apply (unreadable_state_ends_population (H := ascii_unicode) broken_remote 5 run0
           [("Acre", Some ["Rio Branco"; "Cruzeiro do Sul"])] "Alagoas" []).
  - reflexivity.
  - reflexivity.
  - exists (listing ["Acre"; "Alagoas"]). repeat split.
  - intros [|[|i]] s a Hi; try discriminate Hi; injection Hi as <- <-.
    exists (listing ["Rio Branco"; "Cruzeiro do Sul"]). repeat split.
  - exists (mkListResponse 200 None (Ok (ListOther JNull))).
    repeat split. left. exists JNull. reflexivity.
Defined.

(** X22 on the example: three attempts, all answered by a 429. *)
Lemma rate_limited_states_give_up_on_example :
  ascii_populate busy_remote 3 run0 =
    mkRun [Sent (StatesRequest "Brazil");
           Slept 60; Sent (StatesRequest "Brazil");
           Slept 60; Sent (StatesRequest "Brazil")]
          FileMissing.
Proof.
  apply (rate_limited_states_give_up (H := ascii_unicode) busy_remote 3 run0).
  - reflexivity.
  - intros i _. exists too_many_requests. split; reflexivity.
Defined.
